(** * n8n-bedrock-content-extraction: the two node [execute] methods

    A shallow embedding of

    - [AmazonTextractOCR.execute]  (nodes/AmazonTextractOCR, TypeScript and
      its compiled JavaScript), and
    - [BedrockDocumentProcessor.execute]
      (nodes/BedrockDocumentProcessor/BedrockDocumentProcessor.node.ts),

    followed by the properties of the specification that concern them.

    Modelling conventions.

    - An [async] method is a computation in a state-and-exception monad
      [M St A]: every [await] is a sequencing point, a thrown value is
      [Throw message], and a loop of the source that has no bound of its
      own (the result pagination) takes a page budget and answers
      [Diverge] when the budget is spent.
    - Every value thrown by the host or by an SDK client is an [Error]
      object carrying a [message] string, so that
      [error?.message ?? String(error)] and [error.message] are that string.
    - A [NodeOperationError] made from a message (or, in the model node,
      from an [Error] with that message) carries the message that
      n8n-workflow gives it: the text of the first of its common error
      codes that the message contains, whatever the case of its letters,
      and the message itself when it contains none ([descriptive]).
    - The collaborators (object storage, recognition, model inference, the
      timer and the UUID source) are deterministic oracles that see the wall
      clock and the whole history of calls made so far; a call appends its
      command to the history and advances the clock by the time it took.
    - Numbers that take part in arithmetic ([timeoutSeconds], [Date.now()])
      are integers: a timeout is a whole number of seconds, and the
      values of a JavaScript number that are no integer ([NaN], a
      fraction of a second) are outside the model.  Numbers that are only
      passed on ([temperature], [topP]) are rationals. *)

From Stdlib Require Import ZArith List String Ascii Bool Lia DecimalString.
From Stdlib Require QArith_base DecimalZ DecimalPos.
Import ListNotations.

Local Open Scope string_scope.
Local Open Scope Z_scope.

Set Implicit Arguments.

(* ================================================================== *)
(** ** JavaScript values used by both nodes *)

Definition Buffer := list Byte.byte.

(** The line feed of ['\n']. *)
Definition LF : string := String (ascii_of_nat 10) EmptyString.

(** Truthiness of a [string]: every string but [''] is truthy. *)
Definition truthy (s : string) : bool :=
  match s with EmptyString => false | String _ _ => true end.

(** Truthiness of a [string | undefined]. *)
Definition truthy_opt (o : option string) : bool :=
  match o with Some s => truthy s | None => false end.

(** [a ?? b]: [b] only when [a] is [null] or [undefined]. *)
Definition nullish {A : Type} (a : option A) (b : A) : A :=
  match a with Some x => x | None => b end.

(** [a || b] on strings. *)
Definition or_else (a : option string) (b : string) : string :=
  match a with
  | Some s => if truthy s then s else b
  | None => b
  end.

(** [s.startsWith(p)]. *)
Definition startsWith (s p : string) : bool := String.prefix p s.

(** [s.endsWith(p)]. *)
Definition endsWith (s p : string) : bool :=
  let n := String.length s in
  let m := String.length p in
  (m <=? n)%nat && String.eqb (String.substring (n - m) m s) p.

(** [s.split(c)] for a one-character separator: the pieces between the
    separators, [cur] being the piece read so far. *)
Fixpoint split_from (c : ascii) (cur : string) (s : string) : list string :=
  match s with
  | EmptyString => [cur]
  | String a rest =>
      if Ascii.eqb a c then cur :: split_from c EmptyString rest
      else split_from c (cur ++ String a EmptyString) rest
  end.

Definition split (s : string) (c : ascii) : list string :=
  split_from c EmptyString s.

(** [`${n}`] for an integer. *)
Definition string_of_Z (n : Z) : string := NilZero.string_of_int (Z.to_int n).

(** [`${x}`] for a [string | undefined]. *)
Definition template_opt (o : option string) : string :=
  match o with Some s => s | None => "undefined" end.

(** [lines.join(sep)]. *)
Definition join (sep : string) (l : list string) : string := String.concat sep l.

(* ================================================================== *)
(** ** The message of a [NodeOperationError]

    [NodeOperationError] comes from the dependency n8n-workflow, whose
    source is not part of the repository.  Its constructor does not keep
    every message as it is given: when the message, in upper case,
    includes one of the codes of the table [COMMON_ERRORS], the message
    of the error is the text that the table gives for the first such code
    (in the order of the table).  The table and the search are those of
    n8n-workflow's [NodeError.setDescriptiveErrorMessage]. *)

(** [c.toUpperCase()] on the letters [a] to [z]. *)
Definition upper_ascii (c : ascii) : ascii :=
  let n := nat_of_ascii c in
  if ((97 <=? n) && (n <=? 122))%nat then ascii_of_nat (n - 32) else c.

(** [s.toUpperCase()]. *)
Fixpoint toUpperCase (s : string) : string :=
  match s with
  | EmptyString => EmptyString
  | String c rest => String (upper_ascii c) (toUpperCase rest)
  end.

(** [p] is at the head of [s], character by character. *)
Fixpoint at_head (p s : string) : bool :=
  match p, s with
  | EmptyString, _ => true
  | String a p', String b s' => Ascii.eqb a b && at_head p' s'
  | String _ _, EmptyString => false
  end.

(** [s.includes(p)]. *)
Fixpoint includes (s p : string) : bool :=
  at_head p s ||
  match s with
  | EmptyString => false
  | String _ rest => includes rest p
  end.

Definition COMMON_ERRORS : list (string * string) :=
  [ ("ECONNREFUSED", "The service refused the connection - perhaps it is offline");
    ("ECONNRESET", "The connection to the server was closed unexpectedly, perhaps it is offline. You can retry the request immediately or wait and retry later.");
    ("ENOTFOUND", "The connection cannot be established, this usually occurs due to an incorrect host (domain) value");
    ("ETIMEDOUT", "The connection timed out, consider setting the 'Retry on Fail' option in the node settings");
    ("ERRADDRINUSE", "The port is already occupied by some other application, if possible change the port or kill the application that is using it");
    ("EADDRNOTAVAIL", "The address is not available, ensure that you have the right IP address");
    ("ECONNABORTED", "The connection was aborted, perhaps the server is offline");
    ("EHOSTUNREACH", "The host is unreachable, perhaps the server is offline");
    ("EAI_AGAIN", "The DNS server returned an error, perhaps the server is offline");
    ("ENOENT", "The file or directory does not exist");
    ("EISDIR", "The file path was expected but the given path is a directory");
    ("ENOTDIR", "The directory path was expected but the given path is a file");
    ("EACCES", "Forbidden by access permissions, make sure you have the right permissions");
    ("EEXIST", "The file or directory already exists");
    ("EPERM", "Operation not permitted, make sure you have the right permissions");
    ("GETADDRINFO", "The server closed the connection unexpectedly") ].

(** The entry of the table that rewrites [message], if there is one. *)
Definition common_error (message : string) : option (string * string) :=
  find (fun entry => includes (toUpperCase message) (toUpperCase (fst entry)))
       COMMON_ERRORS.

(** The message of [new NodeOperationError(this.getNode(), message)]. *)
Definition descriptive (message : string) : string :=
  match common_error message with
  | Some entry => snd entry
  | None => message
  end.

(* ================================================================== *)
(** ** Results, and the monad of an [async] method *)

(** What a call to a collaborator or to the host comes back with. *)
Inductive Outcome (A : Type) : Type :=
| Returned (a : A)
| Failed (message : string).
Arguments Returned {A} a.
Arguments Failed {A} message.

(** What a piece of the method ends with. *)
Inductive Res (A : Type) : Type :=
| Ok (a : A)
| Throw (message : string)
| Diverge.
Arguments Ok {A} a.
Arguments Throw {A} message.
Arguments Diverge {A}.

Definition M (St A : Type) : Type := St -> Res A * St.

Definition ret {St A : Type} (a : A) : M St A := fun st => (Ok a, st).

Definition throw {St A : Type} (message : string) : M St A :=
  fun st => (Throw message, st).

Definition bind {St A B : Type} (m : M St A) (k : A -> M St B) : M St B :=
  fun st =>
    match m st with
    | (Ok a, st') => k a st'
    | (Throw e, st') => (Throw e, st')
    | (Diverge, st') => (Diverge, st')
    end.

(** A call to the host, which does not touch the state. *)
Definition host {St A : Type} (o : Outcome A) : M St A :=
  fun st =>
    match o with
    | Returned a => (Ok a, st)
    | Failed e => (Throw e, st)
    end.

Declare Scope monad_scope.
Delimit Scope monad_scope with monad.
Notation "x <- m ;; k" := (bind m (fun x => k))
  (at level 61, m at next level, right associativity) : monad_scope.
Notation "m ;;; k" := (bind m (fun _ => k))
  (at level 61, right associativity) : monad_scope.
Local Open Scope monad_scope.

(** The reply of a collaborator: what it answers and how long it took,
    in milliseconds. *)
Record Reply (A : Type) : Type := mkReply {
  outcome : Outcome A;
  took : N
}.

(* ================================================================== *)
(** ** The host (n8n's [IExecuteFunctions]) *)

Record Credentials : Type := mkCredentials {
  accessKeyId : option string;
  secretAccessKey : option string;
  region : option string
}.

Record BinaryData : Type := mkBinaryData {
  mimeType : string
}.

Record Host : Type := mkHost {
  (** [this.getInputData().length] *)
  items_length : nat;
  (** [await this.getCredentials('aws')] *)
  getCredentials : Outcome (option Credentials);
  (** [this.getNodeParameter(name, i) as string] *)
  getNodeParameter : string -> nat -> Outcome string;
  (** [this.getNodeParameter(name, i) as number], a whole number *)
  getNodeParameterInt : string -> nat -> Outcome Z;
  (** [this.getNodeParameter(name, i) as number] *)
  getNodeParameterNum : string -> nat -> Outcome QArith_base.Q;
  (** [this.helpers.assertBinaryData(i, property)] *)
  assertBinaryData : nat -> string -> Outcome BinaryData;
  (** [await this.helpers.getBinaryDataBuffer(i, property)] *)
  getBinaryDataBuffer : nat -> string -> Outcome Buffer;
  (** [this.continueOnFail()] *)
  continueOnFail : bool;
  (** [Buffer.from(s, 'base64')] *)
  from_base64 : string -> Buffer
}.

Record InputFile : Type := mkInputFile {
  fileBuffer : Buffer;
  fileType : string
}.

(** Sequencing of host calls. *)
Definition and_then {A B : Type} (o : Outcome A) (k : A -> Outcome B) : Outcome B :=
  match o with
  | Returned a => k a
  | Failed e => Failed e
  end.

(** The input resolver, the same in both nodes; it only talks to the host:
<<
  const fileSource = this.getNodeParameter('fileSource', i);
  if (fileSource === 'binary') {
    const binaryProperty = this.getNodeParameter('binaryProperty', i);
    const binaryData = this.helpers.assertBinaryData(i, binaryProperty);
    fileBuffer = await this.helpers.getBinaryDataBuffer(i, binaryProperty);
    fileType = binaryData.mimeType;
  } else {
    const base64Content = this.getNodeParameter('base64Content', i);
    fileType = this.getNodeParameter('fileType', i);
    fileBuffer = Buffer.from(base64Content, 'base64');
  }
>> *)
Definition resolve_file (h : Host) (i : nat) : Outcome InputFile :=
  and_then (getNodeParameter h "fileSource" i) (fun fileSource =>
  if String.eqb fileSource "binary" then
    and_then (getNodeParameter h "binaryProperty" i) (fun binaryProperty =>
    and_then (assertBinaryData h i binaryProperty) (fun binaryData =>
    and_then (getBinaryDataBuffer h i binaryProperty) (fun buf =>
    Returned (mkInputFile buf (mimeType binaryData)))))
  else
    and_then (getNodeParameter h "base64Content" i) (fun base64Content =>
    and_then (getNodeParameter h "fileType" i) (fun ty =>
    Returned (mkInputFile (from_base64 h base64Content) ty)))).

(* ================================================================== *)
(** ** The OCR node: [AmazonTextractOCR] *)

Module Textract.

(** A block of a recognition response, [(b as any).BlockType], [.Text] and
    [.DetectedText]. *)
Record Block : Type := mkBlock {
  BlockType : option string;
  Text : option string;
  DetectedText : option string
}.

(** The response of [DetectDocumentTextCommand]. *)
Record DetectResponse : Type := mkDetectResponse {
  detectBlocks : option (list Block)
}.

(** The response of [StartDocumentTextDetectionCommand]. *)
Record StartResponse : Type := mkStartResponse {
  JobId : option string
}.

(** The response of [GetDocumentTextDetectionCommand]. *)
Record GetResponse : Type := mkGetResponse {
  JobStatus : option string;
  NextToken : option string;
  Blocks : option (list Block)
}.

(** The commands sent to the collaborators, and the timer. *)
Inductive Event : Type :=
| PutObject (Bucket Key : string) (Body : Buffer) (ContentType : string)
| DeleteObject (Bucket Key : string)
| DetectDocumentText (Bytes : Buffer)
| StartDocumentTextDetection (Bucket Name : string)
| GetDocumentTextDetection (jobId : string) (nextToken : option string)
| SetTimeout (ms : Z).

(** The records of [returnData], [{ json: { text } }] and the like. *)
Inductive Output : Type :=
| OutText (text : string)
| OutError (error : string)
| OutWarning (warning : string).

(** The collaborators.  Each oracle sees [Date.now()] and the history. *)
Record Services : Type := mkServices {
  s3_put : Z -> list Event -> string -> string -> Buffer -> string -> Reply unit;
  s3_delete : Z -> list Event -> string -> string -> Reply unit;
  textract_detect : Z -> list Event -> Buffer -> Reply DetectResponse;
  textract_start : Z -> list Event -> string -> string -> Reply StartResponse;
  textract_get : Z -> list Event -> string -> option string -> Reply GetResponse;
  (** how late the timer fires, in milliseconds *)
  timer_lag : Z -> list Event -> N;
  randomUUID : Z -> list Event -> string
}.

Record State : Type := mkState {
  now : Z;
  log : list Event;
  returnData : list Output;
  uploadedKey : option string
}.

Definition push (o : Output) (st : State) : State :=
  mkState (now st) (log st) (returnData st ++ [o]) (uploadedKey st).

Definition set_uploadedKey (k : option string) (st : State) : State :=
  mkState (now st) (log st) (returnData st) k.

Definition record_call (cmd : Event) (ms : N) (st : State) : State :=
  mkState (now st + Z.of_N ms) (log st ++ [cmd]) (returnData st) (uploadedKey st).

(** [await client.send(cmd)]. *)
Definition send {A : Type} (cmd : Event) (oracle : Z -> list Event -> Reply A)
  : M State A :=
  fun st =>
    let r := oracle (now st) (log st) in
    match outcome r with
    | Returned a => (Ok a, record_call cmd (took r) st)
    | Failed e => (Throw e, record_call cmd (took r) st)
    end.

(** [await new Promise((res) => setTimeout(res, ms))]. *)
Definition sleep (sv : Services) (ms : Z) : M State unit :=
  fun st =>
    (Ok tt, record_call (SetTimeout ms) (Z.to_N ms + timer_lag sv (now st) (log st)) st).

(** [Date.now()]. *)
Definition date_now : M State Z := fun st => (Ok (now st), st).

(** [returnData.push(o)]. *)
Definition push_output (o : Output) : M State unit := fun st => (Ok tt, push o st).

(** The per-node configuration read before the loop. *)
Record Config : Type := mkConfig {
  s3Bucket : string;
  s3Prefix : string;
  timeoutSeconds : Z;
  clientRegion : option string
}.

(** The text of a block: [b.Text ?? b.DetectedText ?? '']. *)
Definition block_txt (b : Block) : string :=
  nullish (Text b) (nullish (DetectedText b) EmptyString).

(** [bt === 'LINE' && txt]. *)
Definition is_line (b : Block) : bool :=
  match BlockType b with
  | Some bt => String.eqb bt "LINE" && truthy (block_txt b)
  | None => false
  end.

(** The loop over the blocks:
<<
  const lines = [];
  for (const b of blocks) {
    const bt = b.BlockType;
    const txt = b.Text ?? b.DetectedText ?? '';
    if (bt === 'LINE' && txt) lines.push(txt);
  }
>> *)
Fixpoint collect_lines (blocks : list Block) (lines : list string) : list string :=
  match blocks with
  | [] => lines
  | b :: rest =>
      if is_line b then collect_lines rest (lines ++ [block_txt b])
      else collect_lines rest lines
  end.

(** [extractedText = lines.join('\n')]. *)
Definition extract_text (blocks : list Block) : string :=
  join LF (collect_lines blocks []).

(** The image branch. *)
Definition image_path (sv : Services) (f : InputFile) : M State string :=
  resp <- send (DetectDocumentText (fileBuffer f))
               (fun t l => textract_detect sv t l (fileBuffer f)) ;;
  ret (extract_text (nullish (detectBlocks resp) [])).

(** The object key,
    [`${s3Prefix}${s3Prefix && !s3Prefix.endsWith('/') ? '/' : ''}${Date.now()}-${randomUUID()}.pdf`]. *)
Definition make_key (sv : Services) (cfg : Config) : M State string :=
  fun st =>
    let sep := if truthy (s3Prefix cfg) && negb (endsWith (s3Prefix cfg) "/")
               then "/" else EmptyString in
    (Ok (s3Prefix cfg ++ sep ++ string_of_Z (now st) ++ "-"
           ++ randomUUID sv (now st) (log st) ++ ".pdf")%string, st).

(** [timeoutSeconds || 120]. *)
Definition effective_timeout (timeoutSeconds : Z) : Z :=
  if timeoutSeconds =? 0 then 120 else timeoutSeconds.

(** [jobStatus === 'SUCCEEDED' || jobStatus === 'FAILED']. *)
Definition is_terminal (jobStatus : option string) : bool :=
  match jobStatus with
  | Some s => String.eqb s "SUCCEEDED" || String.eqb s "FAILED"
  | None => false
  end.

Definition succeeded (jobStatus : option string) : bool :=
  match jobStatus with
  | Some s => String.eqb s "SUCCEEDED"
  | None => false
  end.

(** The polling loop,
<<
  let jobStatus; let getResp = null;
  while (Date.now() < timeoutAt) {
    await new Promise((res) => setTimeout(res, 3000));
    getResp = await textractClient.send(new GetDocumentTextDetectionCommand({ JobId: jobId }));
    jobStatus = getResp.JobStatus;
    if (jobStatus === 'SUCCEEDED' || jobStatus === 'FAILED') break;
  }
>>
    with a bound [n] on the number of iterations; [poll] below gives it a
    bound that the clock never lets it reach. *)
Fixpoint poll_loop (n : nat) (sv : Services) (jobId : string) (timeoutAt : Z)
    (jobStatus : option string) (getResp : option GetResponse)
  : M State (option string * option GetResponse) :=
  fun st =>
    if now st <? timeoutAt then
      match n with
      | O => (Diverge, st)
      | S n' =>
          (sleep sv 3000 ;;;
           resp <- send (GetDocumentTextDetection jobId None)
                        (fun t l => textract_get sv t l jobId None) ;;
           if is_terminal (JobStatus resp)
           then ret (JobStatus resp, Some resp)
           else poll_loop n' sv jobId timeoutAt (JobStatus resp) (Some resp)) st
      end
    else (Ok (jobStatus, getResp), st).

(** Every iteration takes 3000 ms at least, so this many suffice. *)
Definition poll_bound (timeoutAt t : Z) : nat :=
  Z.to_nat ((timeoutAt - t + 2999) / 3000).

Definition poll (sv : Services) (jobId : string) (timeoutAt : Z)
  : M State (option string * option GetResponse) :=
  fun st => poll_loop (poll_bound timeoutAt (now st)) sv jobId timeoutAt None None st.

(** The pagination loop,
<<
  while (nextToken) {
    const pageResp = await textractClient.send(
      new GetDocumentTextDetectionCommand({ JobId: jobId, NextToken: nextToken }));
    allBlocks.push(...(pageResp.Blocks ?? []));
    nextToken = pageResp.NextToken || undefined;
  }
>>
    which fetches at most [fuel] pages. *)
Fixpoint collect_pages (fuel : nat) (sv : Services) (jobId : string)
    (nextToken : option string) (allBlocks : list Block) : M State (list Block) :=
  match nextToken with
  | Some tok =>
      if truthy tok then
        match fuel with
        | O => fun st => (Diverge, st)
        | S fuel' =>
            pageResp <- send (GetDocumentTextDetection jobId (Some tok))
                             (fun t l => textract_get sv t l jobId (Some tok)) ;;
            collect_pages fuel' sv jobId (NextToken pageResp)
                          (allBlocks ++ nullish (Blocks pageResp) [])
        end
      else ret allBlocks
  | None => ret allBlocks
  end.

(** From the upload to the job identifier. *)
Definition upload_and_start (sv : Services) (cfg : Config) (f : InputFile)
  : M State string :=
  key <- make_key sv cfg ;;
  (fun st => (Ok tt, set_uploadedKey (Some key) st)) ;;;
  send (PutObject (s3Bucket cfg) key (fileBuffer f) (fileType f))
       (fun t l => s3_put sv t l (s3Bucket cfg) key (fileBuffer f) (fileType f)) ;;;
  startResp <- send (StartDocumentTextDetection (s3Bucket cfg) key)
                    (fun t l => textract_start sv t l (s3Bucket cfg) key) ;;
  match JobId startResp with
  | Some jobId => if truthy jobId then ret jobId
                  else throw (descriptive "Failed to start Textract job")
  | None => throw (descriptive "Failed to start Textract job")
  end.

(** From the end of the polling loop to the extracted text. *)
Definition finish_job (fuel : nat) (sv : Services) (jobId : string)
    (polled : option string * option GetResponse) : M State string :=
  let (jobStatus, getResp) := polled in
  if negb (succeeded jobStatus) then
    throw (descriptive
             ("Textract job did not complete successfully: " ++ template_opt jobStatus))
  else
    match getResp with
    | None => throw "Cannot read properties of null (reading 'NextToken')"
    | Some resp =>
        allBlocks <- collect_pages fuel sv jobId (NextToken resp)
                                   (nullish (Blocks resp) []) ;;
        ret (extract_text allBlocks)
    end.

(** The PDF branch. *)
Definition pdf_path (fuel : nat) (sv : Services) (cfg : Config) (f : InputFile)
  : M State string :=
  jobId <- upload_and_start sv cfg f ;;
  startTime <- date_now ;;
  let timeoutAt := startTime + effective_timeout (timeoutSeconds cfg) * 1000 in
  polled <- poll sv jobId timeoutAt ;;
  finish_job fuel sv jobId polled.

(** The body of the [try] block. *)
Definition try_body (fuel : nat) (h : Host) (sv : Services) (cfg : Config) (i : nat)
  : M State unit :=
  f <- host (resolve_file h i) ;;
  let isPdf := String.eqb (fileType f) "application/pdf" in
  let isImage := startsWith (fileType f) "image/" in
  if negb isPdf && negb isImage then
    throw (descriptive ("Unsupported MIME type: " ++ fileType f))
  else
    extractedText <- (if isImage then image_path sv f else pdf_path fuel sv cfg f) ;;
    push_output (OutText extractedText).

(** The [finally] block. *)
Definition cleanup (h : Host) (sv : Services) (cfg : Config) (st : State) : State :=
  match uploadedKey st with
  | Some key =>
      if truthy key then
        match send (DeleteObject (s3Bucket cfg) key)
                   (fun t l => s3_delete sv t l (s3Bucket cfg) key) st with
        | (Throw e, st') =>
            if continueOnFail h
            then push (OutWarning ("Failed to delete S3 object " ++ key ++ ": " ++ e)) st'
            else st'
        | (_, st') => st'
        end
      else st
  | None => st
  end.

(** One iteration of the [for] loop: [Ok tt] goes on to the next record,
    [Throw] leaves [execute], with the message of
    [new NodeOperationError(this.getNode(), errMsg)]. *)
Definition process_item (fuel : nat) (h : Host) (sv : Services) (cfg : Config) (i : nat)
  : M State unit :=
  fun st =>
    match try_body fuel h sv cfg i (set_uploadedKey None st) with
    | (Ok _, st1) => (Ok tt, cleanup h sv cfg st1)
    | (Throw errMsg, st1) =>
        if continueOnFail h
        then (Ok tt, cleanup h sv cfg (push (OutError errMsg) st1))
        else (Throw (descriptive errMsg), cleanup h sv cfg st1)
    | (Diverge, st1) => (Diverge, st1)
    end.

(** [for (let i = 0; i < items.length; i++)], from [i] with [remaining]
    records to go. *)
Fixpoint run_items (fuel : nat) (h : Host) (sv : Services) (cfg : Config)
    (remaining i : nat) : M State unit :=
  match remaining with
  | O => ret tt
  | S r => process_item fuel h sv cfg i ;;; run_items fuel h sv cfg r (S i)
  end.

(** What precedes the loop. *)
Definition configure (h : Host) : M State Config :=
  credentials <- host (getCredentials h) ;;
  match credentials with
  | None => throw (descriptive "AWS credentials are missing or incomplete")
  | Some c =>
      if negb (truthy_opt (accessKeyId c)) || negb (truthy_opt (secretAccessKey c))
      then throw (descriptive "AWS credentials are missing or incomplete")
      else
        bucket <- host (getNodeParameter h "s3Bucket" 0) ;;
        prefix <- host (getNodeParameter h "s3Prefix" 0) ;;
        timeout <- host (getNodeParameterInt h "timeoutSeconds" 0) ;;
        if negb (truthy bucket) then throw (descriptive "S3 bucket must be provided")
        else
          if truthy_opt (region c)
          then ret (mkConfig bucket (or_else (Some prefix) EmptyString) timeout (region c))
          else
            r <- host (getNodeParameter h "region" 0) ;;
            ret (mkConfig bucket (or_else (Some prefix) EmptyString) timeout
                          (if truthy r then Some r else None))
  end.

(** [execute]: the state it starts in has an empty [returnData]. *)
Definition execute (fuel : nat) (h : Host) (sv : Services)
  : M State (list (list Output)) :=
  fun st0 =>
    (cfg <- configure h ;;
     run_items fuel h sv cfg (items_length h) 0 ;;;
     (fun st => (Ok [returnData st], st)))
      (mkState (now st0) (log st0) [] None).

End Textract.

(* ================================================================== *)
(** ** The model-invocation node: [BedrockDocumentProcessor] *)

Module Bedrock.

Import QArith_base.

(** The parts of the [content] array of the request. *)
Inductive ContentBlock : Type :=
| TextPart (text : string)
| ImagePart (format : option string) (bytes : Buffer)
| DocumentPart (format name : string) (bytes : Buffer).

Record Message : Type := mkMessage {
  role : string;
  content : list ContentBlock
}.

Record InferenceConfig : Type := mkInferenceConfig {
  maxTokens : Z;
  temperature : Q;
  topP : Q
}.

Record ConverseCommand : Type := mkConverseCommand {
  modelId : string;
  messages : list Message;
  inferenceConfig : InferenceConfig
}.

(** The reply, as far as [execute] reads it. *)
Record ReplyBlock : Type := mkReplyBlock {
  text : option string
}.

Record ReplyMessage : Type := mkReplyMessage {
  replyContent : option (list ReplyBlock)
}.

Record ConverseOutput : Type := mkConverseOutput {
  message : option ReplyMessage
}.

Record Usage : Type := mkUsage {
  inputTokens : option Z;
  outputTokens : option Z;
  totalTokens : option Z
}.

Record ConverseResponse : Type := mkConverseResponse {
  output : option ConverseOutput;
  usage : option Usage;
  stopReason : option string
}.

Inductive Event : Type :=
| Converse (cmd : ConverseCommand).

(** The records of [returnData]. *)
Inductive Output : Type :=
| OutResponse (response : string) (usage : Usage) (stopReason : option string)
| OutError (error : string).

Record Services : Type := mkServices {
  bedrock_converse : Z -> list Event -> ConverseCommand -> Reply ConverseResponse
}.

Record State : Type := mkState {
  now : Z;
  log : list Event;
  returnData : list Output
}.

Definition push (o : Output) (st : State) : State :=
  mkState (now st) (log st) (returnData st ++ [o]).

Definition push_output (o : Output) : M State unit := fun st => (Ok tt, push o st).

(** [await bedrockClient.send(command)]. *)
Definition send (cmd : ConverseCommand) (sv : Services) : M State ConverseResponse :=
  fun st =>
    let r := bedrock_converse sv (now st) (log st) cmd in
    let st' := mkState (now st + Z.of_N (took r)) (log st ++ [Converse cmd])
                       (returnData st) in
    match outcome r with
    | Returned a => (Ok a, st')
    | Failed e => (Throw e, st')
    end.

(** What is read before the loop. *)
Record Config : Type := mkConfig {
  clientRegion : string;
  cfgModelId : string;
  cfgMaxTokens : Z;
  cfgTemperature : Q;
  clientAccessKeyId : option string;
  clientSecretAccessKey : option string
}.

(** The [content] array:
<<
  const content = [{ text: message }];
  if (fileType.startsWith('image/')) {
    const format = fileType.split('/')[1];
    content.push({ image: { format: format, source: { bytes: fileBytes } } });
  } else if (fileType === 'application/pdf') {
    content.push({ document: { format: 'pdf', name: 'document', source: { bytes: fileBytes } } });
  }
>> *)
Definition build_content (msg : string) (f : InputFile) : list ContentBlock :=
  let content := [TextPart msg] in
  if startsWith (fileType f) "image/" then
    content ++ [ImagePart (nth_error (split (fileType f) "/") 1) (fileBuffer f)]
  else if String.eqb (fileType f) "application/pdf" then
    content ++ [DocumentPart "pdf" "document" (fileBuffer f)]
  else content.

Definition build_command (cfg : Config) (content : list ContentBlock) : ConverseCommand :=
  mkConverseCommand (cfgModelId cfg) [mkMessage "user" content]
    (mkInferenceConfig (cfgMaxTokens cfg) (cfgTemperature cfg) (Qmake 9 10)).

(** [response.output?.message?.content?.[0]?.text || '']. *)
Definition first_text (r : ConverseResponse) : string :=
  match output r with
  | Some o =>
      match message o with
      | Some m =>
          match replyContent m with
          | Some (b :: _) => or_else (text b) EmptyString
          | _ => EmptyString
          end
      | None => EmptyString
      end
  | None => EmptyString
  end.

(** [response.usage || {}]. *)
Definition usage_or_empty (r : ConverseResponse) : Usage :=
  nullish (usage r) (mkUsage None None None).

(** The body of the [try] block. *)
Definition try_body (h : Host) (sv : Services) (cfg : Config) (i : nat) : M State unit :=
  msg <- host (getNodeParameter h "message" i) ;;
  f <- host (resolve_file h i) ;;
  response <- send (build_command cfg (build_content msg f)) sv ;;
  push_output (OutResponse (first_text response) (usage_or_empty response)
                           (stopReason response)).

(** One iteration of the [for] loop.  [Throw] leaves [execute] with the
    message of [new NodeOperationError(this.getNode(), error)]: that of
    [error] made descriptive (an [error] that is a [NodeOperationError]
    already is kept as it is, and its message was made descriptive when
    it was built). *)
Definition process_item (h : Host) (sv : Services) (cfg : Config) (i : nat) : M State unit :=
  fun st =>
    match try_body h sv cfg i st with
    | (Ok _, st1) => (Ok tt, st1)
    | (Throw e, st1) =>
        if continueOnFail h then (Ok tt, push (OutError e) st1)
        else (Throw (descriptive e), st1)
    | (Diverge, st1) => (Diverge, st1)
    end.

Fixpoint run_items (h : Host) (sv : Services) (cfg : Config) (remaining i : nat)
  : M State unit :=
  match remaining with
  | O => ret tt
  | S r => process_item h sv cfg i ;;; run_items h sv cfg r (S i)
  end.

(** What precedes the loop; no field of the credentials is looked at,
    they are handed to the client as they are. *)
Definition configure (h : Host) : M State Config :=
  credentials <- host (getCredentials h) ;;
  rgn <- host (getNodeParameter h "region" 0) ;;
  model <- host (getNodeParameter h "modelId" 0) ;;
  maxTok <- host (getNodeParameterInt h "maxTokens" 0) ;;
  temp <- host (getNodeParameterNum h "temperature" 0) ;;
  match credentials with
  | None => throw "Cannot read properties of undefined (reading 'accessKeyId')"
  | Some c => ret (mkConfig rgn model maxTok temp (accessKeyId c) (secretAccessKey c))
  end.

Definition execute (h : Host) (sv : Services) : M State (list (list Output)) :=
  fun st0 =>
    (cfg <- configure h ;;
     run_items h sv cfg (items_length h) 0 ;;;
     (fun st => (Ok [returnData st], st)))
      (mkState (now st0) (log st0) []).

End Bedrock.

(* ================================================================== *)
(** ** Concrete hosts and collaborators, for the examples *)

Module Fixtures.

Definition good_credentials : Credentials :=
  mkCredentials (Some "AKIAEXAMPLE") (Some "secret") (Some "eu-west-1").

(** Credentials that are an object without a key pair. *)
Definition empty_credentials : Credentials := mkCredentials None None None.

(** The bytes of [%PDF-]. *)
Definition payload : Buffer := [Byte.x25; Byte.x50; Byte.x44; Byte.x46; Byte.x2d].

(** A host whose records all carry the same base64 payload of MIME type
    [mime]. *)
Definition base64_host (creds : option Credentials) (tolerant : bool) (mime : string)
    (timeout : Z) (records : nat) : Host :=
  mkHost records (Returned creds)
    (fun name _ =>
       if String.eqb name "fileSource" then Returned "base64"
       else if String.eqb name "base64Content" then Returned "JVBERi0="
       else if String.eqb name "fileType" then Returned mime
       else if String.eqb name "s3Bucket" then Returned "scratch-bucket"
       else if String.eqb name "s3Prefix" then Returned "tmp"
       else if String.eqb name "region" then Returned "eu-west-1"
       else if String.eqb name "modelId" then Returned "anthropic.claude-3"
       else if String.eqb name "message" then Returned "describe this image"
       else Failed ("Could not get parameter " ++ name))
    (fun name _ =>
       if String.eqb name "timeoutSeconds" then Returned timeout
       else if String.eqb name "maxTokens" then Returned 4096
       else Failed ("Could not get parameter " ++ name))
    (fun name _ =>
       if String.eqb name "temperature" then Returned (QArith_base.Qmake 7 10)
       else Failed ("Could not get parameter " ++ name))
    (fun _ _ => Failed "This operation expects the node's input data to contain a binary file")
    (fun _ _ => Failed "This operation expects the node's input data to contain a binary file")
    tolerant
    (fun _ => payload).

Definition line (s : string) : Textract.Block :=
  Textract.mkBlock (Some "LINE") (Some s) None.

Definition is_status_call (e : Textract.Event) : bool :=
  match e with
  | Textract.GetDocumentTextDetection _ None => true
  | _ => false
  end.

(** Collaborators that answer at once: the [k]-th status call of the
    history answers [nth k statuses] (and [last] afterwards) together with
    the first page, a continuation token is looked up in [pages], and the
    deletion fails when [delete_fails]. *)
Definition scripted (statuses : list string) (last : string)
    (first : Textract.GetResponse -> Textract.GetResponse)
    (pages : list (string * Textract.GetResponse)) (delete_fails : bool)
    (detected : list Textract.Block) : Textract.Services :=
  Textract.mkServices
    (fun _ _ _ _ _ _ => mkReply (Returned tt) 0)
    (fun _ _ _ _ =>
       mkReply (if delete_fails then Failed "AccessDenied" else Returned tt) 0)
    (fun _ _ _ => mkReply (Returned (Textract.mkDetectResponse (Some detected))) 0)
    (fun _ _ _ _ => mkReply (Returned (Textract.mkStartResponse (Some "job-1"))) 0)
    (fun _ l _ tok =>
       match tok with
       | None =>
           let status := nth (List.length (filter is_status_call l)) statuses last in
           mkReply (Returned (first (Textract.mkGetResponse (Some status) None None))) 0
       | Some t =>
           match find (fun p => String.eqb (fst p) t) pages with
           | Some p => mkReply (Returned (snd p)) 0
           | None => mkReply (Failed "InvalidParameterException") 0
           end
       end)
    (fun _ _ => 0%N)
    (fun _ _ => "3f2b").

(** The job of the specification's example: [SUCCEEDED] at the second poll,
    two pages of one line each. *)
Definition two_page_job : Textract.Services :=
  scripted ["IN_PROGRESS"; "SUCCEEDED"] "SUCCEEDED"
    (fun r => Textract.mkGetResponse (Textract.JobStatus r) (Some "page-2")
                (Some [line "Page1Line"]))
    [("page-2", Textract.mkGetResponse (Some "SUCCEEDED") None (Some [line "Page2Line"]))]
    false [].

(** A job that never leaves [IN_PROGRESS]. *)
Definition stuck_job : Textract.Services :=
  scripted [] "IN_PROGRESS" (fun r => r) [] false [].

(** A job that fails at the first poll; the deletion fails too. *)
Definition failed_job : Textract.Services :=
  scripted [] "FAILED" (fun r => r) [] true [].

(** A job whose single page has a line without characters in the middle. *)
Definition blank_line_job : Textract.Services :=
  scripted [] "SUCCEEDED"
    (fun r => Textract.mkGetResponse (Textract.JobStatus r) None
                (Some [line "a"; line EmptyString; line "b"]))
    [] false [].

(** A succeeded job whose continuation token comes back for ever. *)
Definition looping_job : Textract.Services :=
  scripted [] "SUCCEEDED"
    (fun r => Textract.mkGetResponse (Textract.JobStatus r) (Some "again") None)
    [("again", Textract.mkGetResponse None (Some "again") None)] false [].

Definition start_state : Textract.State := Textract.mkState 1700000000000 [] [] None.

Definition pdf_file : InputFile := mkInputFile payload "application/pdf".

(** The host of the OCR examples. *)
Definition ocr_host (tolerant : bool) (mime : string) (timeout : Z) (records : nat) : Host :=
  base64_host (Some good_credentials) tolerant mime timeout records.

(** What [Textract.configure] reads from [ocr_host]. *)
Definition ocr_config (timeout : Z) : Textract.Config :=
  Textract.mkConfig "scratch-bucket" "tmp" timeout (Some "eu-west-1").

(** What [Bedrock.configure] reads from [base64_host]. *)
Definition bedrock_config (creds : Credentials) : Bedrock.Config :=
  Bedrock.mkConfig "eu-west-1" "anthropic.claude-3" 4096 (QArith_base.Qmake 7 10)
    (accessKeyId creds) (secretAccessKey creds).

Definition reply_with (s : string) : Bedrock.ConverseResponse :=
  Bedrock.mkConverseResponse
    (Some (Bedrock.mkConverseOutput
             (Some (Bedrock.mkReplyMessage (Some [Bedrock.mkReplyBlock (Some s)])))))
    (Some (Bedrock.mkUsage (Some 12) (Some 4) (Some 16)))
    (Some "end_turn").

Definition red_circle : Bedrock.Services :=
  Bedrock.mkServices (fun _ _ _ => mkReply (Returned (reply_with "A red circle")) 0).

Definition bedrock_start : Bedrock.State := Bedrock.mkState 1700000000000 [] [].

End Fixtures.

(* ================================================================== *)
(** ** The specification's notions for the OCR job driver *)

Module TextractSpec.

Import Textract.

(** The text of the specification (section 4.1, step 6): the blocks whose
    type is LINE, each with its primary text, or with the detected text when
    the primary is absent, joined by newlines. *)
Definition claimed_line_text (b : Block) : string :=
  match Text b with
  | Some s => s
  | None => match DetectedText b with Some s => s | None => EmptyString end
  end.

Definition claimed_is_line (b : Block) : bool :=
  match BlockType b with
  | Some bt => String.eqb bt "LINE"
  | None => false
  end.

Definition claimed_text (blocks : list Block) : string :=
  join LF (map claimed_line_text (filter claimed_is_line blocks)).

(** The same with the blocks that have no characters left out. *)
Definition nonempty_lines_text (blocks : list Block) : string :=
  join LF (map claimed_line_text
             (filter (fun b => claimed_is_line b && truthy (claimed_line_text b)) blocks)).

(** What [k] rounds of polling send: a 3000 ms timer, then a status fetch. *)
Fixpoint poll_trace (jobId : string) (k : nat) : list Event :=
  match k with
  | O => []
  | S k' => SetTimeout 3000 :: GetDocumentTextDetection jobId None :: poll_trace jobId k'
  end.

(** The state after the timer of a polling round. *)
Definition after_sleep (sv : Services) (st : State) : State :=
  record_call (SetTimeout 3000) (Z.to_N 3000 + timer_lag sv (now st) (log st)) st.

(** The reply to the status fetch sent in state [st]. *)
Definition status_reply (sv : Services) (jobId : string) (st : State) : Reply GetResponse :=
  textract_get sv (now st) (log st) jobId None.

Definition after_status (sv : Services) (jobId : string) (st : State) : State :=
  record_call (GetDocumentTextDetection jobId None) (took (status_reply sv jobId st)) st.

(** Polling as the specification tells it (section 4.1, step 3): sleep,
    fetch, and again, until a terminal status or until the clock has
    reached the deadline.  [polls sv jobId timeoutAt st obs err st'] holds
    when polling from [st] observes the responses [obs], in this order,
    and ends in [st'], either normally ([err = None]) or because a fetch
    threw [e] ([err = Some e]). *)
Inductive polls (sv : Services) (jobId : string) (timeoutAt : Z)
  : State -> list GetResponse -> option string -> State -> Prop :=
| polls_deadline : forall st,
    timeoutAt <= now st ->
    polls sv jobId timeoutAt st [] None st
| polls_thrown : forall st e,
    now st < timeoutAt ->
    outcome (status_reply sv jobId (after_sleep sv st)) = Failed e ->
    polls sv jobId timeoutAt st [] (Some e) (after_status sv jobId (after_sleep sv st))
| polls_terminal : forall st resp,
    now st < timeoutAt ->
    outcome (status_reply sv jobId (after_sleep sv st)) = Returned resp ->
    is_terminal (JobStatus resp) = true ->
    polls sv jobId timeoutAt st [resp] None (after_status sv jobId (after_sleep sv st))
| polls_again : forall st resp obs err st',
    now st < timeoutAt ->
    outcome (status_reply sv jobId (after_sleep sv st)) = Returned resp ->
    is_terminal (JobStatus resp) = false ->
    polls sv jobId timeoutAt (after_status sv jobId (after_sleep sv st)) obs err st' ->
    polls sv jobId timeoutAt st (resp :: obs) err st'.

(** The last response observed, if any, and its status. *)
Definition last_response (obs : list GetResponse) : option GetResponse :=
  match obs with
  | [] => None
  | r :: rest => Some (last rest r)
  end.

Definition last_status (obs : list GetResponse) : option string :=
  match last_response obs with
  | Some r => JobStatus r
  | None => None
  end.

(** The number of status fetches of a polling run. *)
Definition status_calls (obs : list GetResponse) (err : option string) : nat :=
  match err with
  | None => List.length obs
  | Some _ => S (List.length obs)
  end.

(** What the loop leaves in [jobStatus] and [getResp]. *)
Definition poll_result (obs : list GetResponse) (err : option string)
  : Res (option string * option GetResponse) :=
  match err with
  | None => Ok (last_status obs, last_response obs)
  | Some e => Throw e
  end.

(** The result pages that following the continuation token [tok] from
    state [st] fetches, in the order of the fetches. *)
Inductive pages_from (sv : Services) (jobId : string)
  : option string -> State -> list GetResponse -> State -> Prop :=
| pages_done : forall tok st,
    truthy_opt tok = false ->
    pages_from sv jobId tok st [] st
| pages_next : forall t st page rest st',
    truthy t = true ->
    outcome (textract_get sv (now st) (log st) jobId (Some t)) = Returned page ->
    pages_from sv jobId (NextToken page)
      (record_call (GetDocumentTextDetection jobId (Some t))
                   (took (textract_get sv (now st) (log st) jobId (Some t))) st)
      rest st' ->
    pages_from sv jobId (Some t) st (page :: rest) st'.

(** All the blocks of a first response and of the pages that follow it. *)
Definition all_blocks (first : GetResponse) (pages : list GetResponse) : list Block :=
  nullish (Blocks first) [] ++ flat_map (fun p => nullish (Blocks p) []) pages.

Definition is_s3_call (e : Event) : bool :=
  match e with
  | PutObject _ _ _ _ => true
  | DeleteObject _ _ => true
  | _ => false
  end.

Definition is_warning (o : Output) : bool :=
  match o with OutWarning _ => true | _ => false end.

(** The message of the error raised after the polling loop. *)
Definition incomplete_message (jobStatus : option string) : string :=
  "Textract job did not complete successfully: " ++ template_opt jobStatus.

(** A step from [st] to [st'] that only adds calls other than those to
    object storage, and leaves the output and the remembered key alone. *)
Definition quiet (st st' : State) : Prop :=
  exists d, log st' = (log st ++ d)%list /\
            forallb (fun e => negb (is_s3_call e)) d = true /\
            returnData st' = returnData st /\
            uploadedKey st' = uploadedKey st.

(** The object key made in state [st]. *)
Definition object_key (sv : Services) (cfg : Config) (st : State) : string :=
  (s3Prefix cfg
   ++ (if truthy (s3Prefix cfg) && negb (endsWith (s3Prefix cfg) "/") then "/" else EmptyString)
   ++ string_of_Z (now st) ++ "-" ++ randomUUID sv (now st) (log st) ++ ".pdf")%string.

End TextractSpec.

(* ================================================================== *)
(** ** The specification's notions for the model invocation *)

Module BedrockSpec.

Import Bedrock.

(** The text of the first content block of the reply, the empty string
    when there is none (specification, section 4.3). *)
Definition claimed_first_text (r : ConverseResponse) : string :=
  match output r with
  | Some o =>
      match message o with
      | Some m =>
          match replyContent m with
          | Some (b :: _) => match text b with Some s => s | None => EmptyString end
          | _ => EmptyString
          end
      | None => EmptyString
      end
  | None => EmptyString
  end.

(** [s] has no occurrence of the character [c]. *)
Fixpoint free_of (c : ascii) (s : string) : bool :=
  match s with
  | EmptyString => true
  | String a rest => negb (Ascii.eqb a c) && free_of c rest
  end.

(** The part of the message that carries the file. *)
Definition file_parts (f : InputFile) : list ContentBlock :=
  if startsWith (fileType f) "image/" then
    [ImagePart (nth_error (split (fileType f) "/") 1) (fileBuffer f)]
  else if String.eqb (fileType f) "application/pdf" then
    [DocumentPart "pdf" "document" (fileBuffer f)]
  else [].

(** The one request of a record. *)
Definition request (cfg : Config) (msg : string) (f : InputFile) : ConverseCommand :=
  mkConverseCommand (cfgModelId cfg)
    [mkMessage "user" (TextPart msg :: file_parts f)]
    (mkInferenceConfig (cfgMaxTokens cfg) (cfgTemperature cfg) (QArith_base.Qmake 9 10)).

(** The state after the request. *)
Definition after_request (sv : Services) (cmd : ConverseCommand) (st : State) : State :=
  mkState (now st + Z.of_N (took (bedrock_converse sv (now st) (log st) cmd)))
          (log st ++ [Converse cmd]) (returnData st).

Definition carries_bytes (c : ContentBlock) : bool :=
  match c with
  | TextPart _ => false
  | ImagePart _ _ => true
  | DocumentPart _ _ _ => true
  end.

End BedrockSpec.

(* ================================================================== *)
(** ** Further notions: traces, keys, more collaborators *)

Module Scenarios.

Import Textract.

(** The tokens of the page fetches that start from [tok] and receive
    [pages]: [tok] itself, then the token of each page but the last. *)
Fixpoint page_tokens (tok : option string) (pages : list GetResponse) : list string :=
  match pages with
  | [] => []
  | p :: rest => nullish tok EmptyString :: page_tokens (NextToken p) rest
  end.

(** The outputs of a list that are not warnings. *)
Definition records_of (outs : list Output) : list Output :=
  filter (fun o => negb (TextractSpec.is_warning o)) outs.

(** The warning of the [finally] block. *)
Definition deletion_warning (key e : string) : Output :=
  OutWarning ("Failed to delete S3 object " ++ key ++ ": " ++ e).

(** What one record leaves in the output: a text or an error, and after
    it at most the warning of a failed deletion. *)
Definition record_group (g : list Output) : Prop :=
  exists o, TextractSpec.is_warning o = false /\
    (g = [o] \/ exists key e, g = [o; deletion_warning key e]).

(** The records from index [i] on, run one after the other from state
    [st], each going on to the next: the [k]-th list of [groups] is what
    record [i + k] has appended to the output, and [st'] is the state the
    last one leaves. *)
Inductive in_turn (fuel : nat) (h : Host) (sv : Services) (cfg : Config)
  : nat -> State -> list (list Output) -> State -> Prop :=
| in_turn_end : forall i st, in_turn fuel h sv cfg i st [] st
| in_turn_next : forall i st st1 g groups st',
    process_item fuel h sv cfg i st = (Ok tt, st1) ->
    returnData st1 = (returnData st ++ g)%list ->
    in_turn fuel h sv cfg (S i) st1 groups st' ->
    in_turn fuel h sv cfg i st (g :: groups) st'.

Definition is_text (o : Output) : bool :=
  match o with OutText _ => true | _ => false end.

(** From [st] to [st'] the history and the output have only been added to
    and the clock has not gone back. *)
Definition grows (st st' : State) : Prop :=
  (exists d, log st' = (log st ++ d)%list) /\
  (exists new, returnData st' = (returnData st ++ new)%list) /\
  now st <= now st'.

(** A piece of [execute] that, however it ends, leaves a state grown from
    the one it started in. *)
Definition growing {A : Type} (m : M State A) : Prop :=
  forall st, grows st (snd (m st)).

(** The output records of the model-invocation node that are replies. *)
Definition is_response (o : Bedrock.Output) : bool :=
  match o with Bedrock.OutResponse _ _ _ => true | Bedrock.OutError _ => false end.

(** Collaborators that answer at once and as [Fixtures.two_page_job] does,
    but for the upload, the job start and the status fetch, which answer
    as given. *)
Definition faulty (put : Outcome unit) (start : Outcome StartResponse)
    (status : Outcome GetResponse) : Services :=
  mkServices
    (fun _ _ _ _ _ _ => mkReply put 0)
    (fun _ _ _ _ => mkReply (Returned tt) 0)
    (fun _ _ _ => mkReply (Returned (mkDetectResponse None)) 0)
    (fun _ _ _ _ => mkReply start 0)
    (fun _ _ _ _ => mkReply status 0)
    (fun _ _ => 0%N)
    (fun _ _ => "3f2b").

(** A host like [Fixtures.base64_host] whose binary data is missing and
    whose file source is [binary]. *)
Definition no_binary_host (tolerant : bool) : Host :=
  mkHost 1 (Returned (Some Fixtures.good_credentials))
    (fun name _ =>
       if String.eqb name "fileSource" then Returned "binary"
       else if String.eqb name "binaryProperty" then Returned "data"
       else if String.eqb name "message" then Returned "describe this image"
       else Failed ("Could not get parameter " ++ name))
    (fun name _ => Failed ("Could not get parameter " ++ name))
    (fun name _ => Failed ("Could not get parameter " ++ name))
    (fun _ _ => Failed "This operation expects the node's input data to contain a binary file 'data', but none was found")
    (fun _ _ => Failed "This operation expects the node's input data to contain a binary file 'data', but none was found")
    tolerant
    (fun _ => []).

(** A host with a key pair, whose credentials have [rgn] for a region, whose
    bucket parameter is [bucket], and whose node has no [region]
    parameter. *)
Definition bucket_host (rgn : option string) (bucket : string) : Host :=
  mkHost 1
    (Returned (Some (mkCredentials (Some "AKIAEXAMPLE") (Some "secret") rgn)))
    (fun name _ =>
       if String.eqb name "s3Bucket" then Returned bucket
       else if String.eqb name "s3Prefix" then Returned "tmp"
       else Failed ("Could not get parameter " ++ name))
    (fun name _ =>
       if String.eqb name "timeoutSeconds" then Returned 120
       else Failed ("Could not get parameter " ++ name))
    (fun name _ => Failed ("Could not get parameter " ++ name))
    (fun _ _ => Failed "no binary data")
    (fun _ _ => Failed "no binary data")
    false
    (fun _ => []).

(** A model that answers the first request of a run, and whose connection
    times out at every later one. *)
Definition times_out_after_one : Bedrock.Services :=
  Bedrock.mkServices
    (fun _ l _ =>
       match l with
       | [] => mkReply (Returned (Fixtures.reply_with "A red circle")) 0
       | _ :: _ => mkReply (Failed "connect ETIMEDOUT 10.0.0.1:443") 0
       end).

End Scenarios.

(* ================================================================== *)
(** ** Properties of the messages *)

Module MessageProps.

(** A message that includes no code of the table is kept. *)
Lemma descriptive_kept (m : string) : common_error m = None -> descriptive m = m.
Proof. intros H. unfold descriptive. now rewrite H. Qed.

(** The texts of the table include no code of the table. *)
Lemma texts_are_kept :
  forallb (fun entry => String.eqb (descriptive (snd entry)) (snd entry)) COMMON_ERRORS
  = true.
Proof. vm_compute. reflexivity. Qed.

(** A message made descriptive is kept from then on. *)
Lemma descriptive_idempotent (m : string) : descriptive (descriptive m) = descriptive m.
Proof.
  unfold descriptive at 2 3. destruct (common_error m) as [entry|] eqn:Hc.
  - unfold common_error in Hc. apply find_some in Hc. destruct Hc as [Hin _].
    pose proof texts_are_kept as Hall. rewrite forallb_forall in Hall.
    apply String.eqb_eq. exact (Hall _ Hin).
  - now apply descriptive_kept.
Qed.

End MessageProps.

(* ================================================================== *)
(** ** Properties of the OCR node *)

Module TextractProps.

Import Textract TextractSpec Fixtures.

(** *** The extraction of the lines *)

Lemma block_txt_claimed (b : Block) : block_txt b = claimed_line_text b.
Proof. unfold block_txt, claimed_line_text, nullish. now destruct (Text b), (DetectedText b). Qed.

Lemma is_line_claimed (b : Block) :
  is_line b = claimed_is_line b && truthy (claimed_line_text b).
Proof.
  unfold is_line, claimed_is_line. rewrite block_txt_claimed.
  now destruct (BlockType b).
Qed.

Lemma collect_lines_filter (blocks : list Block) :
  forall lines,
    collect_lines blocks lines = (lines ++ map block_txt (filter is_line blocks))%list.
Proof.
  induction blocks as [|b rest IH]; intros lines; simpl.
  - now rewrite app_nil_r.
  - destruct (is_line b); simpl.
    + rewrite IH, <- app_assoc. reflexivity.
    + apply IH.
Qed.

Lemma extract_text_nonempty_lines (blocks : list Block) :
  extract_text blocks = nonempty_lines_text blocks.
Proof.
  unfold extract_text, nonempty_lines_text. rewrite collect_lines_filter. simpl.
  f_equal. rewrite (map_ext _ _ block_txt_claimed).
  f_equal. apply filter_ext. exact is_line_claimed.
Qed.

(** *** The polling loop *)

Lemma poll_loop_step (n : nat) sv jobId timeoutAt js gr st :
  poll_loop (S n) sv jobId timeoutAt js gr st =
  if now st <? timeoutAt then
    match outcome (status_reply sv jobId (after_sleep sv st)) with
    | Returned resp =>
        if is_terminal (JobStatus resp)
        then (Ok (JobStatus resp, Some resp), after_status sv jobId (after_sleep sv st))
        else poll_loop n sv jobId timeoutAt (JobStatus resp) (Some resp)
               (after_status sv jobId (after_sleep sv st))
    | Failed e => (Throw e, after_status sv jobId (after_sleep sv st))
    end
  else (Ok (js, gr), st).
Proof.
  simpl. destruct (now st <? timeoutAt); [|reflexivity].
  unfold bind, sleep, send. fold (after_sleep sv st).
  fold (status_reply sv jobId (after_sleep sv st)).
  fold (after_status sv jobId (after_sleep sv st)).
  destruct (outcome (status_reply sv jobId (after_sleep sv st))) as [resp|e]; [|reflexivity].
  destruct (is_terminal (JobStatus resp)); reflexivity.
Qed.

Lemma now_after_sleep sv st : now st + 3000 <= now (after_sleep sv st).
Proof. unfold after_sleep, record_call; cbn [now]. lia. Qed.

Lemma now_after_status sv jobId st : now st <= now (after_status sv jobId st).
Proof. unfold after_status, record_call; cbn [now]. lia. Qed.

Lemma now_after_round sv jobId st :
  now st + 3000 <= now (after_status sv jobId (after_sleep sv st)).
Proof.
  pose proof (now_after_sleep sv st).
  pose proof (now_after_status sv jobId (after_sleep sv st)). lia.
Qed.

Lemma poll_bound_pos timeoutAt t : t < timeoutAt -> (0 < poll_bound timeoutAt t)%nat.
Proof.
  intros H. unfold poll_bound.
  assert (1 <= (timeoutAt - t + 2999) / 3000) by (apply Z.div_le_lower_bound; lia).
  lia.
Qed.

Lemma poll_bound_round timeoutAt t t' :
  t < timeoutAt -> t + 3000 <= t' ->
  (S (poll_bound timeoutAt t') <= poll_bound timeoutAt t)%nat.
Proof.
  intros H H'. unfold poll_bound.
  assert (Hq : (timeoutAt - t' + 2999) / 3000 + 1 <= (timeoutAt - t + 2999) / 3000).
  { replace ((timeoutAt - t' + 2999) / 3000 + 1)
      with ((timeoutAt - t' + 2999 + 1 * 3000) / 3000)
      by (rewrite Z.div_add by lia; reflexivity).
    apply Z.div_le_mono; lia. }
  assert (1 <= (timeoutAt - t + 2999) / 3000) by (apply Z.div_le_lower_bound; lia).
  lia.
Qed.

Lemma last_cons {A : Type} (rest : list A) :
  forall r d, last (r :: rest) d = last rest r.
Proof.
  induction rest as [|x rest IH]; intros r d; [reflexivity|].
  change (last (r :: x :: rest) d) with (last (x :: rest) d).
  rewrite (IH x d), (IH x r). reflexivity.
Qed.

(** What the loop returns when it observes [obs] from variables [js], [gr]. *)
Lemma polls_poll_loop sv jobId timeoutAt st obs err st' :
  polls sv jobId timeoutAt st obs err st' ->
  forall n js gr,
    (poll_bound timeoutAt (now st) <= n)%nat ->
    poll_loop n sv jobId timeoutAt js gr st =
    (match err, obs with
     | Some e, _ => Throw e
     | None, [] => Ok (js, gr)
     | None, _ :: _ => Ok (last_status obs, last_response obs)
     end, st').
Proof.
  induction 1 as [st Hd|st e Hd Ho|st resp Hd Ho Ht|st resp obs err st' Hd Ho Ht Hp IH];
    intros n js gr Hn.
  - destruct n; simpl; apply Z.ltb_ge in Hd; rewrite Hd; reflexivity.
  - pose proof (poll_bound_pos Hd). destruct n; [lia|].
    rewrite poll_loop_step. apply Z.ltb_lt in Hd. rewrite Hd, Ho. reflexivity.
  - pose proof (poll_bound_pos Hd). destruct n; [lia|].
    rewrite poll_loop_step. apply Z.ltb_lt in Hd. rewrite Hd, Ho, Ht. reflexivity.
  - pose proof (poll_bound_round Hd (now_after_round sv jobId st)).
    destruct n; [lia|].
    rewrite poll_loop_step. pose proof Hd as Hd'. apply Z.ltb_lt in Hd'.
    rewrite Hd', Ho, Ht.
    rewrite (IH n (JobStatus resp) (Some resp)) by lia.
    f_equal. destruct err; [reflexivity|].
    destruct obs as [|r rest]; [reflexivity|].
    unfold last_status, last_response. rewrite last_cons. reflexivity.
Qed.

(** The loop of the code computes the polling of the specification. *)
Lemma polls_poll sv jobId timeoutAt st obs err st' :
  polls sv jobId timeoutAt st obs err st' ->
  poll sv jobId timeoutAt st = (poll_result obs err, st').
Proof.
  intros H. unfold poll. rewrite (polls_poll_loop H) by lia.
  unfold poll_result. destruct err; [reflexivity|]. now destruct obs.
Qed.

(** Polling always ends: the clock sees to it. *)
Lemma polls_total sv jobId timeoutAt :
  forall n st, (poll_bound timeoutAt (now st) <= n)%nat ->
    exists obs err st', polls sv jobId timeoutAt st obs err st'.
Proof.
  induction n as [|n IH]; intros st Hn.
  - destruct (Z_lt_le_dec (now st) timeoutAt) as [Hd|Hd].
    + pose proof (poll_bound_pos Hd). lia.
    + exists [], None, st. now constructor.
  - destruct (Z_lt_le_dec (now st) timeoutAt) as [Hd|Hd].
    + destruct (outcome (status_reply sv jobId (after_sleep sv st))) as [resp|e] eqn:Ho.
      * destruct (is_terminal (JobStatus resp)) eqn:Ht.
        -- exists [resp], None, (after_status sv jobId (after_sleep sv st)).
           now apply polls_terminal.
        -- pose proof (poll_bound_round Hd (now_after_round sv jobId st)).
           destruct (IH (after_status sv jobId (after_sleep sv st))) as (obs & err & st' & Hp);
             [lia|].
           exists (resp :: obs), err, st'. now apply polls_again.
      * exists [], (Some e), (after_status sv jobId (after_sleep sv st)).
        now apply polls_thrown.
    + exists [], None, st. now constructor.
Qed.

(** What polling leaves behind: the trace, the clock, the other fields. *)
Lemma polls_log sv jobId timeoutAt st obs err st' :
  polls sv jobId timeoutAt st obs err st' ->
  log st' = (log st ++ poll_trace jobId (status_calls obs err))%list /\
  returnData st' = returnData st /\ uploadedKey st' = uploadedKey st.
Proof.
  induction 1 as [st Hd|st e Hd Ho|st resp Hd Ho Ht|st resp obs err st' Hd Ho Ht Hp IH];
    simpl.
  - now rewrite app_nil_r.
  - now rewrite <- app_assoc.
  - now rewrite <- app_assoc.
  - destruct IH as (Hl & Hr & Hu). rewrite Hl, Hr, Hu. simpl.
    repeat split. rewrite <- !app_assoc. simpl.
    destruct err; reflexivity.
Qed.

(** Every fetch but the last one observed a status that is not terminal,
    and a normal end has seen a terminal status or the deadline. *)
Lemma polls_exit sv jobId timeoutAt st obs err st' :
  polls sv jobId timeoutAt st obs err st' ->
  Forall (fun r => is_terminal (JobStatus r) = false) (removelast obs) /\
  (err = None -> is_terminal (last_status obs) = true \/ timeoutAt <= now st') /\
  (err <> None -> Forall (fun r => is_terminal (JobStatus r) = false) obs).
Proof.
  induction 1 as [st Hd|st e Hd Ho|st resp Hd Ho Ht|st resp obs err st' Hd Ho Ht Hp IH].
  - simpl. repeat split; auto.
  - simpl. repeat split; auto. discriminate.
  - simpl. repeat split; auto. congruence.
  - destruct IH as (Hall & Hend & Herr). repeat split.
    + destruct obs as [|r rest]; [constructor|].
      change (removelast (resp :: r :: rest)) with (resp :: removelast (r :: rest)).
      now constructor.
    + intros He. destruct (Hend He) as [Hterm|Hdl]; [|now right].
      destruct obs as [|r rest].
      * discriminate Hterm.
      * left. unfold last_status, last_response in *. now rewrite last_cons.
    + intros He. constructor; auto.
Qed.

(** The rounds of polling: each one starts before the deadline and takes
    3000 ms at least. *)
Lemma polls_rounds sv jobId timeoutAt st obs err st' :
  polls sv jobId timeoutAt st obs err st' ->
  now st <= now st' /\
  (status_calls obs err = O -> st' = st) /\
  (status_calls obs err <> O ->
     now st + 3000 * (Z.of_nat (status_calls obs err) - 1) < timeoutAt).
Proof.
  induction 1 as [st Hd|st e Hd Ho|st resp Hd Ho Ht|st resp obs err st' Hd Ho Ht Hp IH].
  - simpl. split; [lia|]. split; [reflexivity|]. intros; congruence.
  - pose proof (now_after_round sv jobId st).
    cbn [status_calls List.length]. split; [lia|]. split; [discriminate|]. intros _. lia.
  - pose proof (now_after_round sv jobId st).
    cbn [status_calls List.length]. split; [lia|]. split; [discriminate|]. intros _. lia.
  - pose proof (now_after_round sv jobId st).
    destruct IH as (Hle & Hzero & Hpos).
    assert (Hc : status_calls (resp :: obs) err = S (status_calls obs err))
      by (destruct err; reflexivity).
    rewrite Hc. split; [lia|]. split; [discriminate|]. intros _.
    destruct (status_calls obs err) as [|k] eqn:Hk; [lia|].
    specialize (Hpos ltac:(discriminate)). lia.
Qed.

(** The clock at the end of polling, when a timer fires at most [La] ms
    late and a status fetch takes at most [Lb] ms. *)
Lemma polls_clock sv jobId timeoutAt st obs err st' (La Lb : Z) :
  (forall t l, Z.of_N (timer_lag sv t l) <= La) ->
  (forall t l, Z.of_N (took (textract_get sv t l jobId None)) <= Lb) ->
  polls sv jobId timeoutAt st obs err st' ->
  status_calls obs err <> O ->
  now st' < timeoutAt + 3000 + La + Lb.
Proof.
  intros HLa HLb.
  assert (Hround : forall s, now (after_status sv jobId (after_sleep sv s))
                             <= now s + 3000 + La + Lb).
  { intros s. unfold after_status, status_reply, after_sleep, record_call. cbn [now log].
    specialize (HLa (now s) (log s)).
    match goal with |- context [took (textract_get sv ?t ?l jobId None)] =>
      specialize (HLb t l) end. lia. }
  induction 1 as [st Hd|st e Hd Ho|st resp Hd Ho Ht|st resp obs err st' Hd Ho Ht Hp IH];
    intros Hnz.
  - now elim Hnz.
  - pose proof (Hround st). lia.
  - pose proof (Hround st). lia.
  - destruct (status_calls obs err) as [|k] eqn:Hk.
    + destruct (polls_rounds Hp) as (_ & Hzero & _). rewrite Hk in Hzero.
      rewrite (Hzero eq_refl). pose proof (Hround st). lia.
    + apply IH. discriminate.
Qed.

(** *** The result pages *)

Lemma pages_from_collect sv jobId tok st pages st' :
  pages_from sv jobId tok st pages st' ->
  forall fuel acc, (List.length pages <= fuel)%nat ->
    collect_pages fuel sv jobId tok acc st =
    (Ok (acc ++ flat_map (fun p => nullish (Blocks p) []) pages)%list, st').
Proof.
  induction 1 as [tok st Htok|t st page rest st' Ht Ho Hp IH]; intros fuel acc Hf.
  - simpl. rewrite app_nil_r.
    destruct tok as [t|]; [|now destruct fuel].
    simpl in Htok. destruct fuel; simpl; rewrite Htok; reflexivity.
  - simpl in Hf. destruct fuel as [|fuel]; [lia|].
    simpl. rewrite Ht. unfold bind, send. rewrite Ho.
    rewrite IH by lia. simpl. now rewrite <- app_assoc.
Qed.

(** *** Steps that leave object storage and the output alone *)

Lemma quiet_refl st : quiet st st.
Proof. exists []. now rewrite app_nil_r. Qed.

Lemma quiet_trans st1 st2 st3 : quiet st1 st2 -> quiet st2 st3 -> quiet st1 st3.
Proof.
  intros (d1 & Hl1 & Hq1 & Hr1 & Hu1) (d2 & Hl2 & Hq2 & Hr2 & Hu2).
  exists (d1 ++ d2)%list. rewrite Hl2, Hl1, <- app_assoc, forallb_app, Hq1, Hq2.
  repeat split; congruence.
Qed.

Lemma quiet_record_call cmd ms st :
  is_s3_call cmd = false -> quiet st (record_call cmd ms st).
Proof. intros H. exists [cmd]. simpl. now rewrite H. Qed.

Lemma quiet_send {A : Type} cmd (oracle : Z -> list Event -> Reply A) st r st' :
  is_s3_call cmd = false -> send cmd oracle st = (r, st') -> quiet st st'.
Proof.
  intros Hc H. unfold send in H.
  destruct (outcome (oracle (now st) (log st))); inversion H; subst;
    now apply quiet_record_call.
Qed.

Lemma quiet_polls sv jobId timeoutAt st obs err st' :
  polls sv jobId timeoutAt st obs err st' -> quiet st st'.
Proof.
  intros H. destruct (polls_log H) as (Hl & Hr & Hu).
  exists (poll_trace jobId (status_calls obs err)). repeat split; auto.
  clear. induction (status_calls obs err); simpl; auto.
Qed.

Lemma quiet_poll sv jobId timeoutAt st r st' :
  poll sv jobId timeoutAt st = (r, st') -> quiet st st'.
Proof.
  intros H. destruct (@polls_total sv jobId timeoutAt _ st (le_n _))
    as (obs & err & st2 & Hp).
  rewrite (polls_poll Hp) in H. inversion H; subst. eapply quiet_polls; eauto.
Qed.

Lemma quiet_collect_pages sv jobId :
  forall fuel tok acc st r st',
    collect_pages fuel sv jobId tok acc st = (r, st') -> quiet st st'.
Proof.
  induction fuel as [|fuel IH]; intros tok acc st r st' H; simpl in H.
  - destruct tok as [t|]; [destruct (truthy t)|]; inversion H; subst; apply quiet_refl.
  - destruct tok as [t|]; [destruct (truthy t)|];
      try (inversion H; subst; apply quiet_refl).
    unfold bind in H.
    destruct (send (GetDocumentTextDetection jobId (Some t))
                   (fun t0 l => textract_get sv t0 l jobId (Some t)) st)
      as [[page|e|] st1] eqn:Hs.
    + eapply quiet_trans; [eapply quiet_send; [|exact Hs]; reflexivity|].
      eapply IH; eauto.
    + inversion H; subst. eapply quiet_send; [|exact Hs]; reflexivity.
    + inversion H; subst. eapply quiet_send; [|exact Hs]; reflexivity.
Qed.

Lemma quiet_finish_job fuel sv jobId polled st r st' :
  finish_job fuel sv jobId polled st = (r, st') -> quiet st st'.
Proof.
  destruct polled as [js gr]. unfold finish_job. intros H.
  destruct (negb (succeeded js)); [inversion H; subst; apply quiet_refl|].
  destruct gr as [resp|]; [|inversion H; subst; apply quiet_refl].
  unfold bind in H.
  destruct (collect_pages fuel sv jobId (NextToken resp) (nullish (Blocks resp) []) st)
    as [[bs|e|] st1] eqn:Hc; inversion H; subst; eapply quiet_collect_pages; eauto.
Qed.

(** A job that has not succeeded needs no page budget. *)
Lemma finish_job_incomplete fuel sv jobId js gr st :
  succeeded js = false ->
  finish_job fuel sv jobId (js, gr) st = (Throw (descriptive (incomplete_message js)), st).
Proof. intros H. unfold finish_job. now rewrite H. Qed.

Lemma finish_job_diverge fuel sv jobId js gr st st' :
  finish_job fuel sv jobId (js, gr) st = (Diverge, st') ->
  js = Some "SUCCEEDED" /\
  exists resp, gr = Some resp /\
    fst (collect_pages fuel sv jobId (NextToken resp) (nullish (Blocks resp) []) st) = Diverge.
Proof.
  unfold finish_job. intros H.
  destruct (succeeded js) eqn:Hs; simpl in H; [|discriminate].
  split.
  - destruct js as [s|]; [|discriminate]. simpl in Hs.
    apply String.eqb_eq in Hs. now subst.
  - destruct gr as [resp|]; [|discriminate]. exists resp. split; [reflexivity|].
    unfold bind in H.
    destruct (collect_pages fuel sv jobId (NextToken resp) (nullish (Blocks resp) []) st)
      as [[bs|e|] st1]; simpl; try discriminate. reflexivity.
Qed.

(** *** The PDF branch, phase by phase *)

Lemma truthy_append a b : truthy b = true -> truthy (a ++ b) = true.
Proof. destruct a; simpl; auto. Qed.

Lemma object_key_truthy sv cfg st : truthy (object_key sv cfg st) = true.
Proof. unfold object_key. repeat apply truthy_append. reflexivity. Qed.

(** The upload is the first call, the key is remembered before it. *)
Lemma upload_and_start_shape sv cfg f st r st1 :
  upload_and_start sv cfg f st = (r, st1) ->
  r <> Diverge /\
  uploadedKey st1 = Some (object_key sv cfg st) /\
  returnData st1 = returnData st /\
  exists d,
    log st1 = (log st ++ PutObject (s3Bucket cfg) (object_key sv cfg st)
                                   (fileBuffer f) (fileType f) :: d)%list /\
    forallb (fun e => negb (is_s3_call e)) d = true.
Proof.
  unfold upload_and_start, bind, make_key. fold (object_key sv cfg st).
  unfold send. cbn [now log set_uploadedKey].
  set (key := object_key sv cfg st).
  destruct (outcome (s3_put sv (now st) (log st) (s3Bucket cfg) key (fileBuffer f) (fileType f)))
    as [[]|e].
  - cbn [now log record_call].
    match goal with |- context [outcome ?x] => destruct (outcome x) as [sr|e] end.
    + destruct (JobId sr) as [j|]; [destruct (truthy j)|];
        intros H; inversion H; subst; cbn;
        (split; [discriminate|]); repeat split;
        eexists; rewrite <- app_assoc; simpl; split; reflexivity.
    + intros H; inversion H; subst; cbn.
      (split; [discriminate|]); repeat split.
      eexists; rewrite <- app_assoc; simpl; split; reflexivity.
  - intros H; inversion H; subst; cbn.
    (split; [discriminate|]); repeat split.
    exists []. split; reflexivity.
Qed.

(** The PDF branch is the composition of its three phases. *)
Lemma pdf_path_phases fuel sv cfg f st :
  pdf_path fuel sv cfg f st =
  match upload_and_start sv cfg f st with
  | (Ok jobId, st1) =>
      match poll sv jobId (now st1 + effective_timeout (timeoutSeconds cfg) * 1000) st1 with
      | (Ok polled, st2) => finish_job fuel sv jobId polled st2
      | (Throw e, st2) => (Throw e, st2)
      | (Diverge, st2) => (Diverge, st2)
      end
  | (Throw e, st1) => (Throw e, st1)
  | (Diverge, st1) => (Diverge, st1)
  end.
Proof.
  unfold pdf_path, bind, date_now.
  destruct (upload_and_start sv cfg f st) as [[jobId|e|] st1]; reflexivity.
Qed.

(** The polling of the code never runs out of rounds. *)
Lemma poll_never_diverges sv jobId timeoutAt st :
  fst (poll sv jobId timeoutAt st) <> Diverge.
Proof.
  destruct (@polls_total sv jobId timeoutAt _ st (le_n _)) as (obs & err & st2 & Hp).
  rewrite (polls_poll Hp). simpl. unfold poll_result. destruct err; discriminate.
Qed.

(** The calls of the PDF branch: one upload, then none to object storage. *)
Lemma pdf_path_shape fuel sv cfg f st r st1 :
  pdf_path fuel sv cfg f st = (r, st1) ->
  uploadedKey st1 = Some (object_key sv cfg st) /\
  returnData st1 = returnData st /\
  exists d,
    log st1 = (log st ++ PutObject (s3Bucket cfg) (object_key sv cfg st)
                                   (fileBuffer f) (fileType f) :: d)%list /\
    forallb (fun e => negb (is_s3_call e)) d = true.
Proof.
  rewrite pdf_path_phases.
  destruct (upload_and_start sv cfg f st) as [r1 st2] eqn:Hu.
  destruct (upload_and_start_shape _ _ _ _ Hu) as (Hnd & Hk & Hr & d & Hl & Hq).
  assert (Hext : forall st3, quiet st2 st3 ->
            uploadedKey st3 = Some (object_key sv cfg st) /\
            returnData st3 = returnData st /\
            exists d',
              log st3 = (log st ++ PutObject (s3Bucket cfg) (object_key sv cfg st)
                                             (fileBuffer f) (fileType f) :: d')%list /\
              forallb (fun e => negb (is_s3_call e)) d' = true).
  { intros st3 (d2 & Hl2 & Hq2 & Hr2 & Hu2). repeat split; try congruence.
    exists (d ++ d2)%list. rewrite Hl2, Hl, <- app_assoc, forallb_app, Hq, Hq2. auto. }
  destruct r1 as [jobId|e|].
  - destruct (poll sv jobId (now st2 + effective_timeout (timeoutSeconds cfg) * 1000) st2)
      as [[polled|e|] st3] eqn:Hp.
    + intros Hf. apply Hext. eapply quiet_trans.
      * eapply quiet_poll; eauto.
      * eapply quiet_finish_job; eauto.
    + intros H; inversion H; subst. apply Hext. eapply quiet_poll; eauto.
    + intros H; inversion H; subst. apply Hext. eapply quiet_poll; eauto.
  - intros H; inversion H; subst. apply Hext, quiet_refl.
  - congruence.
Qed.

(** The PDF branch runs out of budget only in the pagination of a job that
    has succeeded. *)
Lemma pdf_path_diverge fuel sv cfg f st st' :
  pdf_path fuel sv cfg f st = (Diverge, st') ->
  exists jobId st1 resp st2,
    upload_and_start sv cfg f st = (Ok jobId, st1) /\
    poll sv jobId (now st1 + effective_timeout (timeoutSeconds cfg) * 1000) st1
      = (Ok (Some "SUCCEEDED", Some resp), st2) /\
    fst (collect_pages fuel sv jobId (NextToken resp) (nullish (Blocks resp) []) st2)
      = Diverge.
Proof.
  rewrite pdf_path_phases.
  destruct (upload_and_start sv cfg f st) as [r1 st1] eqn:Hu.
  destruct (upload_and_start_shape _ _ _ _ Hu) as (Hnd & _).
  destruct r1 as [jobId|e|]; [|discriminate|congruence].
  pose proof (poll_never_diverges sv jobId
                (now st1 + effective_timeout (timeoutSeconds cfg) * 1000) st1) as Hpd.
  destruct (poll sv jobId (now st1 + effective_timeout (timeoutSeconds cfg) * 1000) st1)
    as [[[js gr]|e|] st2] eqn:Hp; [|discriminate|simpl in Hpd; congruence].
  intros Hf. destruct (finish_job_diverge _ _ _ _ _ _ Hf) as (Hjs & resp & Hgr & Hc).
  subst. exists jobId, st1, resp, st2. auto.
Qed.

(** *** One record *)

Lemma pdf_is_not_image (ty : string) :
  ty = "application/pdf" -> startsWith ty "image/" = false.
Proof. intros ->. reflexivity. Qed.

Lemma try_body_pdf fuel h sv cfg i f st :
  resolve_file h i = Returned f -> fileType f = "application/pdf" ->
  try_body fuel h sv cfg i st =
  match pdf_path fuel sv cfg f st with
  | (Ok extractedText, st1) => (Ok tt, push (OutText extractedText) st1)
  | (Throw e, st1) => (Throw e, st1)
  | (Diverge, st1) => (Diverge, st1)
  end.
Proof.
  intros Hf Hty. unfold try_body, bind, host. rewrite Hf.
  rewrite (pdf_is_not_image Hty), Hty. simpl.
  destruct (pdf_path fuel sv cfg f st) as [[t|e|] st1]; reflexivity.
Qed.

Lemma try_body_image fuel h sv cfg i f st :
  resolve_file h i = Returned f -> startsWith (fileType f) "image/" = true ->
  try_body fuel h sv cfg i st =
  match outcome (textract_detect sv (now st) (log st) (fileBuffer f)) with
  | Returned resp =>
      (Ok tt, push (OutText (extract_text (nullish (detectBlocks resp) [])))
                   (record_call (DetectDocumentText (fileBuffer f))
                      (took (textract_detect sv (now st) (log st) (fileBuffer f))) st))
  | Failed e =>
      (Throw e, record_call (DetectDocumentText (fileBuffer f))
                  (took (textract_detect sv (now st) (log st) (fileBuffer f))) st)
  end.
Proof.
  intros Hf Hty. unfold try_body, bind, host. rewrite Hf, Hty.
  rewrite andb_false_r. unfold image_path, bind, send.
  destruct (outcome (textract_detect sv (now st) (log st) (fileBuffer f))); reflexivity.
Qed.

Lemma try_body_unsupported fuel h sv cfg i f st :
  resolve_file h i = Returned f ->
  fileType f <> "application/pdf" -> startsWith (fileType f) "image/" = false ->
  try_body fuel h sv cfg i st
  = (Throw (descriptive ("Unsupported MIME type: " ++ fileType f)), st).
Proof.
  intros Hf Hpdf Himg. unfold try_body, bind, host. rewrite Hf, Himg.
  apply String.eqb_neq in Hpdf. rewrite Hpdf. reflexivity.
Qed.

(** The [finally] block without an uploaded object does nothing. *)
Lemma cleanup_nothing h sv cfg st : uploadedKey st = None -> cleanup h sv cfg st = st.
Proof. intros H. unfold cleanup. now rewrite H. Qed.

(** The [finally] block with an uploaded object: one deletion, and at worst
    one warning. *)
Lemma cleanup_uploaded h sv cfg st key :
  uploadedKey st = Some key -> truthy key = true ->
  log (cleanup h sv cfg st) = (log st ++ [DeleteObject (s3Bucket cfg) key])%list /\
  exists warn,
    returnData (cleanup h sv cfg st) = (returnData st ++ warn)%list /\
    forallb is_warning warn = true /\
    (outcome (s3_delete sv (now st) (log st) (s3Bucket cfg) key) = Returned tt -> warn = []) /\
    (continueOnFail h = false -> warn = []).
Proof.
  intros Hk Ht. unfold cleanup. rewrite Hk, Ht. unfold send.
  destruct (outcome (s3_delete sv (now st) (log st) (s3Bucket cfg) key)) as [[]|e].
  - split; [reflexivity|]. exists []. simpl. now rewrite app_nil_r.
  - destruct (continueOnFail h).
    + split; [reflexivity|]. eexists [_]. simpl. repeat split; discriminate.
    + split; [reflexivity|]. exists []. simpl. rewrite app_nil_r. repeat split; discriminate.
Qed.

Lemma log_push o st : log (push o st) = log st.
Proof. reflexivity. Qed.

Lemma uploadedKey_push o st : uploadedKey (push o st) = uploadedKey st.
Proof. reflexivity. Qed.

Lemma warnings_no_error (warn : list Output) (e : string) :
  forallb is_warning warn = true -> ~ In (OutError e) warn.
Proof.
  intros Hw Hin. rewrite forallb_forall in Hw. specialize (Hw _ Hin). discriminate.
Qed.

(** C2.  A record of MIME type [application/pdf] sends exactly one
    [PutObject], as its first call, and exactly one [DeleteObject], for the
    same key and as its last call before the loop goes on or [execute]
    throws, whatever the collaborators answer (the upload, the job start,
    a status fetch, a page fetch or the deletion failing, the job
    succeeding, failing or timing out).  A failed deletion is never an
    error: the record ends with an error only when its [try] block threw
    and the host does not continue on failure (the error is then the
    [NodeOperationError] made of the message thrown), and every [error]
    record it appends carries the message thrown by its [try] block.  The only run
    without the deletion is the one that never gets to it: the pagination
    of a succeeded job that exhausts the page budget. *)
Theorem pdf_record_one_upload_one_deletion :
  forall fuel h sv cfg i f st r st',
    resolve_file h i = Returned f ->
    fileType f = "application/pdf" ->
    process_item fuel h sv cfg i st = (r, st') ->
    let key := object_key sv cfg st in
    let body := try_body fuel h sv cfg i (set_uploadedKey None st) in
    (r = Diverge /\
     exists jobId st1 resp st2,
       upload_and_start sv cfg f (set_uploadedKey None st) = (Ok jobId, st1) /\
       poll sv jobId (now st1 + effective_timeout (timeoutSeconds cfg) * 1000) st1
         = (Ok (Some "SUCCEEDED", Some resp), st2) /\
       fst (collect_pages fuel sv jobId (NextToken resp) (nullish (Blocks resp) []) st2)
         = Diverge)
    \/
    (r <> Diverge /\
     (exists d,
        log st' = (log st ++ [PutObject (s3Bucket cfg) key (fileBuffer f) (fileType f)]
                     ++ d ++ [DeleteObject (s3Bucket cfg) key])%list /\
        forallb (fun e => negb (is_s3_call e)) d = true) /\
     (forall e, r = Throw e ->
        continueOnFail h = false /\
        exists thrown, fst body = Throw thrown /\ e = descriptive thrown) /\
     (exists new,
        returnData st' = (returnData st ++ new)%list /\
        forall e, In (OutError e) new -> continueOnFail h = true /\ fst body = Throw e)).
Proof.
  intros fuel h sv cfg i f st r st' Hf Hty Hp key body.
  unfold process_item in Hp. subst body.
  rewrite (try_body_pdf _ _ _ _ _ _ Hf Hty) in *.
  destruct (pdf_path fuel sv cfg f (set_uploadedKey None st)) as [rp st1] eqn:Hpath.
  destruct (pdf_path_shape _ _ _ _ _ Hpath) as (Hk & Hr & d & Hl & Hq).
  change (object_key sv cfg (set_uploadedKey None st)) with key in *.
  cbn [log returnData set_uploadedKey] in Hl, Hr.
  pose proof (object_key_truthy sv cfg st) as Hkt. fold key in Hkt.
  destruct rp as [t|e|].
  - right. inversion Hp; subst r st'. clear Hp.
    destruct (cleanup_uploaded h sv cfg (push (OutText t) st1) (key := key))
      as (Hcl & warn & Hcr & Hw & _); auto.
    split; [discriminate|]. split; [|split].
    + exists d. rewrite Hcl, log_push, Hl, <- !app_assoc. simpl. auto.
    + intros e He. discriminate.
    + exists (OutText t :: warn). rewrite Hcr. cbn [push returnData]. rewrite Hr.
      rewrite <- app_assoc. split; [reflexivity|].
      intros e [He|He]; [discriminate|]. now apply warnings_no_error in He.
  - right. destruct (continueOnFail h) eqn:Hc; inversion Hp; subst r st'; clear Hp.
    + destruct (cleanup_uploaded h sv cfg (push (OutError e) st1) (key := key))
        as (Hcl & warn & Hcr & Hw & _); auto.
      split; [discriminate|]. split; [|split].
      * exists d. rewrite Hcl, log_push, Hl, <- !app_assoc. simpl. auto.
      * intros e' He'. discriminate.
      * exists (OutError e :: warn). rewrite Hcr. cbn [push returnData]. rewrite Hr.
        rewrite <- app_assoc. split; [reflexivity|].
        intros e' [He'|He']; [inversion He'; subst; auto|].
        now apply warnings_no_error in He'.
    + destruct (cleanup_uploaded h sv cfg st1 (key := key))
        as (Hcl & warn & Hcr & Hw & _); auto.
      split; [discriminate|]. split; [|split].
      * exists d. rewrite Hcl, Hl, <- !app_assoc. simpl. auto.
      * intros e' He'. inversion He'; subst. split; [auto|].
        exists e. split; reflexivity.
      * exists warn. rewrite Hcr, Hr. split; [reflexivity|].
        intros e' He'. now apply warnings_no_error in He'.
  - left. inversion Hp; subst r st'. split; [reflexivity|].
    apply (pdf_path_diverge _ _ _ _ _ Hpath).
Qed.

(** C7.  A record whose MIME type is neither [application/pdf] nor starts
    with [image/] fails with the unsupported-MIME-type error (an [error]
    record when the host continues on failure, the error of [execute]
    otherwise) and calls no collaborator at all, so nothing is uploaded.
    The message of that error is [Unsupported MIME type: ...] as
    [NodeOperationError] makes it: that text itself when it includes no
    code of [COMMON_ERRORS], the text of the table otherwise.  A record
    whose MIME type starts with [image/] makes the one
    synchronous [DetectDocumentText] call and nothing else, so nothing is
    uploaded either. *)
Theorem unsupported_and_image_records_never_upload :
  forall fuel h sv cfg i f st,
    resolve_file h i = Returned f ->
    (fileType f <> "application/pdf" ->
     startsWith (fileType f) "image/" = false ->
     let text := ("Unsupported MIME type: " ++ fileType f)%string in
     let msg := descriptive text in
     fst (try_body fuel h sv cfg i (set_uploadedKey None st)) = Throw msg /\
     process_item fuel h sv cfg i st =
       (if continueOnFail h
        then (Ok tt, push (OutError msg) (set_uploadedKey None st))
        else (Throw msg, set_uploadedKey None st)) /\
     (common_error text = None -> msg = text)) /\
    (startsWith (fileType f) "image/" = true ->
     log (snd (process_item fuel h sv cfg i st))
       = (log st ++ [DetectDocumentText (fileBuffer f)])%list /\
     (forall resp,
        outcome (textract_detect sv (now st) (log st) (fileBuffer f)) = Returned resp ->
        fst (process_item fuel h sv cfg i st) = Ok tt /\
        returnData (snd (process_item fuel h sv cfg i st))
          = (returnData st
               ++ [OutText (extract_text (nullish (detectBlocks resp) []))])%list)).
Proof.
  intros fuel h sv cfg i f st Hf. split.
  - intros Hpdf Himg text msg. unfold process_item.
    rewrite (try_body_unsupported _ _ _ _ _ _ Hf Hpdf Himg). fold text. fold msg.
    split; [reflexivity|]. split; [|apply MessageProps.descriptive_kept].
    subst msg. rewrite MessageProps.descriptive_idempotent.
    destruct (continueOnFail h); now rewrite cleanup_nothing.
  - intros Himg. unfold process_item.
    rewrite (try_body_image _ _ _ _ _ _ Hf Himg). cbn [now log set_uploadedKey].
    destruct (outcome (textract_detect sv (now st) (log st) (fileBuffer f))) as [resp|e].
    + rewrite cleanup_nothing by reflexivity. split; [reflexivity|].
      intros resp' Hr. inversion Hr; subst. split; reflexivity.
    + split; [|discriminate].
      destruct (continueOnFail h); now rewrite cleanup_nothing.
Qed.

Lemma append_inj_l (p a b : string) : (p ++ a = p ++ b)%string -> a = b.
Proof. induction p as [|c p IH]; simpl; intros H; [exact H|]. inversion H. auto. Qed.

Lemma template_opt_failed (js : option string) :
  template_opt js = "FAILED" <-> js = Some "FAILED".
Proof.
  destruct js as [s|]; simpl.
  - split; [now intros ->|now intros [= ->]].
  - split; discriminate.
Qed.

Lemma succeeded_false (js : option string) :
  js <> Some "SUCCEEDED" -> succeeded js = false.
Proof.
  destruct js as [s|]; simpl; [|reflexivity].
  intros H. apply String.eqb_neq. congruence.
Qed.

(** No text of [COMMON_ERRORS] is the message of a [FAILED] job. *)
Lemma no_text_reports_failed :
  forallb (fun entry => negb (String.eqb (snd entry) (incomplete_message (Some "FAILED"))))
          COMMON_ERRORS = true.
Proof. vm_compute. reflexivity. Qed.

(** C4.  When the polling of a PDF record ends normally (by a terminal
    status or by the deadline) and the status of the last response is not
    [SUCCEEDED], the [try] block throws a [NodeOperationError] made from
    [Textract job did not complete successfully: <status>], where
    [<status>] is the status of the last response fetched, or the word
    [undefined] when no response was fetched or the last one had no
    status; the record then yields the message of that error, as an
    [error] record when the host continues on failure and as the error of
    [execute] otherwise.  That message is the text above when the text
    includes no code of [COMMON_ERRORS], which is so for no status and
    for every status but [SUCCEEDED] that the service defines.  It is the
    message of a [FAILED] job exactly when the last status is [FAILED],
    so a timed-out job, whose last status is not terminal, reports a
    different string. *)
Theorem incomplete_job_reports_last_status :
  forall fuel h sv cfg i f st jobId st1 obs st2,
    resolve_file h i = Returned f ->
    fileType f = "application/pdf" ->
    upload_and_start sv cfg f (set_uploadedKey None st) = (Ok jobId, st1) ->
    polls sv jobId (now st1 + effective_timeout (timeoutSeconds cfg) * 1000) st1
          obs None st2 ->
    last_status obs <> Some "SUCCEEDED" ->
    let text := incomplete_message (last_status obs) in
    let msg := descriptive text in
    try_body fuel h sv cfg i (set_uploadedKey None st) = (Throw msg, st2) /\
    fst (process_item fuel h sv cfg i st)
      = (if continueOnFail h then Ok tt else Throw msg) /\
    (common_error text = None -> msg = text) /\
    (last_status obs = None \/ last_status obs = Some "FAILED" \/
     last_status obs = Some "IN_PROGRESS" \/ last_status obs = Some "PARTIAL_SUCCESS" ->
     msg = text) /\
    (continueOnFail h = true ->
     exists warn,
       returnData (snd (process_item fuel h sv cfg i st))
         = (returnData st ++ OutError msg :: warn)%list /\
       forallb is_warning warn = true) /\
    (last_status obs = None ->
     text = "Textract job did not complete successfully: undefined") /\
    (forall s, last_status obs = Some s ->
     text = ("Textract job did not complete successfully: " ++ s)%string) /\
    (msg = incomplete_message (Some "FAILED") <-> last_status obs = Some "FAILED").
Proof.
  intros fuel h sv cfg i f st jobId st1 obs st2 Hf Hty Hu Hp Hns text msg.
  assert (Hbody : try_body fuel h sv cfg i (set_uploadedKey None st) = (Throw msg, st2)).
  { rewrite (try_body_pdf _ _ _ _ _ _ Hf Hty), pdf_path_phases, Hu, (polls_poll Hp).
    cbn [poll_result]. rewrite finish_job_incomplete by now apply succeeded_false.
    reflexivity. }
  split; [exact Hbody|].
  destruct (upload_and_start_shape _ _ _ _ Hu) as (_ & Hk & Hr & _).
  destruct (polls_log Hp) as (_ & Hr2 & Hk2).
  pose proof (object_key_truthy sv cfg (set_uploadedKey None st)) as Hkt.
  unfold process_item. rewrite Hbody.
  split; [destruct (continueOnFail h); [reflexivity|];
          subst msg; now rewrite MessageProps.descriptive_idempotent|].
  split; [apply MessageProps.descriptive_kept|].
  split; [intros [Hs|[Hs|[Hs|Hs]]]; subst msg text; rewrite Hs; vm_compute; reflexivity|].
  split; [|split; [|split]].
  - intros Hc. rewrite Hc. cbn [snd].
    destruct (cleanup_uploaded h sv cfg (push (OutError msg) st2)
                (key := object_key sv cfg (set_uploadedKey None st)))
      as (_ & warn & Hcr & Hw & _).
    + rewrite uploadedKey_push. congruence.
    + exact Hkt.
    + exists warn. rewrite Hcr. cbn [push returnData].
      rewrite Hr2, Hr, <- app_assoc. auto.
  - intros Hn. subst text. now rewrite Hn.
  - intros s Hs. subst text. now rewrite Hs.
  - split.
    + intros H. subst msg. unfold descriptive in H.
      destruct (common_error text) as [entry|] eqn:Hc.
      * unfold common_error in Hc. apply find_some in Hc. destruct Hc as [Hin _].
        pose proof no_text_reports_failed as Hall. rewrite forallb_forall in Hall.
        specialize (Hall _ Hin). rewrite H, String.eqb_refl in Hall. discriminate.
      * subst text. unfold incomplete_message in H.
        apply append_inj_l in H. now apply template_opt_failed.
    + intros Hs. subst msg text. rewrite Hs. vm_compute. reflexivity.
Qed.

(** The text of the code and the text of the specification differ exactly
    by the LINE blocks without characters. *)
Lemma claimed_text_without_blank_lines (blocks : list Block) :
  (forall b, In b blocks -> claimed_is_line b = true -> truthy (claimed_line_text b) = true) ->
  extract_text blocks = claimed_text blocks.
Proof.
  intros H. rewrite extract_text_nonempty_lines.
  unfold nonempty_lines_text, claimed_text. do 2 f_equal.
  induction blocks as [|b rest IH]; [reflexivity|]. simpl.
  destruct (claimed_is_line b) eqn:Hb; simpl.
  - rewrite (H b) by (simpl; auto). f_equal. apply IH. intros; apply H; simpl; auto.
  - apply IH. intros; apply H; simpl; auto.
Qed.

(** C1, as amended.  For a PDF record whose polling ends with a response of
    status [SUCCEEDED] and whose result pages, followed token by token,
    come to an end within the page budget, the record succeeds and the
    one record it appends before anything the cleanup may add is
    [{ text }], where [text] joins with newlines the texts ([Text], or
    [DetectedText] when [Text] is absent) of the blocks of type LINE whose
    text is not empty, over the blocks of the last polling response
    followed by those of every page, in the order of the fetches. *)
Theorem pdf_text_joins_nonempty_lines :
  forall fuel h sv cfg i f st jobId st1 obs resp st2 pages st3,
    resolve_file h i = Returned f ->
    fileType f = "application/pdf" ->
    upload_and_start sv cfg f (set_uploadedKey None st) = (Ok jobId, st1) ->
    polls sv jobId (now st1 + effective_timeout (timeoutSeconds cfg) * 1000) st1
          obs None st2 ->
    last_response obs = Some resp ->
    JobStatus resp = Some "SUCCEEDED" ->
    pages_from sv jobId (NextToken resp) st2 pages st3 ->
    (List.length pages <= fuel)%nat ->
    let text := nonempty_lines_text (all_blocks resp pages) in
    try_body fuel h sv cfg i (set_uploadedKey None st) = (Ok tt, push (OutText text) st3) /\
    fst (process_item fuel h sv cfg i st) = Ok tt /\
    (exists warn,
       returnData (snd (process_item fuel h sv cfg i st))
         = (returnData st ++ OutText text :: warn)%list /\
       forallb is_warning warn = true) /\
    ((forall b, In b (all_blocks resp pages) -> claimed_is_line b = true ->
                truthy (claimed_line_text b) = true) ->
     text = claimed_text (all_blocks resp pages)).
Proof.
  intros fuel h sv cfg i f st jobId st1 obs resp st2 pages st3
         Hf Hty Hu Hp Hlast Hst Hpages Hfuel text.
  assert (Hbody : try_body fuel h sv cfg i (set_uploadedKey None st)
                  = (Ok tt, push (OutText text) st3)).
  { rewrite (try_body_pdf _ _ _ _ _ _ Hf Hty), pdf_path_phases, Hu, (polls_poll Hp).
    cbn [poll_result]. unfold last_status. rewrite Hlast, Hst.
    unfold finish_job. cbn [succeeded String.eqb Ascii.eqb Bool.eqb negb].
    simpl negb. cbv iota. unfold bind.
    rewrite (pages_from_collect Hpages) by exact Hfuel.
    unfold ret. rewrite extract_text_nonempty_lines. reflexivity. }
  split; [exact Hbody|].
  destruct (upload_and_start_shape _ _ _ _ Hu) as (_ & Hk & Hr & _).
  destruct (polls_log Hp) as (_ & Hr2 & Hk2).
  assert (Hq : quiet st2 st3).
  { destruct (collect_pages fuel sv jobId (NextToken resp) (nullish (Blocks resp) []) st2)
      as [r' st'] eqn:Hc.
    pose proof Hc as Hq. apply quiet_collect_pages in Hq.
    rewrite (pages_from_collect Hpages) in Hc by exact Hfuel. now inversion Hc; subst. }
  destruct Hq as (_ & _ & _ & Hr3 & Hk3).
  unfold process_item. rewrite Hbody. cbn [fst snd].
  split; [reflexivity|]. split.
  - destruct (cleanup_uploaded h sv cfg (push (OutText text) st3)
                (key := object_key sv cfg (set_uploadedKey None st)))
      as (_ & warn & Hcr & Hw & _).
    + rewrite uploadedKey_push. congruence.
    + apply object_key_truthy.
    + exists warn. rewrite Hcr. cbn [push returnData].
      rewrite Hr3, Hr2, Hr, <- app_assoc. auto.
  - intros Hall. subst text. rewrite <- extract_text_nonempty_lines.
    now apply claimed_text_without_blank_lines.
Qed.

Lemma poll_trace_sleeps_before_fetch jobId k :
  poll_trace jobId k
  = List.concat (repeat [SetTimeout 3000; GetDocumentTextDetection jobId None] k).
Proof. induction k as [|k IH]; simpl; [reflexivity|]. now rewrite IH. Qed.

(** C3, as amended.  Let [T] be [timeoutSeconds], or 120 when
    [timeoutSeconds] is 0, and let the job start in state [st].  The polling
    of the PDF branch always ends, and it is the polling of the
    specification: rounds of one 3000 ms timer followed by one status
    fetch, every fetch but the last one observing a status that is not
    terminal, and a normal end having seen a terminal status or a clock at
    or past [start + T] seconds.  It sends at most [ceil(T/3)] status
    fetches (none when [T] is negative), it never ends before the job
    start, and when a timer fires at most [La] ms late and a status fetch
    takes at most [Lb] ms it ends less than [max(T,0)] seconds plus 3000 ms
    plus [La + Lb] ms after the job start. *)
Theorem polling_is_bounded :
  forall fuel sv cfg f st0 jobId st La Lb,
    upload_and_start sv cfg f st0 = (Ok jobId, st) ->
    (forall t l, Z.of_N (timer_lag sv t l) <= La) ->
    (forall t l, Z.of_N (took (textract_get sv t l jobId None)) <= Lb) ->
    let T := effective_timeout (timeoutSeconds cfg) in
    let timeoutAt := now st + T * 1000 in
    exists obs err st',
      polls sv jobId timeoutAt st obs err st' /\
      pdf_path fuel sv cfg f st0 =
        match poll_result obs err with
        | Ok polled => finish_job fuel sv jobId polled st'
        | Throw e => (Throw e, st')
        | Diverge => (Diverge, st')
        end /\
      log st' = (log st ++ List.concat (repeat [SetTimeout 3000;
                                           GetDocumentTextDetection jobId None]
                                          (status_calls obs err)))%list /\
      Z.of_nat (status_calls obs err) <= (Z.max 0 T + 2) / 3 /\
      now st <= now st' /\
      now st' < now st + Z.max 0 T * 1000 + 3000 + La + Lb /\
      Forall (fun r => is_terminal (JobStatus r) = false) (removelast obs) /\
      (err = None -> is_terminal (last_status obs) = true \/ timeoutAt <= now st').
Proof.
  intros fuel sv cfg f st0 jobId st La Lb Hu HLa HLb T timeoutAt.
  destruct (@polls_total sv jobId timeoutAt _ st (le_n _)) as (obs & err & st' & Hp).
  exists obs, err, st'.
  destruct (polls_log Hp) as (Hl & _ & _).
  destruct (polls_exit Hp) as (Hall & Hend & _).
  destruct (polls_rounds Hp) as (Hle & Hzero & Hpos).
  pose proof (polls_clock HLa HLb Hp) as Hclock.
  pose proof (HLa (now st) (log st)) as HLa0. pose proof (N2Z.is_nonneg (timer_lag sv (now st) (log st))).
  pose proof (HLb (now st) (log st)) as HLb0.
  pose proof (N2Z.is_nonneg (took (textract_get sv (now st) (log st) jobId None))).
  split; [exact Hp|]. split; [|split; [|split; [|split; [|split; [|split]]]]]; auto.
  - rewrite pdf_path_phases, Hu. fold T. fold timeoutAt. rewrite (polls_poll Hp).
    destruct (poll_result obs err); reflexivity.
  - now rewrite <- poll_trace_sleeps_before_fetch.
  - apply Z.div_le_lower_bound; [lia|].
    destruct (status_calls obs err) as [|k] eqn:Hk; [lia|].
    specialize (Hpos ltac:(discriminate)). subst timeoutAt. lia.
  - destruct (status_calls obs err) as [|k] eqn:Hk.
    + rewrite (Hzero eq_refl). lia.
    + specialize (Hclock ltac:(discriminate)). subst timeoutAt. lia.
Qed.

Lemma polls_starts sv jobId timeoutAt st obs err st' :
  polls sv jobId timeoutAt st obs err st' ->
  now st < timeoutAt -> (1 <= status_calls obs err)%nat.
Proof.
  destruct 1 as [st Hd|st e Hd Ho|st resp Hd Ho Ht|st resp obs err st' Hd Ho Ht Hp];
    intros Hlt; simpl; try lia.
  destruct err; simpl; lia.
Qed.

(** C10.  With [timeoutSeconds] equal to 0 the deadline of the polling is
    120000 ms after the job start, so polling does wait: it sends at least
    one status fetch and at most 40. *)
Theorem zero_timeout_polls_for_120_seconds :
  forall fuel sv cfg f st0 jobId st,
    timeoutSeconds cfg = 0 ->
    upload_and_start sv cfg f st0 = (Ok jobId, st) ->
    effective_timeout (timeoutSeconds cfg) = 120 /\
    pdf_path fuel sv cfg f st0 =
      match poll sv jobId (now st + 120000) st with
      | (Ok polled, st') => finish_job fuel sv jobId polled st'
      | (Throw e, st') => (Throw e, st')
      | (Diverge, st') => (Diverge, st')
      end /\
    exists obs err st',
      polls sv jobId (now st + 120000) st obs err st' /\
      poll sv jobId (now st + 120000) st = (poll_result obs err, st') /\
      (1 <= status_calls obs err <= 40)%nat.
Proof.
  intros fuel sv cfg f st0 jobId st H0 Hu.
  assert (He : effective_timeout (timeoutSeconds cfg) = 120) by now rewrite H0.
  split; [exact He|]. split.
  - rewrite pdf_path_phases, Hu, He. reflexivity.
  - destruct (@polls_total sv jobId (now st + 120000) _ st (le_n _))
      as (obs & err & st' & Hp).
    exists obs, err, st'. split; [exact Hp|]. split; [exact (polls_poll Hp)|].
    destruct (polls_rounds Hp) as (_ & _ & Hpos).
    split.
    + apply (polls_starts Hp). lia.
    + destruct (status_calls obs err) as [|k]; [lia|].
      specialize (Hpos ltac:(discriminate)). lia.
Qed.

(** *** The batch *)

(** A [try] block that does not complete has appended nothing. *)
Lemma try_body_failure_appends_nothing fuel h sv cfg i st r st1 :
  try_body fuel h sv cfg i st = (r, st1) ->
  r <> Ok tt -> returnData st1 = returnData st.
Proof.
  unfold try_body, bind, host.
  destruct (resolve_file h i) as [f|e]; [|intros H _; now inversion H].
  destruct (negb (String.eqb (fileType f) "application/pdf")
            && negb (startsWith (fileType f) "image/"));
    [intros H _; now inversion H|].
  destruct (startsWith (fileType f) "image/").
  - unfold image_path, bind, send.
    destruct (outcome (textract_detect sv (now st) (log st) (fileBuffer f)));
      intros H Hn; inversion H; subst; [now elim Hn|reflexivity].
  - destruct (pdf_path fuel sv cfg f st) as [rp st2] eqn:Hp.
    destruct (pdf_path_shape _ _ _ _ _ Hp) as (_ & Hr & _).
    destruct rp; intros H Hn; inversion H; subst; [now elim Hn|exact Hr|exact Hr].
Qed.

(** The [finally] block appends warnings only, and none when the host does
    not continue on failure. *)
Lemma cleanup_appends_warnings h sv cfg st :
  exists warn,
    returnData (cleanup h sv cfg st) = (returnData st ++ warn)%list /\
    forallb is_warning warn = true /\
    (continueOnFail h = false -> warn = []).
Proof.
  unfold cleanup.
  destruct (uploadedKey st) as [key|]; [destruct (truthy key)|];
    try (exists []; simpl; now rewrite app_nil_r).
  unfold send.
  destruct (outcome (s3_delete sv (now st) (log st) (s3Bucket cfg) key)) as [[]|e];
    try (exists []; simpl; now rewrite app_nil_r).
  destruct (continueOnFail h).
  - eexists [_]. simpl. repeat split. discriminate.
  - exists []. simpl. now rewrite app_nil_r.
Qed.

Lemma process_item_tolerant fuel h sv cfg i st :
  continueOnFail h = true ->
  forall e, fst (process_item fuel h sv cfg i st) <> Throw e.
Proof.
  intros Hc e. unfold process_item. rewrite Hc.
  destruct (try_body fuel h sv cfg i (set_uploadedKey None st)) as [[u|e'|] st1];
    discriminate.
Qed.

Lemma run_items_tolerant fuel h sv cfg :
  continueOnFail h = true ->
  forall remaining i st e, fst (run_items fuel h sv cfg remaining i st) <> Throw e.
Proof.
  intros Hc. induction remaining as [|n IH]; intros i st e; [discriminate|].
  simpl. unfold bind.
  pose proof (@process_item_tolerant fuel h sv cfg i st Hc) as Hp.
  destruct (process_item fuel h sv cfg i st) as [[u|e'|] st1].
  - apply IH.
  - now elim (Hp e').
  - discriminate.
Qed.

(** *** The theorems on the jobs of the examples *)

(** The trace of a record whose job fails and whose deletion fails too. *)
Lemma pdf_record_one_upload_one_deletion_witness :
  resolve_file (ocr_host true "application/pdf" 120 1) 0 = Returned pdf_file /\
  exists d,
    log (snd (process_item 5 (ocr_host true "application/pdf" 120 1) failed_job
                (ocr_config 120) 0 start_state))
    = (log start_state
         ++ [PutObject "scratch-bucket" "tmp/1700000000000-3f2b.pdf" payload "application/pdf"]
         ++ d ++ [DeleteObject "scratch-bucket" "tmp/1700000000000-3f2b.pdf"])%list /\
    forallb (fun e => negb (is_s3_call e)) d = true.
Proof.
  split; [reflexivity|].
  destruct (@pdf_record_one_upload_one_deletion 5 (ocr_host true "application/pdf" 120 1)
              failed_job (ocr_config 120) 0 pdf_file start_state
              (fst (process_item 5 (ocr_host true "application/pdf" 120 1) failed_job
                      (ocr_config 120) 0 start_state))
              (snd (process_item 5 (ocr_host true "application/pdf" 120 1) failed_job
                      (ocr_config 120) 0 start_state))
              eq_refl eq_refl ltac:(vm_compute; reflexivity))
    as [[Hd _]|(_ & H & _)].
  - vm_compute in Hd. discriminate Hd.
  - exact H.
Defined.

(** The error record of a job that is [FAILED] at the first poll. *)
Lemma incomplete_job_reports_last_status_witness :
  fst (process_item 5 (ocr_host true "application/pdf" 120 1) failed_job
         (ocr_config 120) 0 start_state) = Ok tt /\
  exists warn,
    returnData (snd (process_item 5 (ocr_host true "application/pdf" 120 1) failed_job
                       (ocr_config 120) 0 start_state))
    = (returnData start_state
         ++ OutError "Textract job did not complete successfully: FAILED" :: warn)%list /\
    forallb is_warning warn = true.
Proof.
  pose (st1 := snd (upload_and_start failed_job (ocr_config 120) pdf_file
                      (set_uploadedKey None start_state))).
  pose (resp := mkGetResponse (Some "FAILED") None None).
  assert (Hp : polls failed_job "job-1"
                 (now st1 + effective_timeout (timeoutSeconds (ocr_config 120)) * 1000)
                 st1 [resp] None
                 (after_status failed_job "job-1" (after_sleep failed_job st1))).
  { apply polls_terminal; vm_compute; reflexivity. }
  destruct (@incomplete_job_reports_last_status 5 (ocr_host true "application/pdf" 120 1)
              failed_job (ocr_config 120) 0 pdf_file start_state "job-1" st1 [resp] _
              eq_refl eq_refl ltac:(vm_compute; reflexivity) Hp ltac:(discriminate))
    as (_ & Hok & _ & _ & Hout & _).
  split; [exact Hok|]. exact (Hout eq_refl).
Defined.

(** The two-page job of the specification's example. *)
Lemma pdf_text_joins_nonempty_lines_witness :
  fst (process_item 5 (ocr_host true "application/pdf" 120 1) two_page_job
         (ocr_config 120) 0 start_state) = Ok tt /\
  exists warn,
    returnData (snd (process_item 5 (ocr_host true "application/pdf" 120 1) two_page_job
                       (ocr_config 120) 0 start_state))
    = (returnData start_state
         ++ OutText ("Page1Line" ++ LF ++ "Page2Line") :: warn)%list /\
    forallb is_warning warn = true.
Proof.
  pose (sv := two_page_job).
  pose (st1 := snd (upload_and_start sv (ocr_config 120) pdf_file
                      (set_uploadedKey None start_state))).
  pose (r1 := mkGetResponse (Some "IN_PROGRESS") (Some "page-2") (Some [line "Page1Line"])).
  pose (r2 := mkGetResponse (Some "SUCCEEDED") (Some "page-2") (Some [line "Page1Line"])).
  pose (p2 := mkGetResponse (Some "SUCCEEDED") None (Some [line "Page2Line"])).
  pose (st2 := after_status sv "job-1" (after_sleep sv
                 (after_status sv "job-1" (after_sleep sv st1)))).
  assert (Hp : polls sv "job-1"
                 (now st1 + effective_timeout (timeoutSeconds (ocr_config 120)) * 1000)
                 st1 [r1; r2] None st2).
  { apply polls_again; [vm_compute; reflexivity ..|].
    apply polls_terminal; vm_compute; reflexivity. }
  assert (Hpages : pages_from sv "job-1" (NextToken r2) st2 [p2]
                     (record_call (GetDocumentTextDetection "job-1" (Some "page-2"))
                        (took (textract_get sv (now st2) (log st2) "job-1" (Some "page-2")))
                        st2)).
  { apply pages_next; [reflexivity|vm_compute; reflexivity|].
    apply pages_done. reflexivity. }
  destruct (@pdf_text_joins_nonempty_lines 5 (ocr_host true "application/pdf" 120 1)
              sv (ocr_config 120) 0 pdf_file start_state "job-1" st1 [r1; r2] r2 st2
              [p2] _ eq_refl eq_refl ltac:(vm_compute; reflexivity) Hp eq_refl eq_refl
              Hpages ltac:(simpl; lia))
    as (_ & Hok & Hout & _).
  split; [exact Hok|exact Hout].
Defined.

(** C1, the claim as stated fails: a LINE block whose text is the empty
    string is left out by the code, where the claimed text has an empty
    line for it. *)
Lemma blank_line_is_left_out :
  fst (execute 5 (ocr_host true "application/pdf" 120 1) blank_line_job start_state)
    = Ok [[OutText ("a" ++ LF ++ "b")]] /\
  claimed_text [line "a"; line EmptyString; line "b"] = ("a" ++ LF ++ LF ++ "b")%string /\
  fst (execute 5 (ocr_host true "application/pdf" 120 1) blank_line_job start_state)
    <> Ok [[OutText (claimed_text [line "a"; line EmptyString; line "b"])]].
Proof.
  split; [vm_compute; reflexivity|]. split; [vm_compute; reflexivity|].
  vm_compute. discriminate.
Qed.

(** The polling of the two-page job, with collaborators that answer at
    once. *)
Lemma polling_is_bounded_witness :
  upload_and_start two_page_job (ocr_config 120) pdf_file start_state
    = (Ok "job-1", snd (upload_and_start two_page_job (ocr_config 120) pdf_file start_state)) /\
  exists obs err st',
    polls two_page_job "job-1" (now start_state + 120 * 1000)
          (snd (upload_and_start two_page_job (ocr_config 120) pdf_file start_state))
          obs err st' /\
    Z.of_nat (status_calls obs err) <= 40 /\
    now st' < now start_state + 120 * 1000 + 3000.
Proof.
  split; [vm_compute; reflexivity|].
  destruct (@polling_is_bounded 5 two_page_job (ocr_config 120) pdf_file start_state "job-1"
              (snd (upload_and_start two_page_job (ocr_config 120) pdf_file start_state))
              0 0 ltac:(vm_compute; reflexivity)
              ltac:(intros; simpl; lia) ltac:(intros; simpl; lia))
    as (obs & err & st' & Hp & _ & _ & Hcalls & _ & Hend & _).
  exists obs, err, st'. split; [exact Hp|]. split; [exact Hcalls|exact Hend].
Defined.

(** C3, the claim as stated fails: with [timeoutSeconds] 0, collaborators
    that answer at once and a job that stays [IN_PROGRESS], the record
    sends 40 status fetches, not at most [ceil(0/3) + 1 = 1], and polls
    for 120 seconds, not for at most 0 + 3. *)
Lemma zero_timeout_polls_forty_times :
  let st' := snd (execute 5 (ocr_host true "application/pdf" 0 1) stuck_job start_state) in
  List.length (filter is_status_call (log st')) = 40%nat /\
  now st' - now start_state = 120000 /\
  ~ (Z.of_nat (List.length (filter is_status_call (log st'))) <= (0 + 2) / 3 + 1 /\
     now st' <= now start_state + 0 * 1000 + 3000).
Proof.
  vm_compute. split; [reflexivity|]. split; [reflexivity|].
  intros [H _]. apply H. reflexivity.
Qed.

(** A job that stays [IN_PROGRESS], polled with [timeoutSeconds] 0. *)
Lemma zero_timeout_polls_for_120_seconds_witness :
  effective_timeout (timeoutSeconds (ocr_config 0)) = 120 /\
  exists obs err st',
    poll stuck_job "job-1"
         (now (snd (upload_and_start stuck_job (ocr_config 0) pdf_file start_state)) + 120000)
         (snd (upload_and_start stuck_job (ocr_config 0) pdf_file start_state))
      = (poll_result obs err, st') /\
    (1 <= status_calls obs err <= 40)%nat.
Proof.
  destruct (@zero_timeout_polls_for_120_seconds 5 stuck_job (ocr_config 0) pdf_file
              start_state "job-1"
              (snd (upload_and_start stuck_job (ocr_config 0) pdf_file start_state))
              eq_refl ltac:(vm_compute; reflexivity))
    as (He & _ & obs & err & st' & _ & Hpoll & Hcalls).
  split; [exact He|]. exists obs, err, st'. split; [exact Hpoll|exact Hcalls].
Defined.

(** A record of MIME type [application/json], the host not continuing on
    failure. *)
Lemma unsupported_and_image_records_never_upload_witness :
  process_item 5 (ocr_host false "application/json" 120 1) two_page_job (ocr_config 120)
               0 start_state
  = (Throw "Unsupported MIME type: application/json", set_uploadedKey None start_state).
Proof.
  destruct (@unsupported_and_image_records_never_upload 5
              (ocr_host false "application/json" 120 1) two_page_job (ocr_config 120) 0
              (mkInputFile payload "application/json") start_state eq_refl) as [H _].
  destruct (H ltac:(discriminate) eq_refl) as (_ & H2 & _). exact H2.
Defined.

(** A MIME type that includes a code of the table: the message of the
    error is the text of the table. *)
Example unsupported_type_with_a_code :
  fst (execute 5 (ocr_host true "application/x-enoent" 120 1) two_page_job start_state)
  = Ok [[OutError "The file or directory does not exist"]].
Proof. vm_compute. reflexivity. Qed.

(** *** The examples of the specification (section 8) *)

Example image_hello_world :
  fst (execute 5 (ocr_host false "image/png" 120 1)
         (scripted [] "SUCCEEDED" (fun r => r) [] false [line "Hello"; line "World"])
         start_state)
  = Ok [[OutText ("Hello" ++ LF ++ "World")]].
Proof. vm_compute. reflexivity. Qed.

Example pdf_two_pages :
  execute 5 (ocr_host false "application/pdf" 120 1) two_page_job start_state
  = (Ok [[OutText ("Page1Line" ++ LF ++ "Page2Line")]],
     mkState 1700000006000
       [PutObject "scratch-bucket" "tmp/1700000000000-3f2b.pdf" payload "application/pdf";
        StartDocumentTextDetection "scratch-bucket" "tmp/1700000000000-3f2b.pdf";
        SetTimeout 3000; GetDocumentTextDetection "job-1" None;
        SetTimeout 3000; GetDocumentTextDetection "job-1" None;
        GetDocumentTextDetection "job-1" (Some "page-2");
        DeleteObject "scratch-bucket" "tmp/1700000000000-3f2b.pdf"]
       [OutText ("Page1Line" ++ LF ++ "Page2Line")]
       (Some "tmp/1700000000000-3f2b.pdf")).
Proof. vm_compute. reflexivity. Qed.

Example failed_job_and_failed_deletion :
  fst (execute 5 (ocr_host true "application/pdf" 120 1) failed_job start_state)
  = Ok [[OutError "Textract job did not complete successfully: FAILED";
         OutWarning "Failed to delete S3 object tmp/1700000000000-3f2b.pdf: AccessDenied"]].
Proof. vm_compute. reflexivity. Qed.

Example key_prefixes :
  object_key two_page_job (mkConfig "b" "tmp/" 120 None) start_state
    = "tmp/1700000000000-3f2b.pdf" /\
  object_key two_page_job (mkConfig "b" EmptyString 120 None) start_state
    = "1700000000000-3f2b.pdf".
Proof. split; vm_compute; reflexivity. Qed.

(** A pagination that comes back to the same token never ends: whatever
    the page budget, the record is still fetching when it is spent. *)
Example runaway_pagination :
  forall fuel acc st,
    fst (collect_pages fuel looping_job "job-1" (Some "again") acc st) = Diverge.
Proof.
  induction fuel as [|fuel IH]; intros acc st; [reflexivity|].
  simpl. unfold bind, send. simpl. apply IH.
Qed.

End TextractProps.

(* ================================================================== *)
(** ** Properties of the model-invocation node *)

Module BedrockProps.

Import Bedrock BedrockSpec Fixtures.

Lemma first_text_claimed (r : ConverseResponse) : first_text r = claimed_first_text r.
Proof.
  unfold first_text, claimed_first_text.
  destruct (output r) as [o|]; [|reflexivity].
  destruct (message o) as [m|]; [|reflexivity].
  destruct (replyContent m) as [[|b l]|]; try reflexivity.
  destruct (text b) as [[|c s]|]; reflexivity.
Qed.

Lemma build_content_parts msg f : build_content msg f = TextPart msg :: file_parts f.
Proof.
  unfold build_content, file_parts.
  destruct (startsWith (fileType f) "image/"); [reflexivity|].
  destruct (String.eqb (fileType f) "application/pdf"); reflexivity.
Qed.

Lemma build_command_request cfg msg f :
  build_command cfg (build_content msg f) = request cfg msg f.
Proof. unfold build_command, request. now rewrite build_content_parts. Qed.

Lemma split_from_free (c : ascii) (s : string) :
  forall cur, free_of c s = true -> split_from c cur s = [(cur ++ s)%string].
Proof.
  induction s as [|a s IH]; intros cur H; simpl.
  - f_equal. clear. induction cur; simpl; congruence.
  - simpl in H. apply andb_prop in H as [Ha Hs].
    apply negb_true_iff in Ha. rewrite Ha. rewrite IH by exact Hs. f_equal.
    clear. induction cur; simpl; congruence.
Qed.

(** The format of an image part is the MIME subtype. *)
Lemma image_format_is_subtype (sub : string) :
  free_of "/" sub = true ->
  nth_error (split ("image/" ++ sub) "/") 1 = Some sub.
Proof.
  intros H. unfold split. cbn. rewrite split_from_free by exact H. reflexivity.
Qed.

Lemma try_body_request h sv cfg i st msg f :
  getNodeParameter h "message" i = Returned msg ->
  resolve_file h i = Returned f ->
  try_body h sv cfg i st =
  match outcome (bedrock_converse sv (now st) (log st) (request cfg msg f)) with
  | Returned r =>
      (Ok tt, push (OutResponse (first_text r) (usage_or_empty r) (stopReason r))
                   (after_request sv (request cfg msg f) st))
  | Failed e => (Throw e, after_request sv (request cfg msg f) st)
  end.
Proof.
  intros Hm Hf. unfold try_body, bind, host. rewrite Hm, Hf, build_command_request.
  unfold send. fold (after_request sv (request cfg msg f) st).
  destruct (outcome (bedrock_converse sv (now st) (log st) (request cfg msg f)));
    reflexivity.
Qed.

Lemma configure_reads_parameters h st cfg st' :
  configure h st = (Ok cfg, st') ->
  getNodeParameter h "modelId" 0 = Returned (cfgModelId cfg) /\
  getNodeParameterInt h "maxTokens" 0 = Returned (cfgMaxTokens cfg) /\
  getNodeParameterNum h "temperature" 0 = Returned (cfgTemperature cfg).
Proof.
  unfold configure, bind, host.
  destruct (getCredentials h) as [c|]; [|discriminate].
  destruct (getNodeParameter h "region" 0); [|discriminate].
  destruct (getNodeParameter h "modelId" 0); [|discriminate].
  destruct (getNodeParameterInt h "maxTokens" 0); [|discriminate].
  destruct (getNodeParameterNum h "temperature" 0); [|discriminate].
  destruct c; [|discriminate].
  intros H; inversion H; subst. auto.
Qed.

(** C8.  A record whose instruction and file resolve sends exactly one
    [Converse] request: model, [maxTokens] and [temperature] as read from
    the node parameters, [topP] 9/10, one user message made of the
    instruction text followed by an image part (format: what follows
    [image/] in the MIME type) when the MIME type starts with [image/], by
    a document part of format [pdf] when it is [application/pdf].  When
    the collaborator answers, the record appends
    [{ response, usage, stopReason }] with the text of the first content
    block of the reply, or the empty string when there is none, the usage
    of the reply, or the empty object, and the stop reason. *)
Theorem record_sends_one_converse_request :
  forall h sv cfg i st msg f,
    getNodeParameter h "message" i = Returned msg ->
    resolve_file h i = Returned f ->
    let cmd := request cfg msg f in
    log (snd (process_item h sv cfg i st)) = (log st ++ [Converse cmd])%list /\
    inferenceConfig cmd
      = mkInferenceConfig (cfgMaxTokens cfg) (cfgTemperature cfg) (QArith_base.Qmake 9 10) /\
    (forall st0 st1, configure h st0 = (Ok cfg, st1) ->
       getNodeParameterInt h "maxTokens" 0 = Returned (cfgMaxTokens cfg) /\
       getNodeParameterNum h "temperature" 0 = Returned (cfgTemperature cfg)) /\
    (forall sub, fileType f = ("image/" ++ sub)%string -> free_of "/" sub = true ->
       messages cmd = [mkMessage "user" [TextPart msg; ImagePart (Some sub) (fileBuffer f)]]) /\
    (fileType f = "application/pdf" ->
       messages cmd
         = [mkMessage "user" [TextPart msg; DocumentPart "pdf" "document" (fileBuffer f)]]) /\
    (forall r,
       outcome (bedrock_converse sv (now st) (log st) cmd) = Returned r ->
       fst (process_item h sv cfg i st) = Ok tt /\
       returnData (snd (process_item h sv cfg i st))
         = (returnData st
              ++ [OutResponse (claimed_first_text r)
                              (nullish (usage r) (mkUsage None None None))
                              (stopReason r)])%list).
Proof.
  intros h sv cfg i st msg f Hm Hf cmd. unfold process_item.
  erewrite try_body_request by eassumption. fold cmd.
  split; [|split; [reflexivity|split; [|split; [|split]]]].
  - destruct (outcome (bedrock_converse sv (now st) (log st) cmd)); [reflexivity|].
    destruct (continueOnFail h); reflexivity.
  - intros st0 st1 Hc. apply configure_reads_parameters in Hc. destruct Hc as (_ & H1 & H2). auto.
  - intros sub Hty Hfree. subst cmd. unfold request, file_parts. cbn [messages].
    rewrite Hty. change (startsWith ("image/" ++ sub) "image/") with (String.prefix EmptyString sub).
    replace (String.prefix EmptyString sub) with true by (now destruct sub).
    rewrite image_format_is_subtype by exact Hfree. reflexivity.
  - intros Hty. subst cmd. unfold request, file_parts. cbn [messages]. rewrite Hty. reflexivity.
  - intros r Hr. rewrite Hr. cbn [fst snd]. split; [reflexivity|].
    rewrite first_text_claimed. reflexivity.
Qed.

(** C9.  A record whose MIME type neither starts with [image/] nor is
    [application/pdf] raises no error for it: the request carries the
    instruction text alone, no part with the bytes of the file, and when
    the collaborator answers the record goes on and appends to the output
    the usual [{ response, usage, stopReason }] of the reply and nothing
    else; the only error such a record can end with is the one the
    collaborator throws. *)
Theorem other_mime_types_send_text_alone :
  forall h sv cfg i st msg f,
    getNodeParameter h "message" i = Returned msg ->
    resolve_file h i = Returned f ->
    startsWith (fileType f) "image/" = false ->
    fileType f <> "application/pdf" ->
    let cmd := mkConverseCommand (cfgModelId cfg) [mkMessage "user" [TextPart msg]]
                 (mkInferenceConfig (cfgMaxTokens cfg) (cfgTemperature cfg)
                                    (QArith_base.Qmake 9 10)) in
    build_content msg f = [TextPart msg] /\
    existsb carries_bytes (build_content msg f) = false /\
    log (snd (process_item h sv cfg i st)) = (log st ++ [Converse cmd])%list /\
    (forall r,
       outcome (bedrock_converse sv (now st) (log st) cmd) = Returned r ->
       fst (process_item h sv cfg i st) = Ok tt /\
       returnData (snd (process_item h sv cfg i st))
         = (returnData st
              ++ [OutResponse (claimed_first_text r)
                              (nullish (usage r) (mkUsage None None None))
                              (stopReason r)])%list) /\
    (forall e,
       outcome (bedrock_converse sv (now st) (log st) cmd) = Failed e ->
       fst (process_item h sv cfg i st)
         = (if continueOnFail h then Ok tt else Throw (descriptive e)) /\
       returnData (snd (process_item h sv cfg i st))
         = (returnData st ++ (if continueOnFail h then [OutError e] else []))%list).
Proof.
  intros h sv cfg i st msg f Hm Hf Himg Hpdf cmd.
  assert (Hparts : file_parts f = []).
  { unfold file_parts. rewrite Himg. apply String.eqb_neq in Hpdf. now rewrite Hpdf. }
  assert (Hreq : request cfg msg f = cmd) by (unfold request; now rewrite Hparts).
  assert (Hc : build_content msg f = [TextPart msg])
    by (now rewrite build_content_parts, Hparts).
  split; [exact Hc|]. split; [now rewrite Hc|].
  unfold process_item. erewrite try_body_request by eassumption. rewrite Hreq.
  split; [|split].
  - destruct (outcome (bedrock_converse sv (now st) (log st) cmd)); [reflexivity|].
    destruct (continueOnFail h); reflexivity.
  - intros r Hr. rewrite Hr. cbn [fst snd]. split; [reflexivity|].
    rewrite first_text_claimed. reflexivity.
  - intros e He. rewrite He. destruct (continueOnFail h); cbn [fst snd].
    + split; reflexivity.
    + split; [reflexivity|]. cbn [after_request returnData]. now rewrite app_nil_r.
Qed.

(** *** The batch *)

Lemma bedrock_try_body_failure_appends_nothing h sv cfg i st r st1 :
  try_body h sv cfg i st = (r, st1) ->
  r <> Ok tt -> returnData st1 = returnData st.
Proof.
  unfold try_body, bind, host.
  destruct (getNodeParameter h "message" i) as [msg|e]; [|intros H _; now inversion H].
  destruct (resolve_file h i) as [f|e]; [|intros H _; now inversion H].
  unfold send.
  destruct (outcome (bedrock_converse sv (now st) (log st)
                       (build_command cfg (build_content msg f))));
    intros H Hn; inversion H; subst; [now elim Hn|reflexivity].
Qed.

Lemma bedrock_run_items_tolerant h sv cfg :
  continueOnFail h = true ->
  forall remaining i st e, fst (run_items h sv cfg remaining i st) <> Throw e.
Proof.
  intros Hc. induction remaining as [|n IH]; intros i st e; [discriminate|].
  simpl. unfold bind, process_item. rewrite Hc.
  destruct (try_body h sv cfg i st) as [[u|e'|] st1]; try apply IH. discriminate.
Qed.

(** *** The theorems on the examples *)

(** The image record of the specification's example. *)
Lemma record_sends_one_converse_request_witness :
  Bedrock.returnData
    (snd (Bedrock.process_item (base64_host (Some good_credentials) false "image/png" 0 1)
            red_circle (bedrock_config good_credentials) 0 bedrock_start))
  = [Bedrock.OutResponse "A red circle"
       (Bedrock.mkUsage (Some 12) (Some 4) (Some 16)) (Some "end_turn")].
Proof.
  destruct (@BedrockProps.record_sends_one_converse_request
              (base64_host (Some good_credentials) false "image/png" 0 1)
              red_circle (bedrock_config good_credentials) 0 bedrock_start
              "describe this image" (mkInputFile payload "image/png") eq_refl eq_refl)
    as (_ & _ & _ & _ & _ & H).
  destruct (H (reply_with "A red circle") eq_refl) as [_ Hout]. exact Hout.
Defined.

(** A record of MIME type [text/plain]: the request has the text part
    only. *)
Lemma other_mime_types_send_text_alone_witness :
  Bedrock.log
    (snd (Bedrock.process_item (base64_host (Some good_credentials) false "text/plain" 0 1)
            red_circle (bedrock_config good_credentials) 0 bedrock_start))
  = [Bedrock.Converse
       (Bedrock.mkConverseCommand "anthropic.claude-3"
          [Bedrock.mkMessage "user" [Bedrock.TextPart "describe this image"]]
          (Bedrock.mkInferenceConfig 4096 (QArith_base.Qmake 7 10) (QArith_base.Qmake 9 10)))] /\
  Bedrock.returnData
    (snd (Bedrock.process_item (base64_host (Some good_credentials) false "text/plain" 0 1)
            red_circle (bedrock_config good_credentials) 0 bedrock_start))
  = [Bedrock.OutResponse "A red circle"
       (Bedrock.mkUsage (Some 12) (Some 4) (Some 16)) (Some "end_turn")].
Proof.
  destruct (@BedrockProps.other_mime_types_send_text_alone
              (base64_host (Some good_credentials) false "text/plain" 0 1)
              red_circle (bedrock_config good_credentials) 0 bedrock_start
              "describe this image" (mkInputFile payload "text/plain")
              eq_refl eq_refl eq_refl ltac:(discriminate))
    as (_ & _ & Hlog & Hok & _).
  split; [exact Hlog|]. exact (proj2 (Hok (reply_with "A red circle") eq_refl)).
Defined.

Example red_circle_reply :
  fst (execute (base64_host (Some good_credentials) false "image/png" 120 1)
               red_circle bedrock_start)
  = Ok [[OutResponse "A red circle" (mkUsage (Some 12) (Some 4) (Some 16))
                     (Some "end_turn")]].
Proof. vm_compute. reflexivity. Qed.

End BedrockProps.

(* ================================================================== *)
(** ** Both nodes: missing credentials *)

Module BatchProps.

Import Fixtures.

(** The OCR node refuses credentials without a key pair before it reads
    anything else. *)
Lemma textract_refuses_missing_key_pair fuel h sv st c :
  getCredentials h = Returned c ->
  (match c with
   | None => True
   | Some k => truthy_opt (accessKeyId k) = false \/ truthy_opt (secretAccessKey k) = false
   end) ->
  Textract.execute fuel h sv st
  = (Throw "AWS credentials are missing or incomplete",
     Textract.mkState (Textract.now st) (Textract.log st) [] None).
Proof.
  intros Hg Hc. unfold Textract.execute, Textract.configure, bind, host. rewrite Hg.
  destruct c as [k|]; [|reflexivity].
  destruct Hc as [Hc|Hc]; rewrite Hc; simpl; [reflexivity|].
  now destruct (truthy_opt (accessKeyId k)).
Qed.

(** The model-invocation node hands on whatever credentials object it
    gets. *)
Lemma bedrock_configure_ignores_key_pair h st c rgn model maxTok temp :
  getCredentials h = Returned (Some c) ->
  getNodeParameter h "region" 0 = Returned rgn ->
  getNodeParameter h "modelId" 0 = Returned model ->
  getNodeParameterInt h "maxTokens" 0 = Returned maxTok ->
  getNodeParameterNum h "temperature" 0 = Returned temp ->
  Bedrock.configure h st
  = (Ok (Bedrock.mkConfig rgn model maxTok temp (accessKeyId c) (secretAccessKey c)), st).
Proof.
  intros Hg Hr Hm Ht Hp. unfold Bedrock.configure, bind, host.
  now rewrite Hg, Hr, Hm, Ht, Hp.
Qed.

(** C6, where the code departs from the claim.  With credentials that
    have no key pair and one image record, the OCR node throws its
    configuration error before any call, but the model-invocation node
    goes through the record: it sends the [Converse] request and returns
    the reply. *)
Theorem bedrock_runs_without_key_pair :
  Textract.execute 5 (base64_host (Some empty_credentials) false "image/png" 120 1)
                   two_page_job start_state
  = (Throw "AWS credentials are missing or incomplete", start_state) /\
  fst (Bedrock.execute (base64_host (Some empty_credentials) false "image/png" 120 1)
                       red_circle bedrock_start)
  = Ok [[Bedrock.OutResponse "A red circle"
           (Bedrock.mkUsage (Some 12) (Some 4) (Some 16)) (Some "end_turn")]] /\
  Bedrock.log
    (snd (Bedrock.execute (base64_host (Some empty_credentials) false "image/png" 120 1)
                          red_circle bedrock_start))
  = [Bedrock.Converse
       (BedrockSpec.request (bedrock_config empty_credentials) "describe this image"
          (mkInputFile payload "image/png"))].
Proof.
  split; [|split].
  - change start_state
      with (Textract.mkState (Textract.now start_state) (Textract.log start_state) [] None)
      at 2.
    apply (@textract_refuses_missing_key_pair 5 _ _ _ (Some empty_credentials)).
    + reflexivity.
    + left. reflexivity.
  - vm_compute. reflexivity.
  - vm_compute. reflexivity.
Qed.

End BatchProps.

(* ================================================================== *)
(** ** The OCR node: what precedes the loop *)

Module OcrConfigProps.

Import Textract TextractSpec Fixtures Scenarios.

Lemma or_else_same (p : string) : or_else (Some p) EmptyString = p.
Proof. now destruct p. Qed.

(** X1.  When the host returns no credentials object, or one whose access
    key or secret key is missing or empty, [execute] throws
    [AWS credentials are missing or incomplete] whether the host continues
    on failure or not, before it reads any parameter and without a call to
    a collaborator. *)
Theorem ocr_refuses_incomplete_credentials :
  forall fuel h sv st c,
    getCredentials h = Returned c ->
    (c = None \/
     exists k, c = Some k /\
       (truthy_opt (accessKeyId k) = false \/ truthy_opt (secretAccessKey k) = false)) ->
    fst (execute fuel h sv st) = Throw "AWS credentials are missing or incomplete" /\
    log (snd (execute fuel h sv st)) = log st /\
    returnData (snd (execute fuel h sv st)) = [].
Proof.
  intros fuel h sv st c Hg Hc.
  assert (He : execute fuel h sv st
               = (Throw "AWS credentials are missing or incomplete",
                  mkState (now st) (log st) [] None)).
  { unfold execute, configure, bind, host. rewrite Hg.
    destruct Hc as [->|(k & -> & Hk)]; [reflexivity|].
    destruct Hk as [Hk|Hk]; rewrite Hk; simpl; [reflexivity|].
    now destruct (truthy_opt (accessKeyId k)). }
  rewrite He. auto.
Qed.

Lemma ocr_refuses_incomplete_credentials_witness :
  fst (execute 5 (base64_host (Some (mkCredentials (Some "AKIAEXAMPLE") None None))
                    true "application/pdf" 120 3)
         two_page_job start_state)
  = Throw "AWS credentials are missing or incomplete".
Proof.
  exact (proj1 (@ocr_refuses_incomplete_credentials 5
                  (base64_host (Some (mkCredentials (Some "AKIAEXAMPLE") None None))
                     true "application/pdf" 120 3)
                  two_page_job start_state
                  (Some (mkCredentials (Some "AKIAEXAMPLE") None None)) eq_refl
                  (or_intror (ex_intro _ _ (conj eq_refl (or_intror eq_refl)))))).
Defined.

(** X2.  With a key pair, when the [s3Bucket] parameter is the empty
    string (and [s3Prefix] and [timeoutSeconds] can be read, which comes
    first), [execute] throws [S3 bucket must be provided], in either
    failure mode, without a call to a collaborator and without a record
    in the output. *)
Theorem ocr_requires_a_bucket :
  forall fuel h sv st k prefix timeout,
    getCredentials h = Returned (Some k) ->
    truthy_opt (accessKeyId k) = true ->
    truthy_opt (secretAccessKey k) = true ->
    getNodeParameter h "s3Bucket" 0 = Returned EmptyString ->
    getNodeParameter h "s3Prefix" 0 = Returned prefix ->
    getNodeParameterInt h "timeoutSeconds" 0 = Returned timeout ->
    fst (execute fuel h sv st) = Throw "S3 bucket must be provided" /\
    log (snd (execute fuel h sv st)) = log st /\
    returnData (snd (execute fuel h sv st)) = [].
Proof.
  intros fuel h sv st k prefix timeout Hg Ha Hs Hb Hp Ht.
  unfold execute, configure, bind, host. rewrite Hg, Ha, Hs, Hb, Hp, Ht. simpl. auto.
Qed.

Lemma ocr_requires_a_bucket_witness :
  fst (execute 5 (bucket_host (Some "eu-west-1") EmptyString) two_page_job start_state)
  = Throw "S3 bucket must be provided".
Proof.
  exact (proj1 (@ocr_requires_a_bucket 5 (bucket_host (Some "eu-west-1") EmptyString)
                  two_page_job start_state _ "tmp" 120
                  eq_refl eq_refl eq_refl eq_refl eq_refl eq_refl)).
Defined.

(** X3.  With a key pair and a bucket, the configuration is the bucket,
    the prefix and the timeout of the parameters of record 0.  A region
    in the credentials is the region of the clients and the [region]
    parameter is then not read; without one, the [region] parameter is
    read, and when that read throws, [execute] throws its message before
    any record. *)
Theorem ocr_region_comes_from_the_credentials_first :
  forall h st k bucket prefix timeout,
    getCredentials h = Returned (Some k) ->
    truthy_opt (accessKeyId k) = true ->
    truthy_opt (secretAccessKey k) = true ->
    getNodeParameter h "s3Bucket" 0 = Returned bucket ->
    truthy bucket = true ->
    getNodeParameter h "s3Prefix" 0 = Returned prefix ->
    getNodeParameterInt h "timeoutSeconds" 0 = Returned timeout ->
    (truthy_opt (region k) = true ->
     configure h st = (Ok (mkConfig bucket prefix timeout (region k)), st)) /\
    (truthy_opt (region k) = false ->
     (forall r, getNodeParameter h "region" 0 = Returned r ->
        configure h st
        = (Ok (mkConfig bucket prefix timeout (if truthy r then Some r else None)), st)) /\
     (forall e fuel sv, getNodeParameter h "region" 0 = Failed e ->
        execute fuel h sv st = (Throw e, mkState (now st) (log st) [] None))).
Proof.
  intros h st k bucket prefix timeout Hg Ha Hs Hb Hbt Hp Ht.
  assert (Hcfg : forall s, configure h s
            = if truthy_opt (region k)
              then (Ok (mkConfig bucket prefix timeout (region k)), s)
              else match getNodeParameter h "region" 0 with
                   | Returned r =>
                       (Ok (mkConfig bucket prefix timeout
                              (if truthy r then Some r else None)), s)
                   | Failed e => (Throw e, s)
                   end).
  { intros s. unfold configure, bind, host.
    rewrite Hg, Ha, Hs, Hb, Hp, Ht, Hbt, or_else_same. simpl.
    destruct (truthy_opt (region k)); [reflexivity|].
    destruct (getNodeParameter h "region" 0); reflexivity. }
  split.
  - intros Hr. now rewrite Hcfg, Hr.
  - intros Hr. split.
    + intros r Hp'. now rewrite Hcfg, Hr, Hp'.
    + intros e fuel sv Hp'. unfold execute, bind. now rewrite Hcfg, Hr, Hp'.
Qed.

Lemma ocr_region_comes_from_the_credentials_first_witness :
  configure (bucket_host (Some "eu-west-1") "scratch-bucket") start_state
    = (Ok (mkConfig "scratch-bucket" "tmp" 120 (Some "eu-west-1")), start_state) /\
  fst (execute 5 (bucket_host None "scratch-bucket") two_page_job start_state)
    = Throw "Could not get parameter region".
Proof.
  split.
  - exact (proj1 (@ocr_region_comes_from_the_credentials_first
                    (bucket_host (Some "eu-west-1") "scratch-bucket") start_state
                    _ "scratch-bucket" "tmp" 120
                    eq_refl eq_refl eq_refl eq_refl eq_refl eq_refl eq_refl) eq_refl).
  - rewrite (proj2 (proj2 (@ocr_region_comes_from_the_credentials_first
                    (bucket_host None "scratch-bucket") start_state
                    _ "scratch-bucket" "tmp" 120
                    eq_refl eq_refl eq_refl eq_refl eq_refl eq_refl eq_refl) eq_refl)
               "Could not get parameter region" 5%nat two_page_job eq_refl).
    reflexivity.
Defined.

End OcrConfigProps.

(* ================================================================== *)
(** ** The OCR node: one record, failure by failure *)

Module OcrRecordProps.

Import Textract TextractSpec Fixtures Scenarios TextractProps.

(** What the [catch] and [finally] blocks make of a [try] block that
    threw. *)
Lemma process_item_after_throw fuel h sv cfg i st e st1 :
  try_body fuel h sv cfg i (set_uploadedKey None st) = (Throw e, st1) ->
  process_item fuel h sv cfg i st
  = if continueOnFail h
    then (Ok tt, cleanup h sv cfg (push (OutError e) st1))
    else (Throw (descriptive e), cleanup h sv cfg st1).
Proof. intros H. unfold process_item. now rewrite H. Qed.

(** The state in which the upload of a PDF record is sent. *)
Lemma upload_state sv cfg f st :
  upload_and_start sv cfg f st
  = let key := object_key sv cfg st in
    let st0 := set_uploadedKey (Some key) st in
    match outcome (s3_put sv (now st) (log st) (s3Bucket cfg) key (fileBuffer f) (fileType f)) with
    | Failed e =>
        (Throw e,
         record_call (PutObject (s3Bucket cfg) key (fileBuffer f) (fileType f))
           (took (s3_put sv (now st) (log st) (s3Bucket cfg) key (fileBuffer f) (fileType f)))
           st0)
    | Returned _ =>
        let st1 := record_call (PutObject (s3Bucket cfg) key (fileBuffer f) (fileType f))
           (took (s3_put sv (now st) (log st) (s3Bucket cfg) key (fileBuffer f) (fileType f)))
           st0 in
        let reply := textract_start sv (now st1) (log st1) (s3Bucket cfg) key in
        let st2 := record_call (StartDocumentTextDetection (s3Bucket cfg) key) (took reply) st1 in
        match outcome reply with
        | Failed e => (Throw e, st2)
        | Returned sr =>
            if truthy_opt (JobId sr)
            then (Ok (nullish (JobId sr) EmptyString), st2)
            else (Throw "Failed to start Textract job", st2)
        end
    end.
Proof.
  unfold upload_and_start, bind, make_key. fold (object_key sv cfg st).
  unfold send. cbn [now log set_uploadedKey].
  destruct (outcome (s3_put sv (now st) (log st) (s3Bucket cfg) (object_key sv cfg st)
                       (fileBuffer f) (fileType f))) as [[]|e]; [|reflexivity].
  cbn [now log record_call].
  match goal with |- context [outcome ?x] => destruct (outcome x) as [sr|e] end;
    [|reflexivity].
  destruct (JobId sr) as [j|]; [|reflexivity]. simpl. destruct (truthy j); reflexivity.
Qed.

(** A record whose [try] block threw after the key was made: the deletion
    is the last call, and the error record comes before the warnings. *)
Lemma thrown_record_trace fuel h sv cfg i st e st1 key :
  try_body fuel h sv cfg i (set_uploadedKey None st) = (Throw e, st1) ->
  uploadedKey st1 = Some key -> truthy key = true ->
  fst (process_item fuel h sv cfg i st)
    = (if continueOnFail h then Ok tt else Throw (descriptive e)) /\
  log (snd (process_item fuel h sv cfg i st))
    = (log st1 ++ [DeleteObject (s3Bucket cfg) key])%list /\
  (continueOnFail h = true ->
   exists warn,
     returnData (snd (process_item fuel h sv cfg i st))
       = (returnData st1 ++ OutError e :: warn)%list /\
     forallb is_warning warn = true).
Proof.
  intros Hbody Hk Hkt. rewrite (process_item_after_throw _ _ _ _ _ _ Hbody).
  destruct (continueOnFail h).
  - destruct (cleanup_uploaded h sv cfg (push (OutError e) st1) (key := key))
      as (Hcl & warn & Hcr & Hw & _); auto.
    cbn [fst snd]. split; [reflexivity|]. split; [exact Hcl|].
    intros _. exists warn. rewrite Hcr. cbn [push returnData].
    rewrite <- app_assoc. auto.
  - destruct (cleanup_uploaded h sv cfg st1 (key := key)) as (Hcl & _); auto.
    cbn [fst snd]. split; [reflexivity|]. split; [exact Hcl|]. discriminate.
Qed.

(** X4.  When the upload of a PDF record throws [e], the record fails with
    that error ([e] in its [error] record when the host continues on
    failure, [e] as [NodeOperationError] makes it when [execute] throws):
    no job is started, and the deletion is still attempted, for the key
    that was never stored, so that the calls of the record are the
    [PutObject] and the [DeleteObject] and nothing else. *)
Theorem failed_upload_is_still_cleaned_up :
  forall fuel h sv cfg i f st e,
    resolve_file h i = Returned f ->
    fileType f = "application/pdf" ->
    outcome (s3_put sv (now st) (log st) (s3Bucket cfg) (object_key sv cfg st)
               (fileBuffer f) (fileType f)) = Failed e ->
    fst (process_item fuel h sv cfg i st)
      = (if continueOnFail h then Ok tt else Throw (descriptive e)) /\
    log (snd (process_item fuel h sv cfg i st))
    = (log st ++ [PutObject (s3Bucket cfg) (object_key sv cfg st) (fileBuffer f) (fileType f);
                  DeleteObject (s3Bucket cfg) (object_key sv cfg st)])%list /\
    (continueOnFail h = true ->
     exists warn,
       returnData (snd (process_item fuel h sv cfg i st))
       = (returnData st ++ OutError e :: warn)%list /\
       forallb is_warning warn = true).
Proof.
  intros fuel h sv cfg i f st e Hf Hty Hput.
  assert (Hbody : exists st1,
            try_body fuel h sv cfg i (set_uploadedKey None st) = (Throw e, st1) /\
            uploadedKey st1 = Some (object_key sv cfg st) /\
            returnData st1 = returnData st /\
            log st1 = (log st ++ [PutObject (s3Bucket cfg) (object_key sv cfg st)
                                            (fileBuffer f) (fileType f)])%list).
  { eexists. rewrite (try_body_pdf _ _ _ _ _ _ Hf Hty), pdf_path_phases, upload_state.
    cbv zeta. cbn [now log set_uploadedKey].
    change (object_key sv cfg (set_uploadedKey None st)) with (object_key sv cfg st).
    rewrite Hput. repeat split. }
  destruct Hbody as (st1 & Hbody & Hk & Hr & Hl).
  destruct (@thrown_record_trace _ _ _ _ _ _ _ _ _ Hbody Hk (object_key_truthy sv cfg st))
    as (Hres & Hlog & Hout).
  split; [exact Hres|]. split.
  - rewrite Hlog, Hl, <- app_assoc. reflexivity.
  - intros Hc. destruct (Hout Hc) as (warn & Hw & Hall). exists warn.
    rewrite Hw, Hr. auto.
Qed.

Lemma failed_upload_is_still_cleaned_up_witness :
  log (snd (process_item 5 (ocr_host false "application/pdf" 120 1)
              (faulty (Failed "NoSuchBucket") (Failed "unreachable") (Failed "unreachable"))
              (ocr_config 120) 0 start_state))
  = [PutObject "scratch-bucket" "tmp/1700000000000-3f2b.pdf" payload "application/pdf";
     DeleteObject "scratch-bucket" "tmp/1700000000000-3f2b.pdf"].
Proof.
  exact (proj1 (proj2
    (@failed_upload_is_still_cleaned_up 5 (ocr_host false "application/pdf" 120 1)
       (faulty (Failed "NoSuchBucket") (Failed "unreachable") (Failed "unreachable"))
       (ocr_config 120) 0 pdf_file start_state "NoSuchBucket"
       eq_refl eq_refl eq_refl))).
Defined.

(** X5.  When the upload succeeds and the job start returns no [JobId]
    (none, or the empty string), the record fails with
    [Failed to start Textract job]: it does not poll, and it deletes the
    uploaded object; its calls are the [PutObject], the
    [StartDocumentTextDetection] and the [DeleteObject]. *)
Theorem job_without_identifier_is_not_polled :
  forall fuel h sv cfg i f st sr,
    resolve_file h i = Returned f ->
    fileType f = "application/pdf" ->
    let key := object_key sv cfg st in
    let put := s3_put sv (now st) (log st) (s3Bucket cfg) key (fileBuffer f) (fileType f) in
    outcome put = Returned tt ->
    outcome (textract_start sv (now st + Z.of_N (took put))
               (log st ++ [PutObject (s3Bucket cfg) key (fileBuffer f) (fileType f)])
               (s3Bucket cfg) key) = Returned sr ->
    truthy_opt (JobId sr) = false ->
    fst (process_item fuel h sv cfg i st)
      = (if continueOnFail h then Ok tt else Throw "Failed to start Textract job") /\
    log (snd (process_item fuel h sv cfg i st))
      = (log st ++ [PutObject (s3Bucket cfg) key (fileBuffer f) (fileType f);
                    StartDocumentTextDetection (s3Bucket cfg) key;
                    DeleteObject (s3Bucket cfg) key])%list.
Proof.
  intros fuel h sv cfg i f st sr Hf Hty key put Hput Hstart Hid.
  assert (Hbody : exists st1,
            try_body fuel h sv cfg i (set_uploadedKey None st)
              = (Throw "Failed to start Textract job", st1) /\
            uploadedKey st1 = Some key /\
            log st1 = (log st ++ [PutObject (s3Bucket cfg) key (fileBuffer f) (fileType f);
                                  StartDocumentTextDetection (s3Bucket cfg) key])%list).
  { eexists. rewrite (try_body_pdf _ _ _ _ _ _ Hf Hty), pdf_path_phases, upload_state.
    cbv zeta. cbn [now log set_uploadedKey record_call].
    change (object_key sv cfg (set_uploadedKey None st)) with key.
    fold put. rewrite Hput, Hstart, Hid. repeat split.
    unfold record_call. cbn [log]. now rewrite <- app_assoc. }
  destruct Hbody as (st1 & Hbody & Hk & Hl).
  destruct (@thrown_record_trace _ _ _ _ _ _ _ _ _ Hbody Hk (object_key_truthy sv cfg st))
    as (Hres & Hlog & _).
  split; [exact Hres|]. rewrite Hlog, Hl, <- app_assoc. reflexivity.
Qed.

Lemma job_without_identifier_is_not_polled_witness :
  log (snd (process_item 5 (ocr_host true "application/pdf" 120 1)
              (faulty (Returned tt) (Returned (mkStartResponse (Some EmptyString)))
                      (Failed "unreachable"))
              (ocr_config 120) 0 start_state))
  = [PutObject "scratch-bucket" "tmp/1700000000000-3f2b.pdf" payload "application/pdf";
     StartDocumentTextDetection "scratch-bucket" "tmp/1700000000000-3f2b.pdf";
     DeleteObject "scratch-bucket" "tmp/1700000000000-3f2b.pdf"].
Proof.
  exact (proj2 (@job_without_identifier_is_not_polled 5
                  (ocr_host true "application/pdf" 120 1)
                  (faulty (Returned tt) (Returned (mkStartResponse (Some EmptyString)))
                          (Failed "unreachable"))
                  (ocr_config 120) 0 pdf_file start_state _
                  eq_refl eq_refl eq_refl eq_refl eq_refl)).
Defined.

(** X6.  When a status fetch of the polling throws [e], the polling stops
    there and the [try] block throws [e], not the message of an
    incomplete job: the record goes on when the host continues on failure
    and [execute] throws [e] as [NodeOperationError] makes it otherwise;
    the uploaded object is deleted as the last call. *)
Theorem thrown_status_fetch_fails_the_record :
  forall fuel h sv cfg i f st jobId st1 obs e st2,
    resolve_file h i = Returned f ->
    fileType f = "application/pdf" ->
    upload_and_start sv cfg f (set_uploadedKey None st) = (Ok jobId, st1) ->
    polls sv jobId (now st1 + effective_timeout (timeoutSeconds cfg) * 1000) st1
          obs (Some e) st2 ->
    try_body fuel h sv cfg i (set_uploadedKey None st) = (Throw e, st2) /\
    fst (process_item fuel h sv cfg i st)
      = (if continueOnFail h then Ok tt else Throw (descriptive e)) /\
    log (snd (process_item fuel h sv cfg i st))
      = (log st1 ++ poll_trace jobId (S (List.length obs))
           ++ [DeleteObject (s3Bucket cfg) (object_key sv cfg st)])%list.
Proof.
  intros fuel h sv cfg i f st jobId st1 obs e st2 Hf Hty Hu Hp.
  assert (Hbody : try_body fuel h sv cfg i (set_uploadedKey None st) = (Throw e, st2)).
  { rewrite (try_body_pdf _ _ _ _ _ _ Hf Hty), pdf_path_phases, Hu, (polls_poll Hp).
    reflexivity. }
  split; [exact Hbody|].
  destruct (upload_and_start_shape _ _ _ _ Hu) as (_ & Hk & _).
  destruct (polls_log Hp) as (Hl & _ & Hk2).
  assert (Hk3 : uploadedKey st2 = Some (object_key sv cfg st)) by (rewrite Hk2; exact Hk).
  destruct (@thrown_record_trace _ _ _ _ _ _ _ _ _ Hbody Hk3 (object_key_truthy sv cfg st))
    as (Hres & Hlog & _).
  split; [exact Hres|]. rewrite Hlog, Hl, <- app_assoc. reflexivity.
Qed.

Lemma thrown_status_fetch_fails_the_record_witness :
  fst (process_item 5 (ocr_host false "application/pdf" 120 1)
         (faulty (Returned tt) (Returned (mkStartResponse (Some "job-1")))
                 (Failed "ThrottlingException"))
         (ocr_config 120) 0 start_state)
  = Throw "ThrottlingException".
Proof.
  pose (sv := faulty (Returned tt) (Returned (mkStartResponse (Some "job-1")))
                     (Failed "ThrottlingException")).
  pose (st1 := snd (upload_and_start sv (ocr_config 120) pdf_file
                      (set_uploadedKey None start_state))).
  assert (Hp : polls sv "job-1"
                 (now st1 + effective_timeout (timeoutSeconds (ocr_config 120)) * 1000)
                 st1 [] (Some "ThrottlingException")
                 (after_status sv "job-1" (after_sleep sv st1))).
  { apply polls_thrown; vm_compute; reflexivity. }
  exact (proj1 (proj2
    (@thrown_status_fetch_fails_the_record 5 (ocr_host false "application/pdf" 120 1)
       sv (ocr_config 120) 0 pdf_file start_state "job-1" st1 [] _ _
       eq_refl eq_refl ltac:(vm_compute; reflexivity) Hp))).
Defined.

(** X7.  With a negative [timeoutSeconds] the deadline is already past
    when the job has started: the record sends no timer and no status
    fetch, and fails with the message of an incomplete job whose status is
    [undefined], however fast the job would have been. *)
Theorem negative_timeout_never_polls :
  forall fuel h sv cfg i f st jobId st1,
    resolve_file h i = Returned f ->
    fileType f = "application/pdf" ->
    timeoutSeconds cfg < 0 ->
    upload_and_start sv cfg f (set_uploadedKey None st) = (Ok jobId, st1) ->
    try_body fuel h sv cfg i (set_uploadedKey None st)
      = (Throw "Textract job did not complete successfully: undefined", st1) /\
    log (snd (process_item fuel h sv cfg i st))
      = (log st1 ++ [DeleteObject (s3Bucket cfg) (object_key sv cfg st)])%list.
Proof.
  intros fuel h sv cfg i f st jobId st1 Hf Hty Hneg Hu.
  assert (Hp : polls sv jobId (now st1 + effective_timeout (timeoutSeconds cfg) * 1000)
                     st1 [] None st1).
  { apply polls_deadline. unfold effective_timeout.
    destruct (timeoutSeconds cfg =? 0) eqn:Hz; [apply Z.eqb_eq in Hz|]; lia. }
  assert (Hbody : try_body fuel h sv cfg i (set_uploadedKey None st)
            = (Throw "Textract job did not complete successfully: undefined", st1)).
  { rewrite (try_body_pdf _ _ _ _ _ _ Hf Hty), pdf_path_phases, Hu, (polls_poll Hp).
    reflexivity. }
  split; [exact Hbody|].
  destruct (upload_and_start_shape _ _ _ _ Hu) as (_ & Hk & _).
  destruct (@thrown_record_trace _ _ _ _ _ _ _ _ _ Hbody Hk (object_key_truthy sv cfg st))
    as (_ & Hlog & _).
  exact Hlog.
Qed.

Lemma negative_timeout_never_polls_witness :
  log (snd (process_item 5 (ocr_host true "application/pdf" (-1) 1) two_page_job
              (ocr_config (-1)) 0 start_state))
  = [PutObject "scratch-bucket" "tmp/1700000000000-3f2b.pdf" payload "application/pdf";
     StartDocumentTextDetection "scratch-bucket" "tmp/1700000000000-3f2b.pdf";
     DeleteObject "scratch-bucket" "tmp/1700000000000-3f2b.pdf"].
Proof.
  exact (proj2
    (@negative_timeout_never_polls 5 (ocr_host true "application/pdf" (-1) 1) two_page_job
       (ocr_config (-1)) 0 pdf_file start_state "job-1"
       (snd (upload_and_start two_page_job (ocr_config (-1)) pdf_file
               (set_uploadedKey None start_state)))
       eq_refl eq_refl eq_refl ltac:(vm_compute; reflexivity))).
Defined.

Lemma polls_take_time sv jobId timeoutAt st obs err st' :
  polls sv jobId timeoutAt st obs err st' ->
  now st + 3000 * Z.of_nat (status_calls obs err) <= now st'.
Proof.
  induction 1 as [st Hd|st e Hd Ho|st resp Hd Ho Ht|st resp obs err st' Hd Ho Ht Hp IH].
  - simpl. lia.
  - pose proof (now_after_round sv jobId st). cbn [status_calls List.length]. lia.
  - pose proof (now_after_round sv jobId st). cbn [status_calls List.length]. lia.
  - pose proof (now_after_round sv jobId st).
    assert (Hc : status_calls (resp :: obs) err = S (status_calls obs err))
      by (destruct err; reflexivity).
    rewrite Hc. lia.
Qed.

(** X8.  Polling costs 3 seconds a fetch at least: when the polling loop
    ends, the clock has advanced by 3000 ms for every status fetch sent,
    and a loop that ends with a status (so also every record whose job is
    seen [SUCCEEDED]) ends no sooner than 3000 ms after the job start,
    even if the job was done at once. *)
Theorem polling_waits_before_the_first_status :
  forall sv jobId timeoutAt st,
    exists obs err st',
      polls sv jobId timeoutAt st obs err st' /\
      poll sv jobId timeoutAt st = (poll_result obs err, st') /\
      now st + 3000 * Z.of_nat (status_calls obs err) <= now st' /\
      (forall js gr, poll sv jobId timeoutAt st = (Ok (js, gr), st') ->
                     (js <> None \/ gr <> None) -> now st + 3000 <= now st').
Proof.
  intros sv jobId timeoutAt st.
  destruct (@polls_total sv jobId timeoutAt _ st (le_n _)) as (obs & err & st' & Hp).
  exists obs, err, st'. split; [exact Hp|]. split; [exact (polls_poll Hp)|].
  pose proof (polls_take_time Hp) as Ht. split; [exact Ht|].
  intros js gr Hpoll Hsome. rewrite (polls_poll Hp) in Hpoll.
  destruct err as [e|]; [discriminate|]. cbn [poll_result] in Hpoll.
  destruct obs as [|r rest].
  - inversion Hpoll; subst. destruct Hsome as [H|H]; now elim H.
  - cbn [status_calls List.length] in Ht. lia.
Qed.

Lemma pages_from_trace sv jobId tok st pages st' :
  pages_from sv jobId tok st pages st' ->
  log st' = (log st ++ map (fun t => GetDocumentTextDetection jobId (Some t))
                           (page_tokens tok pages))%list /\
  Forall (fun t => truthy t = true) (page_tokens tok pages) /\
  truthy_opt (last (map NextToken pages) tok) = false.
Proof.
  induction 1 as [tok st Htok|t st page rest st' Ht Ho Hp IH].
  - simpl. rewrite app_nil_r. auto.
  - destruct IH as (Hl & Hall & Hlast). split; [|split].
    + rewrite Hl. cbn [log record_call page_tokens map nullish].
      now rewrite <- app_assoc.
    + constructor; assumption.
    + cbn [map]. rewrite last_cons. exact Hlast.
Qed.

(** X9.  The result pages are fetched token by token: the first fetch
    carries the token of the last polling response, each following one the
    token of the page before, every token sent is a non-empty string, and
    the fetching stops at the first page whose token is absent or empty;
    the blocks come back in that order.  A page budget that covers the
    pages changes nothing. *)
Theorem pages_are_fetched_token_by_token :
  forall sv jobId tok st pages st' fuel acc,
    pages_from sv jobId tok st pages st' ->
    (List.length pages <= fuel)%nat ->
    collect_pages fuel sv jobId tok acc st
      = (Ok (acc ++ flat_map (fun p => nullish (Blocks p) []) pages)%list, st') /\
    log st' = (log st ++ map (fun t => GetDocumentTextDetection jobId (Some t))
                             (page_tokens tok pages))%list /\
    List.length (page_tokens tok pages) = List.length pages /\
    Forall (fun t => truthy t = true) (page_tokens tok pages) /\
    truthy_opt (last (map NextToken pages) tok) = false.
Proof.
  intros sv jobId tok st pages st' fuel acc Hp Hfuel.
  destruct (pages_from_trace Hp) as (Hl & Hall & Hlast).
  split; [exact (pages_from_collect Hp _ Hfuel)|].
  split; [exact Hl|]. split; [|auto].
  clear. revert tok. induction pages as [|p rest IH]; intros tok; simpl; auto.
Qed.

Lemma pages_are_fetched_token_by_token_witness :
  fst (collect_pages 1 two_page_job "job-1" (Some "page-2") [line "Page1Line"] start_state)
  = Ok [line "Page1Line"; line "Page2Line"].
Proof.
  assert (Hp : pages_from two_page_job "job-1" (Some "page-2") start_state
                 [mkGetResponse (Some "SUCCEEDED") None (Some [line "Page2Line"])]
                 (record_call (GetDocumentTextDetection "job-1" (Some "page-2"))
                    (took (textract_get two_page_job (now start_state) (log start_state)
                             "job-1" (Some "page-2")))
                    start_state)).
  { apply pages_next; [reflexivity|vm_compute; reflexivity|].
    apply pages_done. reflexivity. }
  rewrite (proj1 (@pages_are_fetched_token_by_token two_page_job "job-1" (Some "page-2")
                    start_state _ _ 1%nat [line "Page1Line"] Hp (le_n _))).
  reflexivity.
Defined.

(** *** What a record appends *)

Lemma try_body_leaves sv cfg fuel h i st r st1 :
  try_body fuel h sv cfg i st = (r, st1) ->
  uploadedKey st = None ->
  (uploadedKey st1 = None \/ uploadedKey st1 = Some (object_key sv cfg st)) /\
  (r = Ok tt -> exists t, returnData st1 = (returnData st ++ [OutText t])%list).
Proof.
  unfold try_body, bind, host. intros H Hnone.
  destruct (resolve_file h i) as [f|e];
    [|inversion H; subst; split; [auto|discriminate]].
  destruct (negb (String.eqb (fileType f) "application/pdf")
            && negb (startsWith (fileType f) "image/"));
    [inversion H; subst; split; [auto|discriminate]|].
  destruct (startsWith (fileType f) "image/").
  - unfold image_path, bind, send in H.
    destruct (outcome (textract_detect sv (now st) (log st) (fileBuffer f)));
      inversion H; subst; (split; [left; exact Hnone|]); [|discriminate].
    intros _. eexists. reflexivity.
  - destruct (pdf_path fuel sv cfg f st) as [rp st2] eqn:Hp.
    destruct (pdf_path_shape _ _ _ _ _ Hp) as (Hk & Hr & _).
    destruct rp; inversion H; subst; (split; [right; exact Hk|]); try discriminate.
    intros _. eexists. cbn [push returnData]. now rewrite Hr.
Qed.

Lemma cleanup_cases h sv cfg st :
  returnData (cleanup h sv cfg st) = returnData st \/
  (continueOnFail h = true /\
   exists key e, uploadedKey st = Some key /\
     returnData (cleanup h sv cfg st) = (returnData st ++ [deletion_warning key e])%list).
Proof.
  unfold cleanup.
  destruct (uploadedKey st) as [key|]; [destruct (truthy key)|]; auto.
  unfold send.
  destruct (outcome (s3_delete sv (now st) (log st) (s3Bucket cfg) key)) as [[]|e]; auto.
  destruct (continueOnFail h); auto.
  right. split; [reflexivity|]. exists key, e. split; reflexivity.
Qed.

(** A record that comes to an end appends, when the host continues on
    failure, exactly one record that is a text or an error, followed by at
    most one warning, which names the key of the record and the message of
    the failed deletion; when the host does not, it appends its text and
    nothing else, or nothing at all when it throws. *)
Lemma process_item_appends :
  forall fuel h sv cfg i st r st',
    process_item fuel h sv cfg i st = (r, st') ->
    r <> Diverge ->
    exists new,
      returnData st' = (returnData st ++ new)%list /\
      (continueOnFail h = true ->
       r = Ok tt /\
       exists o, is_warning o = false /\
         (new = [o] \/
          exists e, new = [o; deletion_warning (object_key sv cfg st) e])) /\
      (continueOnFail h = false ->
       (r = Ok tt /\ exists t, new = [OutText t]) \/
       (exists e, r = Throw e /\ new = [])).
Proof.
  intros fuel h sv cfg i st r st' Hp Hnd. unfold process_item in Hp.
  destruct (try_body fuel h sv cfg i (set_uploadedKey None st)) as [rb st1] eqn:Hb.
  destruct (try_body_leaves _ _ _ _ _ _ Hb eq_refl) as (Hkey & Hok).
  change (object_key sv cfg (set_uploadedKey None st)) with (object_key sv cfg st) in Hkey.
  cbn [returnData set_uploadedKey] in Hok.
  assert (Hfail : rb <> Ok tt -> returnData st1 = returnData st).
  { intros Hn. exact (try_body_failure_appends_nothing _ _ _ _ _ _ Hb Hn). }
  destruct rb as [[]|e|].
  - destruct (Hok eq_refl) as (t & Ht). inversion Hp; subst r st'.
    destruct (cleanup_cases h sv cfg st1) as [Hc|(Htol & key & e & Hk & Hc)].
    + exists [OutText t]. rewrite Hc, Ht. split; [reflexivity|]. split.
      * intros _. split; [reflexivity|]. exists (OutText t). auto.
      * intros _. left. split; [reflexivity|]. eauto.
    + exists [OutText t; deletion_warning (object_key sv cfg st) e].
      destruct Hkey as [Hkey|Hkey]; [congruence|].
      rewrite Hkey in Hk. inversion Hk; subst key.
      rewrite Hc, Ht, <- app_assoc. split; [reflexivity|]. split.
      * intros _. split; [reflexivity|]. exists (OutText t). split; [reflexivity|]. eauto.
      * congruence.
  - specialize (Hfail ltac:(discriminate)).
    destruct (continueOnFail h) eqn:Hc; inversion Hp; subst r st'.
    + destruct (cleanup_cases h sv cfg (push (OutError e) st1))
        as [Hcl|(_ & key & e' & Hk & Hcl)].
      * exists [OutError e]. rewrite Hcl. cbn [push returnData]. rewrite Hfail.
        split; [reflexivity|]. split; [|discriminate].
        intros _. split; [reflexivity|]. exists (OutError e). auto.
      * exists [OutError e; deletion_warning (object_key sv cfg st) e'].
        rewrite uploadedKey_push in Hk.
        destruct Hkey as [Hkey|Hkey]; [congruence|].
        rewrite Hkey in Hk. inversion Hk; subst key.
        rewrite Hcl. cbn [push returnData]. rewrite Hfail, <- app_assoc.
        split; [reflexivity|]. split; [|discriminate].
        intros _. split; [reflexivity|]. exists (OutError e). split; [reflexivity|]. eauto.
    + destruct (cleanup_cases h sv cfg st1) as [Hcl|(Htol & _)]; [|congruence].
      exists []. rewrite Hcl, Hfail, app_nil_r. split; [reflexivity|]. split; [discriminate|].
      intros _. right. eauto.
  - inversion Hp; subst. now elim Hnd.
Qed.

End OcrRecordProps.

(* ================================================================== *)
(** ** The OCR node: the batch *)

Module OcrBatchProps.

Import Textract TextractSpec Fixtures Scenarios TextractProps OcrRecordProps.

Lemma run_items_groups fuel h sv cfg :
  forall n i st r st',
    run_items fuel h sv cfg n i st = (r, st') ->
    r <> Diverge ->
    exists groups,
      returnData st' = (returnData st ++ List.concat groups)%list /\
      Forall record_group groups /\
      (r = Ok tt -> List.length groups = n /\ in_turn fuel h sv cfg i st groups st') /\
      (forall e, r = Throw e -> continueOnFail h = false /\ (List.length groups < n)%nat) /\
      (continueOnFail h = false -> Forall (fun g => exists t, g = [OutText t]) groups).
Proof.
  induction n as [|n IH]; intros i st r st' Hrun Hnd.
  - inversion Hrun; subst. exists []. simpl. rewrite app_nil_r.
    repeat split; auto; try discriminate. constructor.
  - simpl in Hrun. unfold bind in Hrun.
    destruct (process_item fuel h sv cfg i st) as [r1 st1] eqn:Hp.
    destruct r1 as [[]|e|].
    + destruct (process_item_appends _ _ _ _ _ _ Hp ltac:(discriminate))
        as (new & Hnew & Htol & Hstrict).
      destruct (IH _ _ _ _ Hrun Hnd) as (groups & Hg & Hall & Hok & Hthrow & Hs).
      exists (new :: groups). split; [|split; [|split; [|split]]].
      * rewrite Hg, Hnew. simpl. now rewrite <- app_assoc.
      * constructor; [|exact Hall].
        destruct (continueOnFail h) eqn:Hc.
        -- destruct (Htol eq_refl) as (_ & o & Ho & [Hn|(e & Hn)]);
             exists o; split; auto. right. eauto.
        -- destruct (Hstrict eq_refl) as [(_ & t & Ht)|(e & He & _)]; [|discriminate].
           exists (OutText t). auto.
      * intros Hr. destruct (Hok Hr) as [Hlen Hturn]. simpl. rewrite Hlen.
        split; [reflexivity|]. eapply in_turn_next; eauto.
      * intros e Hr. destruct (Hthrow e Hr). split; [assumption|]. simpl. lia.
      * intros Hc. constructor; [|auto].
        destruct (Hstrict Hc) as [(_ & t & Ht)|(e & He & _)]; [eauto|discriminate].
    + inversion Hrun; subst r st'.
      destruct (process_item_appends _ _ _ _ _ _ Hp ltac:(discriminate))
        as (new & Hnew & Htol & Hstrict).
      destruct (continueOnFail h) eqn:Hc.
      * destruct (Htol eq_refl) as (Habs & _). discriminate.
      * destruct (Hstrict eq_refl) as [(Habs & _)|(e' & _ & Hn)]; [discriminate|].
        exists []. subst new. simpl. rewrite Hnew.
        repeat split; auto; try discriminate. lia.
    + inversion Hrun; subst. now elim Hnd.
Qed.

(** What precedes the loop leaves the state alone. *)
Lemma configure_state h st r st' : configure h st = (r, st') -> st' = st.
Proof.
  unfold configure, bind, host.
  destruct (getCredentials h) as [[c|]|e]; try (intros H; now inversion H).
  destruct (negb (truthy_opt (accessKeyId c)) || negb (truthy_opt (secretAccessKey c)));
    try (intros H; now inversion H).
  destruct (getNodeParameter h "s3Bucket" 0) as [b|e]; try (intros H; now inversion H).
  destruct (getNodeParameter h "s3Prefix" 0) as [p|e]; try (intros H; now inversion H).
  destruct (getNodeParameterInt h "timeoutSeconds" 0) as [t|e];
    try (intros H; now inversion H).
  destruct (negb (truthy b)); try (intros H; now inversion H).
  destruct (truthy_opt (region c)); try (intros H; now inversion H).
  destruct (getNodeParameter h "region" 0) as [rg|e]; intros H; now inversion H.
Qed.

Lemma record_group_counts (groups : list (list Output)) :
  Forall record_group groups ->
  List.length (records_of (List.concat groups)) = List.length groups /\
  (List.length (List.concat groups) <= 2 * List.length groups)%nat.
Proof.
  induction 1 as [|g groups (o & Ho & Hg) _ (IH1 & IH2)]; [auto|].
  unfold records_of in *. simpl. rewrite filter_app, !length_app, IH1.
  destruct Hg as [->|(key & e & ->)]; simpl; rewrite Ho; simpl; lia.
Qed.

(** X10.  When [execute] returns, its single output list is made of one
    group for each input record, in the order of the records: the [k]-th
    group is what record [k] has appended, run in the state that the
    records before it have left, and it is a text or an error, followed
    by at most one warning of a failed deletion.  So the output has
    exactly as many records that are not warnings as there are input
    records and at most twice as many records in all; and when the host
    does not continue on failure it is exactly one text for each input
    record. *)
Theorem ocr_output_has_one_group_for_each_record :
  forall fuel h sv st outs,
    fst (execute fuel h sv st) = Ok outs ->
    exists cfg groups st',
      configure h (mkState (now st) (log st) [] None)
        = (Ok cfg, mkState (now st) (log st) [] None) /\
      in_turn fuel h sv cfg 0 (mkState (now st) (log st) [] None) groups st' /\
      outs = [List.concat groups] /\
      List.length groups = items_length h /\
      Forall record_group groups /\
      List.length (records_of (List.concat groups)) = items_length h /\
      (List.length (List.concat groups) <= 2 * items_length h)%nat /\
      (continueOnFail h = false ->
       exists texts, List.concat groups = map OutText texts /\
                     List.length texts = items_length h).
Proof.
  intros fuel h sv st outs Hex. unfold execute, bind in Hex.
  destruct (configure h (mkState (now st) (log st) [] None)) as [[cfg|e|] st0] eqn:Hc;
    try discriminate.
  pose proof Hc as Hst0. apply configure_state in Hst0. subst st0.
  assert (Hr0 : returnData (mkState (now st) (log st) [] None) = []) by reflexivity.
  destruct (run_items fuel h sv cfg (items_length h) 0 (mkState (now st) (log st) [] None))
    as [[[]|e|] st1] eqn:Hrun;
    try discriminate.
  destruct (@run_items_groups _ _ _ _ _ _ _ _ _ Hrun ltac:(discriminate))
    as (groups & Hg & Hall & Hok & _ & Hs).
  rewrite Hr0 in Hg. simpl in Hg, Hex. inversion Hex; subst outs.
  exists cfg, groups, st1. rewrite Hg. destruct (record_group_counts Hall) as (Hc1 & Hc2).
  assert (Htexts : continueOnFail h = false ->
            exists texts, List.concat groups = map OutText texts /\
                          List.length texts = List.length groups).
  { intros Hstrict. specialize (Hs Hstrict). clear - Hs.
    induction Hs as [|g groups (t & ->) _ (texts & Ht & Hlen)].
    - exists []. auto.
    - exists (t :: texts). simpl. rewrite Ht, Hlen. auto. }
  destruct (Hok eq_refl) as [Hlen Hturn]. rewrite Hlen in *. repeat split; auto.
Qed.

Lemma ocr_output_has_one_group_for_each_record_witness :
  exists groups,
    [[OutError "Textract job did not complete successfully: FAILED";
      OutWarning "Failed to delete S3 object tmp/1700000000000-3f2b.pdf: AccessDenied";
      OutError "Textract job did not complete successfully: FAILED";
      OutWarning "Failed to delete S3 object tmp/1700000003000-3f2b.pdf: AccessDenied"]]
    = [List.concat groups] /\
    List.length groups = 2%nat /\
    Forall record_group groups.
Proof.
  destruct (@ocr_output_has_one_group_for_each_record 5
              (ocr_host true "application/pdf" 120 2) failed_job start_state _
              ltac:(vm_compute; reflexivity))
    as (cfg & groups & st' & _ & _ & Ho & Hl & Hall & _).
  exists groups. split; [exact Ho|]. split; [exact Hl|exact Hall].
Defined.

(** *** What every run keeps *)

Lemma grows_refl st : grows st st.
Proof. repeat split; try (exists []; now rewrite app_nil_r). lia. Qed.

Lemma grows_trans st1 st2 st3 : grows st1 st2 -> grows st2 st3 -> grows st1 st3.
Proof.
  intros ((d1 & Hl1) & (n1 & Hr1) & Ht1) ((d2 & Hl2) & (n2 & Hr2) & Ht2).
  repeat split.
  - exists (d1 ++ d2)%list. now rewrite Hl2, Hl1, <- app_assoc.
  - exists (n1 ++ n2)%list. now rewrite Hr2, Hr1, <- app_assoc.
  - lia.
Qed.

Lemma grows_record_call cmd ms st : grows st (record_call cmd ms st).
Proof.
  repeat split; cbn [record_call log returnData now].
  - now exists [cmd].
  - exists []. now rewrite app_nil_r.
  - lia.
Qed.

Lemma grows_push o st : grows st (push o st).
Proof.
  repeat split; cbn [push log returnData now].
  - exists []. now rewrite app_nil_r.
  - now exists [o].
  - lia.
Qed.

Lemma grows_set_uploadedKey k st : grows st (set_uploadedKey k st).
Proof.
  repeat split; cbn [set_uploadedKey log returnData now];
    try (exists []; now rewrite app_nil_r). lia.
Qed.

Lemma growing_bind {A B : Type} (m : M State A) (k : A -> M State B) :
  growing m -> (forall a, growing (k a)) -> growing (bind m k).
Proof.
  intros Hm Hk st. unfold bind. specialize (Hm st).
  destruct (m st) as [[a|e|] st1]; cbn [snd] in *; auto.
  eapply grows_trans; [exact Hm|apply Hk].
Qed.

Lemma growing_ret {A : Type} (a : A) : growing (ret a).
Proof. intros st. apply grows_refl. Qed.

Lemma growing_throw {A : Type} (e : string) : growing (@throw State A e).
Proof. intros st. apply grows_refl. Qed.

Lemma growing_host {A : Type} (o : Outcome A) : growing (@host State A o).
Proof. intros st. unfold host. destruct o; apply grows_refl. Qed.

Lemma growing_send {A : Type} cmd (oracle : Z -> list Event -> Reply A) :
  growing (send cmd oracle).
Proof.
  intros st. unfold send.
  destruct (outcome (oracle (now st) (log st))); apply grows_record_call.
Qed.

Lemma growing_sleep sv ms : growing (sleep sv ms).
Proof. intros st. apply grows_record_call. Qed.

Lemma growing_poll_loop sv jobId timeoutAt :
  forall n js gr, growing (poll_loop n sv jobId timeoutAt js gr).
Proof.
  induction n as [|n IH]; intros js gr st; simpl.
  - destruct (now st <? timeoutAt); apply grows_refl.
  - destruct (now st <? timeoutAt); [|apply grows_refl].
    apply growing_bind; [apply growing_sleep|]. intros _.
    apply growing_bind; [apply growing_send|]. intros resp.
    destruct (is_terminal (JobStatus resp)); [apply growing_ret|apply IH].
Qed.

Lemma growing_collect_pages sv jobId :
  forall fuel tok acc, growing (collect_pages fuel sv jobId tok acc).
Proof.
  induction fuel as [|fuel IH]; intros tok acc; simpl;
    (destruct tok as [t|]; [destruct (truthy t)|]); try apply growing_ret.
  - intros st. apply grows_refl.
  - apply growing_bind; [apply growing_send|]. intros page. apply IH.
Qed.

Lemma growing_try_body fuel h sv cfg i : growing (try_body fuel h sv cfg i).
Proof.
  unfold try_body. apply growing_bind; [apply growing_host|]. intros f.
  destruct (negb (String.eqb (fileType f) "application/pdf")
            && negb (startsWith (fileType f) "image/")); [apply growing_throw|].
  apply growing_bind; [|intros t st; apply grows_push].
  destruct (startsWith (fileType f) "image/").
  - unfold image_path. apply growing_bind; [apply growing_send|].
    intros resp. apply growing_ret.
  - unfold pdf_path. apply growing_bind.
    + unfold upload_and_start. apply growing_bind; [intros st; apply grows_refl|].
      intros key. apply growing_bind; [intros st; apply grows_set_uploadedKey|].
      intros _. apply growing_bind; [apply growing_send|]. intros _.
      apply growing_bind; [apply growing_send|]. intros sr.
      destruct (JobId sr) as [j|]; [destruct (truthy j)|];
        try apply growing_ret; apply growing_throw.
    + intros jobId. apply growing_bind; [intros st; apply grows_refl|].
      intros startTime. apply growing_bind.
      * intros st. apply growing_poll_loop.
      * intros [js gr]. unfold finish_job.
        destruct (negb (succeeded js)); [apply growing_throw|].
        destruct gr as [resp|]; [|apply growing_throw].
        apply growing_bind; [apply growing_collect_pages|]. intros bs. apply growing_ret.
Qed.

Lemma grows_cleanup h sv cfg st : grows st (cleanup h sv cfg st).
Proof.
  unfold cleanup.
  destruct (uploadedKey st) as [key|]; [destruct (truthy key)|]; try apply grows_refl.
  pose proof (growing_send (DeleteObject (s3Bucket cfg) key)
                (fun t l => s3_delete sv t l (s3Bucket cfg) key) st) as Hs.
  destruct (send (DeleteObject (s3Bucket cfg) key)
              (fun t l => s3_delete sv t l (s3Bucket cfg) key) st) as [[u|e|] st1];
    cbn [snd] in Hs; auto.
  destruct (continueOnFail h); auto.
  eapply grows_trans; [exact Hs|apply grows_push].
Qed.

Lemma growing_process_item fuel h sv cfg i : growing (process_item fuel h sv cfg i).
Proof.
  intros st. unfold process_item.
  pose proof (growing_try_body fuel h sv cfg i (set_uploadedKey None st)) as Hb.
  pose proof (grows_set_uploadedKey None st) as H0.
  destruct (try_body fuel h sv cfg i (set_uploadedKey None st)) as [[u|e|] st1];
    cbn [snd] in *.
  - eapply grows_trans; [exact H0|]. eapply grows_trans; [exact Hb|apply grows_cleanup].
  - destruct (continueOnFail h); cbn [snd].
    + eapply grows_trans; [exact H0|]. eapply grows_trans; [exact Hb|].
      eapply grows_trans; [apply grows_push|apply grows_cleanup].
    + eapply grows_trans; [exact H0|]. eapply grows_trans; [exact Hb|apply grows_cleanup].
  - eapply grows_trans; eassumption.
Qed.

Lemma growing_run_items fuel h sv cfg :
  forall n i, growing (run_items fuel h sv cfg n i).
Proof.
  induction n as [|n IH]; intros i; simpl; [apply growing_ret|].
  apply growing_bind; [apply growing_process_item|]. intros _. apply IH.
Qed.

End OcrBatchProps.

(* ================================================================== *)
(** ** The OCR node: object keys and extracted text *)

Module OcrKeyAndTextProps.

Import Textract TextractSpec Fixtures Scenarios TextractProps.

Lemma prefix_append (a b : string) : String.prefix a (a ++ b) = true.
Proof.
  induction a as [|c a IH]; simpl; [now destruct b|].
  destruct (ascii_dec c c) as [_|Hn]; [exact IH|now elim Hn].
Qed.

Lemma length_append (a b : string) :
  String.length (a ++ b) = (String.length a + String.length b)%nat.
Proof. induction a as [|c a IH]; simpl; [reflexivity|now rewrite IH]. Qed.

Lemma substring_all (b : string) : String.substring 0 (String.length b) b = b.
Proof. induction b as [|c b IH]; simpl; [reflexivity|now rewrite IH]. Qed.

Lemma substring_append (a b : string) :
  String.substring (String.length a) (String.length b) (a ++ b) = b.
Proof. induction a as [|c a IH]; simpl; [apply substring_all|exact IH]. Qed.

Lemma endsWith_append (a b : string) : endsWith (a ++ b) b = true.
Proof.
  unfold endsWith. rewrite length_append.
  replace (String.length a + String.length b - String.length b)%nat
    with (String.length a) by lia.
  rewrite substring_append, String.eqb_refl, andb_true_r.
  apply Nat.leb_le. lia.
Qed.

Lemma append_assoc (a b c : string) : ((a ++ b) ++ c = a ++ b ++ c)%string.
Proof. induction a as [|x a IH]; simpl; [reflexivity|now rewrite IH]. Qed.

Lemma append_inj_r (s a b : string) : (a ++ s = b ++ s)%string -> a = b.
Proof.
  revert b. induction a as [|x a IH]; intros b H.
  - destruct b as [|y b]; [reflexivity|].
    apply (f_equal String.length) in H. simpl in H. rewrite length_append in H. lia.
  - destruct b as [|y b].
    + apply (f_equal String.length) in H. simpl in H. rewrite length_append in H. lia.
    + simpl in H. inversion H. f_equal. now apply IH.
Qed.

Lemma digits_free_of_dash (d : Decimal.uint) :
  BedrockSpec.free_of "-" (NilEmpty.string_of_uint d) = true.
Proof. induction d; simpl; auto. Qed.

Lemma string_of_Z_free_of_dash (t : Z) :
  0 <= t -> BedrockSpec.free_of "-" (string_of_Z t) = true.
Proof.
  intros Ht. unfold string_of_Z. destruct t as [|p|p]; [reflexivity| |lia].
  simpl. unfold NilZero.string_of_uint.
  destruct (Pos.to_uint p); try apply digits_free_of_dash. reflexivity.
Qed.

Lemma string_of_Z_inj (a b : Z) : string_of_Z a = string_of_Z b -> a = b.
Proof.
  intros H. unfold string_of_Z in H. apply DecimalZ.to_int_inj.
  assert (Hn : forall z, Z.to_int z <> Decimal.Pos Decimal.Nil /\
                         Z.to_int z <> Decimal.Neg Decimal.Nil).
  { intros [|p|p]; simpl; split; try discriminate;
      intros Heq; inversion Heq as [Hp];
      now apply (DecimalPos.Unsigned.to_uint_nonnil p). }
  pose proof (NilZero.isi (Z.to_int a) (proj1 (Hn a)) (proj2 (Hn a))) as Ha.
  pose proof (NilZero.isi (Z.to_int b) (proj1 (Hn b)) (proj2 (Hn b))) as Hb.
  rewrite H in Ha. congruence.
Qed.

(** Two strings without a dash, each followed by a dash and more, are
    equal only piece by piece. *)
Lemma dash_separates (a b x y : string) :
  BedrockSpec.free_of "-" a = true -> BedrockSpec.free_of "-" b = true ->
  (a ++ "-" ++ x = b ++ "-" ++ y)%string -> a = b /\ x = y.
Proof.
  revert b. induction a as [|c a IH]; intros b Ha Hb H.
  - destruct b as [|d b]; simpl in H.
    + inversion H. auto.
    + inversion H; subst d. simpl in Hb. discriminate.
  - destruct b as [|d b]; simpl in H.
    + inversion H; subst c. simpl in Ha. discriminate.
    + inversion H; subst d. simpl in Ha, Hb.
      apply andb_prop in Ha as [_ Ha]. apply andb_prop in Hb as [_ Hb].
      destruct (IH b Ha Hb) as [-> ->]; auto.
Qed.

(** X13.  The key of an uploaded object lies under the configured prefix,
    with a slash put between the two when the prefix is not empty and
    does not end with one, and it ends with [.pdf]; and at clock values
    that are not negative, two keys made for the same configuration are
    equal only when they were made at the same millisecond with the same
    UUID. *)
Theorem object_keys_do_not_collide :
  forall sv cfg st1 st2,
    startsWith (object_key sv cfg st1) (s3Prefix cfg) = true /\
    (truthy (s3Prefix cfg) = true -> endsWith (s3Prefix cfg) "/" = false ->
     startsWith (object_key sv cfg st1) (s3Prefix cfg ++ "/") = true) /\
    endsWith (object_key sv cfg st1) ".pdf" = true /\
    (0 <= now st1 -> 0 <= now st2 ->
     object_key sv cfg st1 = object_key sv cfg st2 ->
     now st1 = now st2 /\
     randomUUID sv (now st1) (log st1) = randomUUID sv (now st2) (log st2)).
Proof.
  intros sv cfg st1 st2. unfold object_key, startsWith.
  split; [apply prefix_append|]. split; [|split].
  - intros Hp He. rewrite Hp, He. cbn [andb negb]. rewrite <- append_assoc.
    apply prefix_append.
  - rewrite <- !append_assoc. apply endsWith_append.
  - intros H1 H2 H. apply append_inj_l in H. apply append_inj_l in H.
    apply dash_separates in H; try now apply string_of_Z_free_of_dash.
    destruct H as [Ht Hu]. split.
    + now apply string_of_Z_inj.
    + now apply append_inj_r in Hu.
Qed.

Lemma object_keys_do_not_collide_witness :
  startsWith (object_key two_page_job (ocr_config 120) start_state) "tmp/" = true /\
  now start_state
  = now (record_call (DetectDocumentText payload) 0 start_state).
Proof.
  pose proof (@object_keys_do_not_collide two_page_job (ocr_config 120) start_state
                (record_call (DetectDocumentText payload) 0 start_state))
    as (_ & Hdir & _ & Hsame).
  split; [exact (Hdir eq_refl eq_refl)|].
  exact (proj1 (Hsame ltac:(vm_compute; discriminate) ltac:(vm_compute; discriminate)
                  eq_refl)).
Defined.

Lemma join_app (sep : string) (l1 l2 : list string) :
  join sep (l1 ++ l2)
  = match l1, l2 with
    | [], _ => join sep l2
    | _, [] => join sep l1
    | _, _ => (join sep l1 ++ sep ++ join sep l2)%string
    end.
Proof.
  unfold join. induction l1 as [|x l1 IH]; [reflexivity|].
  destruct l2 as [|y l2]; [now rewrite app_nil_r|].
  destruct l1 as [|x' l1]; [reflexivity|].
  change (((x :: x' :: l1) ++ y :: l2)%list) with (x :: ((x' :: l1) ++ y :: l2))%list.
  change (String.concat sep (x :: ((x' :: l1) ++ y :: l2)%list))
    with (x ++ sep ++ String.concat sep ((x' :: l1) ++ y :: l2)%list)%string.
  rewrite IH.
  change (String.concat sep (x :: x' :: l1))
    with (x ++ sep ++ String.concat sep (x' :: l1))%string.
  now rewrite !append_assoc.
Qed.

Lemma lines_of (blocks : list Block) :
  collect_lines blocks [] = map block_txt (filter is_line blocks).
Proof. now rewrite collect_lines_filter. Qed.

Lemma filter_none_existsb {A : Type} (p : A -> bool) (l : list A) :
  existsb p l = false <-> filter p l = [].
Proof.
  induction l as [|a l IH]; simpl; [tauto|].
  destruct (p a); simpl; [split; discriminate|exact IH].
Qed.

Lemma join_nonempty_lines (l : list string) :
  Forall (fun s => truthy s = true) l -> join LF l = EmptyString -> l = [].
Proof.
  intros Hall H. destruct l as [|x l]; [reflexivity|].
  inversion Hall as [|x' l' Hx _]; subst.
  destruct x as [|c x]; [discriminate|].
  unfold join in H. simpl in H. destruct l; discriminate.
Qed.

(** X14.  The extracted text is the empty string exactly when no block is
    a LINE with a non-empty text; and the text of two lists of blocks put
    end to end (two result pages, say) is the two texts joined by a
    newline, or the one text there is when the other list has no line,
    so that a page without lines leaves no blank line. *)
Theorem extracted_text_of_pages :
  forall a b,
    (extract_text a = EmptyString <-> existsb is_line a = false) /\
    extract_text (a ++ b)
    = if existsb is_line a
      then if existsb is_line b
           then (extract_text a ++ LF ++ extract_text b)%string
           else extract_text a
      else extract_text b.
Proof.
  intros a b. unfold extract_text. rewrite !lines_of. split.
  - rewrite filter_none_existsb. split.
    + intros H. apply join_nonempty_lines in H.
      * now destruct (filter is_line a).
      * clear. induction a as [|x a IH]; simpl; [constructor|].
        destruct (is_line x) eqn:Hx; [|exact IH]. simpl. constructor; [|exact IH].
        unfold is_line in Hx. destruct (BlockType x); [|discriminate].
        now apply andb_prop in Hx.
    + intros ->. reflexivity.
  - rewrite filter_app, map_app, join_app.
    destruct (existsb is_line a) eqn:Ha.
    + destruct (filter is_line a) as [|x fa] eqn:Hfa;
        [apply filter_none_existsb in Hfa; congruence|].
      destruct (existsb is_line b) eqn:Hb.
      * destruct (filter is_line b) as [|y fb] eqn:Hfb;
          [apply filter_none_existsb in Hfb; congruence|]. reflexivity.
      * apply filter_none_existsb in Hb. rewrite Hb. reflexivity.
    + apply filter_none_existsb in Ha. rewrite Ha. reflexivity.
Qed.

End OcrKeyAndTextProps.

(* ================================================================== *)
(** ** Both nodes: input that does not resolve; the model-invocation batch *)

Module ModelBatchProps.

Import Fixtures Scenarios.

(** X15.  When the file of a record cannot be resolved (a parameter that
    cannot be read, binary data that is missing), the record fails with
    the message of the host (as it is in the [error] record when the host
    continues on failure, as [NodeOperationError] makes it when [execute]
    throws) and no collaborator is called: the OCR node
    uploads nothing, detects nothing and deletes nothing, the
    model-invocation node sends no request; the same holds in the
    model-invocation node when the instruction cannot be read. *)
Theorem unresolved_input_calls_no_collaborator :
  (forall fuel h sv cfg i st e,
     resolve_file h i = Failed e ->
     Textract.process_item fuel h sv cfg i st
     = if continueOnFail h
       then (Ok tt, Textract.push (Textract.OutError e) (Textract.set_uploadedKey None st))
       else (Throw (descriptive e), Textract.set_uploadedKey None st)) /\
  (forall h sv cfg i st e,
     (getNodeParameter h "message" i = Failed e \/
      (exists msg, getNodeParameter h "message" i = Returned msg) /\
      resolve_file h i = Failed e) ->
     Bedrock.process_item h sv cfg i st
     = if continueOnFail h
       then (Ok tt, Bedrock.push (Bedrock.OutError e) st)
       else (Throw (descriptive e), st)).
Proof.
  split.
  - intros fuel h sv cfg i st e Hf.
    unfold Textract.process_item, Textract.try_body, bind, host. rewrite Hf.
    destruct (continueOnFail h); reflexivity.
  - intros h sv cfg i st e H.
    unfold Bedrock.process_item, Bedrock.try_body, bind, host.
    destruct H as [Hm|[(msg & Hm) Hf]]; rewrite Hm; [|rewrite Hf];
      destruct (continueOnFail h); reflexivity.
Qed.

Lemma unresolved_input_calls_no_collaborator_witness :
  Textract.log (snd (Textract.process_item 5 (no_binary_host true) two_page_job
                       (ocr_config 120) 0 start_state)) = [] /\
  Bedrock.process_item (no_binary_host false) red_circle
                       (bedrock_config good_credentials) 0 bedrock_start
  = (Throw "This operation expects the node's input data to contain a binary file 'data', but none was found",
     bedrock_start).
Proof.
  destruct unresolved_input_calls_no_collaborator as [HT HB]. split.
  - rewrite (HT 5%nat (no_binary_host true) two_page_job (ocr_config 120) 0%nat start_state
               _ eq_refl). reflexivity.
  - exact (HB (no_binary_host false) red_circle (bedrock_config good_credentials) 0%nat
              bedrock_start _ (or_intror (conj (ex_intro _ _ eq_refl) eq_refl))).
Defined.

Lemma bedrock_process_item_appends h sv cfg i st r st1 :
  Bedrock.process_item h sv cfg i st = (r, st1) ->
  r <> Diverge /\
  (List.length (Bedrock.log st1) <= S (List.length (Bedrock.log st)))%nat /\
  ((r = Ok tt /\
    exists o, Bedrock.returnData st1 = (Bedrock.returnData st ++ [o])%list /\
              (continueOnFail h = false -> is_response o = true)) \/
   (exists e, r = Throw e /\ continueOnFail h = false /\
              Bedrock.returnData st1 = Bedrock.returnData st)).
Proof.
  unfold Bedrock.process_item, Bedrock.try_body, bind, host.
  destruct (getNodeParameter h "message" i) as [msg|e].
  - destruct (resolve_file h i) as [f|e].
    + unfold Bedrock.send.
      destruct (outcome (Bedrock.bedrock_converse sv (Bedrock.now st) (Bedrock.log st)
                           (Bedrock.build_command cfg (Bedrock.build_content msg f))))
        as [resp|e].
      * intros H; inversion H; subst. cbn. rewrite length_app. simpl.
        split; [discriminate|]. split; [lia|]. left. split; [reflexivity|]. eauto.
      * destruct (continueOnFail h) eqn:Hc; intros H; inversion H; subst; cbn;
          rewrite length_app; simpl; (split; [discriminate|]); (split; [lia|]).
        -- left. split; [reflexivity|]. eexists. split; [reflexivity|discriminate].
        -- right. eauto.
    + destruct (continueOnFail h) eqn:Hc; intros H; inversion H; subst; cbn;
        (split; [discriminate|]); (split; [lia|]).
      * left. split; [reflexivity|]. eexists. split; [reflexivity|discriminate].
      * right. eauto.
  - destruct (continueOnFail h) eqn:Hc; intros H; inversion H; subst; cbn;
      (split; [discriminate|]); (split; [lia|]).
    + left. split; [reflexivity|]. eexists. split; [reflexivity|discriminate].
    + right. eauto.
Qed.

Lemma bedrock_run_items_appends h sv cfg :
  forall n i st r st',
    Bedrock.run_items h sv cfg n i st = (r, st') ->
    r <> Diverge /\
    (List.length (Bedrock.log st') <= List.length (Bedrock.log st) + n)%nat /\
    exists new,
      Bedrock.returnData st' = (Bedrock.returnData st ++ new)%list /\
      (r = Ok tt -> List.length new = n) /\
      (forall e, r = Throw e -> continueOnFail h = false /\ (List.length new < n)%nat) /\
      (continueOnFail h = false -> forallb is_response new = true).
Proof.
  induction n as [|n IH]; intros i st r st' H.
  - inversion H; subst. split; [discriminate|]. split; [lia|].
    exists []. rewrite app_nil_r. repeat split; auto; discriminate.
  - simpl in H. unfold bind in H.
    destruct (Bedrock.process_item h sv cfg i st) as [r1 st1] eqn:Hp.
    destruct (bedrock_process_item_appends _ _ _ _ _ Hp) as (Hnd & Hlen & Hcase).
    destruct Hcase as [(-> & o & Ho & Hresp)|(e & -> & Hc & Hr)].
    + destruct (IH _ _ _ _ H) as (Hnd' & Hlen' & new & Hnew & Hok & Hthrow & Hs).
      split; [exact Hnd'|]. split; [lia|].
      exists (o :: new). split; [|split; [|split]].
      * rewrite Hnew, Ho, <- app_assoc. reflexivity.
      * intros Hr. simpl. now rewrite (Hok Hr).
      * intros e Hr. destruct (Hthrow e Hr). split; [assumption|]. simpl. lia.
      * intros Hc. simpl. now rewrite (Hresp Hc), (Hs Hc).
    + inversion H; subst. split; [discriminate|]. split; [lia|].
      exists []. rewrite app_nil_r. split; [exact Hr|]. split; [discriminate|].
      split; [|reflexivity]. intros e' _. split; [exact Hc|simpl; lia].
Qed.

Lemma bedrock_configure_state h st r st' : Bedrock.configure h st = (r, st') -> st' = st.
Proof.
  unfold Bedrock.configure, bind, host.
  destruct (getCredentials h) as [c|e]; try (intros H; now inversion H).
  destruct (getNodeParameter h "region" 0); try (intros H; now inversion H).
  destruct (getNodeParameter h "modelId" 0); try (intros H; now inversion H).
  destruct (getNodeParameterInt h "maxTokens" 0); try (intros H; now inversion H).
  destruct (getNodeParameterNum h "temperature" 0); try (intros H; now inversion H).
  destruct c; intros H; now inversion H.
Qed.

(** X16.  The model-invocation node always comes to an end, and sends at
    most one request for each input record.  When [execute] returns, its
    single output list has exactly one record for each input record, all
    of them replies when the host does not continue on failure; and when
    the host continues on failure and the configuration can be read,
    [execute] does return. *)
Theorem model_output_has_one_record_for_each_input :
  forall h sv st,
    fst (Bedrock.execute h sv st) <> Diverge /\
    (List.length (Bedrock.log (snd (Bedrock.execute h sv st)))
     <= List.length (Bedrock.log st) + items_length h)%nat /\
    (forall outs,
       fst (Bedrock.execute h sv st) = Ok outs ->
       exists out, outs = [out] /\ List.length out = items_length h /\
                   (continueOnFail h = false -> forallb is_response out = true)) /\
    (forall cfg st0,
       continueOnFail h = true ->
       Bedrock.configure h (Bedrock.mkState (Bedrock.now st) (Bedrock.log st) [])
         = (Ok cfg, st0) ->
       exists out, fst (Bedrock.execute h sv st) = Ok [out]).
Proof.
  intros h sv st. unfold Bedrock.execute, bind.
  set (s0 := Bedrock.mkState (Bedrock.now st) (Bedrock.log st) []).
  destruct (Bedrock.configure h s0) as [rc stc] eqn:Hc.
  pose proof Hc as Hst. apply bedrock_configure_state in Hst. subst stc.
  destruct rc as [cfg|e|].
  - destruct (Bedrock.run_items h sv cfg (items_length h) 0 s0) as [r st1] eqn:Hrun.
    destruct (bedrock_run_items_appends _ _ _ _ _ _ Hrun)
      as (Hnd & Hlen & new & Hnew & Hok & Hthrow & Hs).
    cbn [Bedrock.log Bedrock.returnData] in Hlen, Hnew. subst s0. simpl in Hnew.
    destruct r as [[]|e|]; cbn [fst snd].
    + split; [discriminate|]. split; [exact Hlen|]. split.
      * intros outs Ho. inversion Ho; subst outs. exists new.
        rewrite Hnew. repeat split; auto.
      * intros cfg' st0 _ _. rewrite Hnew. eauto.
    + split; [discriminate|]. split; [exact Hlen|]. split; [discriminate|].
      intros cfg' st0 Htol _. destruct (Hthrow e eq_refl). congruence.
    + now elim Hnd.
  - cbn [fst snd]. split; [discriminate|]. split; [simpl; lia|].
    split; discriminate.
  - unfold Bedrock.configure, bind, host in Hc.
    destruct (getCredentials h) as [c|e0]; [|discriminate].
    destruct (getNodeParameter h "region" 0); [|discriminate].
    destruct (getNodeParameter h "modelId" 0); [|discriminate].
    destruct (getNodeParameterInt h "maxTokens" 0); [|discriminate].
    destruct (getNodeParameterNum h "temperature" 0); [|discriminate].
    destruct c; discriminate.
Qed.

Lemma split_from_first_piece (c : ascii) (s : string) :
  forall cur, exists p rest,
    split_from c cur s = (cur ++ p)%string :: rest /\
    BedrockSpec.free_of c p = true /\
    String.prefix p s = true.
Proof.
  induction s as [|a s IH]; intros cur; simpl.
  - exists EmptyString, []. repeat split.
    f_equal. clear. induction cur; simpl; congruence.
  - destruct (Ascii.eqb a c) eqn:Ha.
    + exists EmptyString, (split_from c EmptyString s). repeat split.
      f_equal. clear. induction cur; simpl; congruence.
    + destruct (IH (cur ++ String a EmptyString)%string) as (p & rest & Hs & Hfree & Hp).
      exists (String a p), rest. split; [|split].
      * rewrite Hs. f_equal. clear. induction cur; simpl; congruence.
      * simpl. now rewrite Ha, Hfree.
      * simpl. destruct (ascii_dec a a) as [_|Hn]; [exact Hp|now elim Hn].
Qed.

Lemma prefix_split (p s : string) :
  String.prefix p s = true -> exists rest, s = (p ++ rest)%string.
Proof.
  revert s. induction p as [|c p IH]; intros s H; [now exists s|].
  destruct s as [|d s]; [discriminate|]. simpl in H.
  destruct (ascii_dec c d) as [->|_]; [|discriminate].
  destruct (IH s H) as (rest & ->). now exists rest.
Qed.

(** X17.  For every MIME type that starts with [image/] the format of the
    image part is defined: it is what follows [image/] up to the next
    slash or to the end (so [svg+xml] for [image/svg+xml], and the empty
    string for [image/]), and the request carries the instruction and
    that one image part. *)
Theorem image_format_is_always_defined :
  forall msg f,
    startsWith (fileType f) "image/" = true ->
    exists fmt,
      nth_error (split (fileType f) "/") 1 = Some fmt /\
      BedrockSpec.free_of "/" fmt = true /\
      startsWith (fileType f) ("image/" ++ fmt) = true /\
      Bedrock.build_content msg f
      = [Bedrock.TextPart msg; Bedrock.ImagePart (Some fmt) (fileBuffer f)].
Proof.
  intros msg f Hty.
  destruct (prefix_split _ _ Hty) as (sub & Hsub).
  destruct (split_from_first_piece "/" sub EmptyString) as (p & rest & Hs & Hfree & Hp).
  assert (Hfmt : nth_error (split (fileType f) "/") 1 = Some p).
  { rewrite Hsub. unfold split. cbn. now rewrite Hs. }
  exists p. split; [exact Hfmt|]. split; [exact Hfree|]. split.
  - rewrite Hsub. unfold startsWith. cbn. exact Hp.
  - unfold Bedrock.build_content. now rewrite Hty, Hfmt.
Qed.

Lemma image_format_is_always_defined_witness :
  Bedrock.build_content "describe this image" (mkInputFile payload "image/svg+xml")
  = [Bedrock.TextPart "describe this image"; Bedrock.ImagePart (Some "svg+xml") payload].
Proof.
  destruct (@image_format_is_always_defined "describe this image"
              (mkInputFile payload "image/svg+xml") eq_refl)
    as (fmt & Hfmt & _ & _ & Hc).
  rewrite Hc. inversion Hfmt. reflexivity.
Defined.

End ModelBatchProps.

(* ================================================================== *)
(** ** Both nodes: a failing record in the batch that [execute] runs *)

Module BatchRunProps.

Import Fixtures Scenarios.

Lemma ocr_run_items_app fuel h sv cfg :
  forall k m i st,
    Textract.run_items fuel h sv cfg (k + m) i st
    = (Textract.run_items fuel h sv cfg k i ;;;
       Textract.run_items fuel h sv cfg m (i + k)) st.
Proof.
  induction k as [|k IH]; intros m i st.
  - simpl. unfold bind, ret. now rewrite Nat.add_0_r.
  - simpl. unfold bind.
    destruct (Textract.process_item fuel h sv cfg i st) as [[u|e|] st1]; try reflexivity.
    rewrite IH. unfold bind. now replace (S i + k)%nat with (i + S k)%nat by lia.
Qed.

Lemma model_run_items_app h sv cfg :
  forall k m i st,
    Bedrock.run_items h sv cfg (k + m) i st
    = (Bedrock.run_items h sv cfg k i ;;; Bedrock.run_items h sv cfg m (i + k)) st.
Proof.
  induction k as [|k IH]; intros m i st.
  - simpl. unfold bind, ret. now rewrite Nat.add_0_r.
  - simpl. unfold bind.
    destruct (Bedrock.process_item h sv cfg i st) as [[u|e|] st1]; try reflexivity.
    rewrite IH. unfold bind. now replace (S i + k)%nat with (i + S k)%nat by lia.
Qed.

(** [execute] after [k] records that have gone on. *)
Lemma ocr_execute_from fuel h sv st cfg k rest st_k :
  Textract.configure h (Textract.mkState (Textract.now st) (Textract.log st) [] None)
    = (Ok cfg, Textract.mkState (Textract.now st) (Textract.log st) [] None) ->
  items_length h = (k + rest)%nat ->
  Textract.run_items fuel h sv cfg k 0
    (Textract.mkState (Textract.now st) (Textract.log st) [] None) = (Ok tt, st_k) ->
  Textract.execute fuel h sv st
  = (Textract.run_items fuel h sv cfg rest k ;;;
     (fun s => (Ok [Textract.returnData s], s))) st_k.
Proof.
  intros Hc Hn Hk. unfold Textract.execute. unfold bind at 1. rewrite Hc.
  unfold bind at 1. rewrite Hn, ocr_run_items_app. unfold bind at 1. rewrite Hk.
  reflexivity.
Qed.

Lemma model_execute_from h sv st cfg k rest st_k :
  Bedrock.configure h (Bedrock.mkState (Bedrock.now st) (Bedrock.log st) [])
    = (Ok cfg, Bedrock.mkState (Bedrock.now st) (Bedrock.log st) []) ->
  items_length h = (k + rest)%nat ->
  Bedrock.run_items h sv cfg k 0
    (Bedrock.mkState (Bedrock.now st) (Bedrock.log st) []) = (Ok tt, st_k) ->
  Bedrock.execute h sv st
  = (Bedrock.run_items h sv cfg rest k ;;;
     (fun s => (Ok [Bedrock.returnData s], s))) st_k.
Proof.
  intros Hc Hn Hk. unfold Bedrock.execute. unfold bind at 1. rewrite Hc.
  unfold bind at 1. rewrite Hn, model_run_items_app. unfold bind at 1. rewrite Hk.
  reflexivity.
Qed.

(** C5.  In both nodes, let record [k] be one whose [try] block throws [e],
    after [k] records that have gone on, in a batch that [execute] runs
    with a configuration that could be read.  If the host continues on
    failure, the record appends exactly one [{ error: e }] (in the OCR
    node the cleanup may add warnings after it, never an error),
    [execute] goes on with record [k + 1] and with the records after it,
    it does not throw, and when it returns, its output list has the error
    record right after the records of the earlier input.  If the host
    does not, [execute] throws at once, with [e] as [NodeOperationError]
    makes it and in the state of the failed record (after its cleanup in
    the OCR node), so that no later record has run and nothing has been
    appended for the failed one. *)
Theorem failing_record_in_a_batch :
  (forall fuel h sv st cfg k rest st_k e st1,
     Textract.configure h (Textract.mkState (Textract.now st) (Textract.log st) [] None)
       = (Ok cfg, Textract.mkState (Textract.now st) (Textract.log st) [] None) ->
     items_length h = (k + S rest)%nat ->
     Textract.run_items fuel h sv cfg k 0
       (Textract.mkState (Textract.now st) (Textract.log st) [] None) = (Ok tt, st_k) ->
     Textract.try_body fuel h sv cfg k (Textract.set_uploadedKey None st_k)
       = (Throw e, st1) ->
     (continueOnFail h = true ->
      exists warn st_next,
        Textract.process_item fuel h sv cfg k st_k = (Ok tt, st_next) /\
        Textract.returnData st_next
          = (Textract.returnData st_k ++ Textract.OutError e :: warn)%list /\
        forallb TextractSpec.is_warning warn = true /\
        Textract.execute fuel h sv st
          = (Textract.run_items fuel h sv cfg rest (S k) ;;;
             (fun s => (Ok [Textract.returnData s], s))) st_next /\
        (forall e', fst (Textract.execute fuel h sv st) <> Throw e') /\
        (forall outs, fst (Textract.execute fuel h sv st) = Ok outs ->
           exists later,
             outs = [(Textract.returnData st_k
                        ++ Textract.OutError e :: warn ++ later)%list])) /\
     (continueOnFail h = false ->
      Textract.execute fuel h sv st
        = (Throw (descriptive e), Textract.cleanup h sv cfg st1) /\
      Textract.returnData (Textract.cleanup h sv cfg st1) = Textract.returnData st_k)) /\
  (forall h sv st cfg k rest st_k e st1,
     Bedrock.configure h (Bedrock.mkState (Bedrock.now st) (Bedrock.log st) [])
       = (Ok cfg, Bedrock.mkState (Bedrock.now st) (Bedrock.log st) []) ->
     items_length h = (k + S rest)%nat ->
     Bedrock.run_items h sv cfg k 0
       (Bedrock.mkState (Bedrock.now st) (Bedrock.log st) []) = (Ok tt, st_k) ->
     Bedrock.try_body h sv cfg k st_k = (Throw e, st1) ->
     (continueOnFail h = true ->
      Bedrock.returnData (Bedrock.push (Bedrock.OutError e) st1)
        = (Bedrock.returnData st_k ++ [Bedrock.OutError e])%list /\
      Bedrock.execute h sv st
        = (Bedrock.run_items h sv cfg rest (S k) ;;;
           (fun s => (Ok [Bedrock.returnData s], s)))
            (Bedrock.push (Bedrock.OutError e) st1) /\
      (forall e', fst (Bedrock.execute h sv st) <> Throw e') /\
      (forall outs, fst (Bedrock.execute h sv st) = Ok outs ->
         exists later,
           outs = [(Bedrock.returnData st_k ++ Bedrock.OutError e :: later)%list])) /\
     (continueOnFail h = false ->
      Bedrock.execute h sv st = (Throw (descriptive e), st1) /\
      Bedrock.returnData st1 = Bedrock.returnData st_k)).
Proof.
  split.
  - intros fuel h sv st cfg k rest st_k e st1 Hc Hn Hk Hb.
    pose proof (@ocr_execute_from fuel h sv st cfg k (S rest) st_k Hc Hn Hk) as Hex.
    assert (Hr : Textract.returnData st1 = Textract.returnData st_k).
    { change (Textract.returnData st_k)
        with (Textract.returnData (Textract.set_uploadedKey None st_k)).
      apply (@TextractProps.try_body_failure_appends_nothing _ _ _ _ _ _ _ _ Hb).
      discriminate. }
    split; intros Htol.
    + destruct (TextractProps.cleanup_appends_warnings h sv cfg
                  (Textract.push (Textract.OutError e) st1)) as (warn & Hw & Hall & _).
      exists warn, (Textract.cleanup h sv cfg (Textract.push (Textract.OutError e) st1)).
      assert (Hp : Textract.process_item fuel h sv cfg k st_k
                   = (Ok tt, Textract.cleanup h sv cfg
                               (Textract.push (Textract.OutError e) st1))).
      { unfold Textract.process_item. now rewrite Hb, Htol. }
      assert (Hrd : Textract.returnData
                      (Textract.cleanup h sv cfg (Textract.push (Textract.OutError e) st1))
                    = (Textract.returnData st_k ++ Textract.OutError e :: warn)%list).
      { rewrite Hw. cbn [Textract.push Textract.returnData].
        now rewrite Hr, <- app_assoc. }
      assert (Hgo : Textract.execute fuel h sv st
                    = (Textract.run_items fuel h sv cfg rest (S k) ;;;
                       (fun s => (Ok [Textract.returnData s], s)))
                        (Textract.cleanup h sv cfg
                           (Textract.push (Textract.OutError e) st1))).
      { rewrite Hex. simpl. unfold bind. now rewrite Hp. }
      split; [exact Hp|]. split; [exact Hrd|]. split; [exact Hall|].
      split; [exact Hgo|].
      pose proof (OcrBatchProps.growing_run_items fuel h sv cfg rest (S k)
                    (Textract.cleanup h sv cfg (Textract.push (Textract.OutError e) st1)))
        as (_ & (later & Hlater) & _).
      pose proof (@TextractProps.run_items_tolerant fuel h sv cfg Htol rest (S k)
                    (Textract.cleanup h sv cfg (Textract.push (Textract.OutError e) st1)))
        as Hnt.
      rewrite Hgo. unfold bind.
      destruct (Textract.run_items fuel h sv cfg rest (S k)
                  (Textract.cleanup h sv cfg (Textract.push (Textract.OutError e) st1)))
        as [[u|e0|] st2]; cbn [fst snd] in *.
      * split; [discriminate|]. intros outs Ho. inversion Ho; subst outs.
        exists later. rewrite Hlater, Hrd, <- app_assoc. reflexivity.
      * now elim (Hnt e0).
      * split; discriminate.
    + destruct (TextractProps.cleanup_appends_warnings h sv cfg st1)
        as (warn & Hw & _ & Hnone).
      split.
      * rewrite Hex. simpl. unfold bind, Textract.process_item. now rewrite Hb, Htol.
      * rewrite Hw, (Hnone Htol), app_nil_r. exact Hr.
  - intros h sv st cfg k rest st_k e st1 Hc Hn Hk Hb.
    pose proof (@model_execute_from h sv st cfg k (S rest) st_k Hc Hn Hk) as Hex.
    assert (Hr : Bedrock.returnData st1 = Bedrock.returnData st_k).
    { apply (@BedrockProps.bedrock_try_body_failure_appends_nothing _ _ _ _ _ _ _ Hb).
      discriminate. }
    split; intros Htol.
    + assert (Hgo : Bedrock.execute h sv st
                    = (Bedrock.run_items h sv cfg rest (S k) ;;;
                       (fun s => (Ok [Bedrock.returnData s], s)))
                        (Bedrock.push (Bedrock.OutError e) st1)).
      { rewrite Hex. simpl. unfold bind, Bedrock.process_item. now rewrite Hb, Htol. }
      split; [cbn [Bedrock.push Bedrock.returnData]; now rewrite Hr|].
      split; [exact Hgo|].
      pose proof (@BedrockProps.bedrock_run_items_tolerant h sv cfg Htol rest (S k)
                    (Bedrock.push (Bedrock.OutError e) st1)) as Hnt.
      rewrite Hgo. unfold bind.
      destruct (Bedrock.run_items h sv cfg rest (S k)
                  (Bedrock.push (Bedrock.OutError e) st1)) as [r st2] eqn:Hrun.
      destruct (@ModelBatchProps.bedrock_run_items_appends _ _ _ _ _ _ _ _ Hrun)
        as (_ & _ & later & Hlater & _).
      destruct r as [u|e0|]; cbn [fst snd] in *.
      * split; [discriminate|]. intros outs Ho. inversion Ho; subst outs.
        exists later. rewrite Hlater. cbn [Bedrock.push Bedrock.returnData].
        rewrite Hr, <- app_assoc. reflexivity.
      * now elim (Hnt e0).
      * split; discriminate.
    + split; [|exact Hr].
      rewrite Hex. simpl. unfold bind, Bedrock.process_item. now rewrite Hb, Htol.
Qed.

Lemma failing_record_in_a_batch_witness :
  Textract.execute 5 (ocr_host false "application/pdf" 120 2) failed_job start_state
  = (Throw "Textract job did not complete successfully: FAILED",
     Textract.cleanup (ocr_host false "application/pdf" 120 2) failed_job (ocr_config 120)
       (snd (Textract.try_body 5 (ocr_host false "application/pdf" 120 2) failed_job
               (ocr_config 120) 0 (Textract.set_uploadedKey None start_state)))) /\
  (forall e',
     fst (Bedrock.execute (base64_host (Some good_credentials) true "image/png" 0 3)
            times_out_after_one bedrock_start) <> Throw e') /\
  fst (Bedrock.execute (base64_host (Some good_credentials) false "image/png" 0 3)
         times_out_after_one bedrock_start)
  = Throw "The connection timed out, consider setting the 'Retry on Fail' option in the node settings".
Proof.
  destruct failing_record_in_a_batch as [HT HB]. split; [|split].
  - destruct (HT 5%nat (ocr_host false "application/pdf" 120 2) failed_job start_state
                (ocr_config 120) 0%nat 1%nat start_state
                "Textract job did not complete successfully: FAILED"
                (snd (Textract.try_body 5 (ocr_host false "application/pdf" 120 2) failed_job
                        (ocr_config 120) 0 (Textract.set_uploadedKey None start_state)))
                ltac:(vm_compute; reflexivity) ltac:(reflexivity)
                ltac:(reflexivity) ltac:(vm_compute; reflexivity)) as [_ Hstrict].
    exact (proj1 (Hstrict eq_refl)).
  - destruct (HB (base64_host (Some good_credentials) true "image/png" 0 3)
                times_out_after_one bedrock_start (bedrock_config good_credentials)
                1%nat 1%nat
                (snd (Bedrock.run_items (base64_host (Some good_credentials) true "image/png" 0 3)
                        times_out_after_one (bedrock_config good_credentials) 1 0
                        bedrock_start))
                "connect ETIMEDOUT 10.0.0.1:443"
                (snd (Bedrock.try_body (base64_host (Some good_credentials) true "image/png" 0 3)
                        times_out_after_one (bedrock_config good_credentials) 1
                        (snd (Bedrock.run_items
                                (base64_host (Some good_credentials) true "image/png" 0 3)
                                times_out_after_one (bedrock_config good_credentials) 1 0
                                bedrock_start))))
                ltac:(vm_compute; reflexivity) ltac:(reflexivity)
                ltac:(vm_compute; reflexivity) ltac:(vm_compute; reflexivity)) as [Htol _].
    exact (proj1 (proj2 (proj2 (Htol eq_refl)))).
  - destruct (HB (base64_host (Some good_credentials) false "image/png" 0 3)
                times_out_after_one bedrock_start (bedrock_config good_credentials)
                1%nat 1%nat
                (snd (Bedrock.run_items (base64_host (Some good_credentials) false "image/png" 0 3)
                        times_out_after_one (bedrock_config good_credentials) 1 0
                        bedrock_start))
                "connect ETIMEDOUT 10.0.0.1:443"
                (snd (Bedrock.try_body (base64_host (Some good_credentials) false "image/png" 0 3)
                        times_out_after_one (bedrock_config good_credentials) 1
                        (snd (Bedrock.run_items
                                (base64_host (Some good_credentials) false "image/png" 0 3)
                                times_out_after_one (bedrock_config good_credentials) 1 0
                                bedrock_start))))
                ltac:(vm_compute; reflexivity) ltac:(reflexivity)
                ltac:(vm_compute; reflexivity) ltac:(vm_compute; reflexivity)) as [_ Hstrict].
    rewrite (proj1 (Hstrict eq_refl)). reflexivity.
Defined.

(** The same batches, run: the tolerant one has the answer of the first
    record, then one error record for each of the two later ones, with the
    collaborator's own message; the strict one throws at the second
    record, with the message as [NodeOperationError] rewrites it, after
    the one request of the first record and the one of the second. *)
Example tolerant_batch_goes_on_after_a_failure :
  fst (Bedrock.execute (base64_host (Some good_credentials) true "image/png" 0 3)
         times_out_after_one bedrock_start)
  = Ok [[Bedrock.OutResponse "A red circle"
           (Bedrock.mkUsage (Some 12) (Some 4) (Some 16)) (Some "end_turn");
         Bedrock.OutError "connect ETIMEDOUT 10.0.0.1:443";
         Bedrock.OutError "connect ETIMEDOUT 10.0.0.1:443"]] /\
  List.length (Bedrock.log (snd (Bedrock.execute
                 (base64_host (Some good_credentials) true "image/png" 0 3)
                 times_out_after_one bedrock_start))) = 3%nat /\
  List.length (Bedrock.log (snd (Bedrock.execute
                 (base64_host (Some good_credentials) false "image/png" 0 3)
                 times_out_after_one bedrock_start))) = 2%nat.
Proof. repeat split; vm_compute; reflexivity. Qed.

(** A tolerant OCR batch of two documents whose jobs fail and whose
    deletions fail: each record gives its error and then its warning, in
    the order of the input. *)
Example tolerant_ocr_batch_goes_on_after_a_failure :
  exists key0 key1,
    fst (Textract.execute 5 (ocr_host true "application/pdf" 120 2) failed_job start_state)
    = Ok [[Textract.OutError "Textract job did not complete successfully: FAILED";
           Textract.OutWarning key0;
           Textract.OutError "Textract job did not complete successfully: FAILED";
           Textract.OutWarning key1]].
Proof. eexists; eexists. vm_compute. reflexivity. Qed.

End BatchRunProps.
